(** * game-platform-core: bet ledger and wallet gateway

    A shallow embedding of [services/bet/bet.service.ts] (class
    [BetService], and the class [JwtTokenService] that the file carries)
    and [services/wallet/wallet.service.ts] (class [WalletService]),
    with the entity and enum declarations they use.

    Conventions.
    - Asynchronous methods are modelled as functions from the state of
      their collaborators (the Bet table, the audit log and retry queue)
      to a result and the state afterwards; a thrown exception is the
      [Err] case of the result.
    - Strings are sequences of ASCII characters.
    - [Date] values are milliseconds since the epoch ([nat]); the clock
      reading of a call ([new Date()], [Date.now()]) is an argument.
    - A write issued in the background (an audit record, a retry job) is
      taken to complete where it is issued; a continuation chained on it
      with [.then] runs right after it.
    - Logger calls have no effect on any collaborator and are omitted. *)

From Stdlib Require Import String Ascii List Bool Arith ZArith NArith Lia.
From Stdlib Require Import DecimalString Sorted Permutation.
Import ListNotations.
Open Scope string_scope.
Open Scope nat_scope.
Open Scope list_scope.
Set Warnings "-register-all".
Set Implicit Arguments.

(** ** JavaScript built-ins used by the services *)

Module JS.

(** *** [Number(s)] on a string, [StringToNumber] of ECMAScript

    The result is kept as the exact mathematical value of the literal
    (sign, decimal mantissa, decimal exponent) so that comparisons with
    zero can be decided without floating point: a positive literal
    rounds to a Number greater than zero exactly when it exceeds half of
    the smallest subnormal, 2^-1075 (round to nearest, ties to even). *)

Inductive NumberValue : Type :=
| NumNaN
| NumInfinity (negative : bool)
| NumDecimal (negative : bool) (mantissa : N) (exponent : Z).

Definition code (c : ascii) : nat := nat_of_ascii c.

(** StrWhiteSpaceChar restricted to ASCII: TAB, LF, VT, FF, CR, SP. *)
Definition is_space (c : ascii) : bool :=
  let n := code c in
  ((9 <=? n) && (n <=? 13)) || (n =? 32).

Definition is_digit (c : ascii) : bool :=
  let n := code c in (48 <=? n) && (n <=? 57).

Definition digit_val (c : ascii) : N := N.of_nat (code c - 48).

(** Value of a hexadecimal digit, [None] when [c] is not one. *)
Definition hex_val (c : ascii) : option N :=
  let n := code c in
  if (48 <=? n) && (n <=? 57) then Some (N.of_nat (n - 48))
  else if (65 <=? n) && (n <=? 70) then Some (N.of_nat (n - 55))
  else if (97 <=? n) && (n <=? 102) then Some (N.of_nat (n - 87))
  else None.

Fixpoint drop_spaces (l : list ascii) : list ascii :=
  match l with
  | c :: r => if is_space c then drop_spaces r else l
  | [] => []
  end.

Definition trim (l : list ascii) : list ascii :=
  rev (drop_spaces (rev (drop_spaces l))).

(** Longest prefix of decimal digits: accumulated value (continuing from
    [acc]), number of digits read, and the rest. *)
Fixpoint take_digits (l : list ascii) (acc : N) (cnt : nat)
  : N * nat * list ascii :=
  match l with
  | c :: r =>
      if is_digit c then take_digits r (acc * 10 + digit_val c)%N (S cnt)
      else (acc, cnt, l)
  | [] => (acc, cnt, [])
  end.

(** All of [l] as digits in [radix]; [None] if some character is not a
    digit of that radix. *)
Fixpoint radix_digits (radix : N) (l : list ascii) (acc : N) : option N :=
  match l with
  | [] => Some acc
  | c :: r =>
      match hex_val c with
      | Some d =>
          if (d <? radix)%N then radix_digits radix r (acc * radix + d)%N
          else None
      | None => None
      end
  end.

(** ExponentPart (optional) closing an unsigned decimal literal whose
    digits so far denote [m * 10^e0]. *)
Definition parse_exponent (negative : bool) (m : N) (e0 : Z) (l : list ascii)
  : NumberValue :=
  match l with
  | [] => NumDecimal negative m e0
  | c :: r =>
      if (code c =? 101) || (code c =? 69) then
        let '(eneg, r1) :=
          match r with
          | s :: r' =>
              if code s =? 43 then (false, r')
              else if code s =? 45 then (true, r')
              else (false, r)
          | [] => (false, r)
          end in
        let '(x, nx, r2) := take_digits r1 0%N 0 in
        match nx, r2 with
        | O, _ => NumNaN
        | S _, [] =>
            NumDecimal negative m
              (if eneg then e0 - Z.of_N x else e0 + Z.of_N x)%Z
        | S _, _ :: _ => NumNaN
        end
      else NumNaN
  end.

(** StrUnsignedDecimalLiteral. *)
Definition parse_unsigned (negative : bool) (l : list ascii) : NumberValue :=
  if list_eq_dec ascii_dec l (list_ascii_of_string "Infinity")
  then NumInfinity negative
  else
    let '(mi, ni, r1) := take_digits l 0%N 0 in
    match r1 with
    | c :: r2 =>
        if code c =? 46 then
          let '(mf, nf, r3) := take_digits r2 mi 0 in
          if (ni =? 0) && (nf =? 0) then NumNaN
          else parse_exponent negative mf (- Z.of_nat nf)%Z r3
        else if ni =? 0 then NumNaN
        else parse_exponent negative mi 0%Z r1
    | [] => if ni =? 0 then NumNaN else NumDecimal negative mi 0%Z
    end.

(** NonDecimalIntegerLiteral: 0x, 0o, 0b prefixes, no sign. *)
Definition parse_nondecimal (l : list ascii) : option NumberValue :=
  match l with
  | z :: p :: ((_ :: _) as ds) =>
      if code z =? 48 then
        let radix :=
          if (code p =? 120) || (code p =? 88) then Some 16%N
          else if (code p =? 111) || (code p =? 79) then Some 8%N
          else if (code p =? 98) || (code p =? 66) then Some 2%N
          else None in
        match radix with
        | Some rx =>
            match radix_digits rx ds 0%N with
            | Some n => Some (NumDecimal false n 0%Z)
            | None => Some NumNaN
            end
        | None => None
        end
      else None
  | _ => None
  end.

Definition StringToNumber (s : string) : NumberValue :=
  match trim (list_ascii_of_string s) with
  | [] => NumDecimal false 0%N 0%Z
  | (c :: r) as l =>
      match parse_nondecimal l with
      | Some v => v
      | None =>
          if code c =? 43 then parse_unsigned false r
          else if code c =? 45 then parse_unsigned true r
          else parse_unsigned false l
      end
  end.

(** [m * 10^e] rounds to a non-zero Number: it exceeds 2^-1075. *)
Definition rounds_nonzero (m : N) (e : Z) : bool :=
  (0 <? m)%N &&
  (if (0 <=? e)%Z then true
   else (10 ^ (- e) <? Z.of_N m * 2 ^ 1075)%Z).

(** [Number(s) > 0]; any comparison with NaN is false. *)
Definition Number_gt0 (s : string) : bool :=
  match StringToNumber s with
  | NumNaN => false
  | NumInfinity negative => negb negative
  | NumDecimal negative m e => negb negative && rounds_nonzero m e
  end.

(** ToBoolean on a string: only the empty string is falsy. *)
Definition truthy_string (s : string) : bool :=
  match s with EmptyString => false | String _ _ => true end.

End JS.


(** ** Values shared by both services *)

(** Free-form data of a [json] column.  A number is kept as its
    literal; an object has one binding per key. *)
Inductive Json : Type :=
| JNull
| JBool (b : bool)
| JNum (literal : string)
| JStr (s : string)
| JArr (items : list Json)
| JObj (fields : list (string * Json)).

Definition Date : Type := nat.

(** [value ?? fallback] and [if (p !== undefined) stored = p] on optional
    values, [None] being [undefined]. *)
Definition nullish {A : Type} (value : option A) (fallback : A) : A :=
  match value with Some v => v | None => fallback end.

Definition provided {A : Type} (param : option A) (stored : A) : A :=
  match param with Some v => v | None => stored end.

Definition providedOpt {A : Type} (param stored : option A) : option A :=
  match param with Some v => Some v | None => stored end.

(** ** enums/bet-status.enum.ts *)

Inductive BetStatus : Type :=
| PLACED
| PENDING_SETTLEMENT
| WON
| LOST
| CANCELLED
| REFUNDED
| SETTLEMENT_FAILED.

Definition BetStatus_eqb (a b : BetStatus) : bool :=
  match a, b with
  | PLACED, PLACED | PENDING_SETTLEMENT, PENDING_SETTLEMENT | WON, WON
  | LOST, LOST | CANCELLED, CANCELLED | REFUNDED, REFUNDED
  | SETTLEMENT_FAILED, SETTLEMENT_FAILED => true
  | _, _ => false
  end.

(** ** entities/bet.entity.ts *)

Module FairnessData.
Record t : Type := mk {
  decimal : option string;
  clientSeed : option string;
  serverSeed : option string;
  combinedHash : option string;
  hashedServerSeed : option string
}.
End FairnessData.

Module Bet.
(** A nullable column is an [option]; [id], [createdAt] and [updatedAt]
    are generated by the storage layer. *)
Record t : Type := mk {
  id : nat;
  externalPlatformTxId : string;
  userId : string;
  roundId : string;
  gameMetadata : option (list (string * Json));
  betAmount : string;
  winAmount : option string;
  currency : string;
  status : BetStatus;
  settlementRefTxId : option string;
  isPremium : bool;
  betPlacedAt : option Date;
  settledAt : option Date;
  gameCode : string;
  gameInfo : option string;
  balanceAfterBet : option string;
  balanceAfterSettlement : option string;
  createdAt : Date;
  updatedAt : Date;
  createdBy : option string;
  updatedBy : option string;
  operatorId : string;
  finalCoeff : option string;
  withdrawCoeff : option string;
  fairnessData : option FairnessData.t
}.

(** The [@UpdateDateColumn] stamp written when a loaded row is saved. *)
Definition touch (now : Date) (b : t) : t :=
  mk (id b) (externalPlatformTxId b) (userId b) (roundId b) (gameMetadata b)
     (betAmount b) (winAmount b) (currency b) (status b)
     (settlementRefTxId b) (isPremium b) (betPlacedAt b) (settledAt b)
     (gameCode b) (gameInfo b) (balanceAfterBet b) (balanceAfterSettlement b)
     (createdAt b) now (createdBy b) (updatedBy b) (operatorId b)
     (finalCoeff b) (withdrawCoeff b) (fairnessData b).
End Bet.

(** ** services/bet/bet.service.ts: parameter interfaces *)

Module CreateBetParams.
Record t : Type := mk {
  externalPlatformTxId : string;
  userId : string;
  roundId : string;
  betAmount : string;
  currency : string;
  gameCode : string;
  createdBy : string;
  operatorId : string;
  gameMetadata : option (list (string * Json));
  winAmount : option string;
  status : option BetStatus;
  settlementRefTxId : option string;
  isPremium : option bool;
  betPlacedAt : option Date;
  settledAt : option Date;
  gameInfo : option string;
  balanceAfterBet : option string;
  balanceAfterSettlement : option string;
  updatedBy : option string;
  finalCoeff : option string;
  withdrawCoeff : option string;
  fairnessData : option FairnessData.t
}.
End CreateBetParams.

Module SettlementParams.
Record t : Type := mk {
  externalPlatformTxId : string;
  winAmount : string;
  updatedBy : string;
  gameMetadata : option (list (string * Json));
  settlementRefTxId : option string;
  settledAt : option Date;
  balanceAfterSettlement : option string;
  gameInfo : option string;
  finalCoeff : option string;
  withdrawCoeff : option string;
  fairnessData : option FairnessData.t;
  status : option BetStatus;
  userId : option string;
  roundId : option string;
  betAmount : option string;
  currency : option string;
  gameCode : option string;
  isPremium : option bool;
  betPlacedAt : option Date;
  balanceAfterBet : option string;
  operatorId : option string
}.
End SettlementParams.

Module UpdateBetStatusParams.
Record t : Type := mk {
  externalPlatformTxId : string;
  status : BetStatus;
  updatedBy : string
}.
End UpdateBetStatusParams.

Module UpdateBetParams.
Record t : Type := mk {
  externalPlatformTxId : string;
  updatedBy : string;
  userId : option string;
  roundId : option string;
  gameMetadata : option (list (string * Json));
  betAmount : option string;
  winAmount : option string;
  currency : option string;
  status : option BetStatus;
  settlementRefTxId : option string;
  isPremium : option bool;
  betPlacedAt : option Date;
  settledAt : option Date;
  gameCode : option string;
  gameInfo : option string;
  balanceAfterBet : option string;
  balanceAfterSettlement : option string;
  operatorId : option string;
  finalCoeff : option string;
  withdrawCoeff : option string;
  fairnessData : option FairnessData.t
}.
End UpdateBetParams.

(** ** Exceptions and results *)

Inductive Exception : Type :=
| ConflictException (message : string)
| NotFoundException (message : string)
| QueryFailedError (message : string).

Inductive Result (E A : Type) : Type :=
| Ok (value : A)
| Err (e : E).
Arguments Ok {E A} value.
Arguments Err {E A} e.

(** ** The Bet repository

    [Repository<Bet>] over a table kept in insertion order.  [findOne]
    returns the first row satisfying the where-clause; it serves the
    lookups by [externalPlatformTxId], for which the unique index
    leaves one candidate.  [uniqueTxIndex]
    tells whether the storage layer enforces the unique index that the
    entity declares on [externalPlatformTxId]. *)

Record Store : Type := mkStore {
  rows : list Bet.t;
  nextId : nat
}.

Definition emptyStore : Store := mkStore [] 0.

Definition findOne (where_ : Bet.t -> bool) (s : Store) : option Bet.t :=
  find where_ (rows s).

(** [repo.save] of an entity loaded from the table: the row with its
    primary key is replaced. *)
Definition save (now : Date) (b : Bet.t) (s : Store) : Bet.t * Store :=
  let saved := Bet.touch now b in
  (saved,
   mkStore
     (map (fun r => if Bet.id r =? Bet.id b then saved else r) (rows s))
     (nextId s)).

(** [repo.save] of an entity made by [repo.create]: a row is appended
    under a fresh primary key. *)
Definition insert (uniqueTxIndex : bool) (mkRow : nat -> Bet.t) (s : Store)
  : Result Exception Bet.t * Store :=
  let row := mkRow (nextId s) in
  if uniqueTxIndex &&
     existsb
       (fun r => Bet.externalPlatformTxId r =? Bet.externalPlatformTxId row)%string
       (rows s)
  then (Err (QueryFailedError "Duplicate entry"), s)
  else (Ok row, mkStore (rows s ++ [row]) (S (nextId s))).

(** A query without an order clause returns the rows in an order of
    the database's choosing (the primary key is a generated uuid, so
    not even the insertion order is implied): [scan] is the order in
    which the database goes through the table for one such query, and
    may differ from one query to the next. *)
Definition arrangement (scan : list Bet.t -> list Bet.t) : Prop :=
  forall l, Permutation (scan l) l.

(** [repo.find({ where })] and [repo.findOne({ where })] without an
    order clause: the rows satisfying the where-clause as the database
    scans them, respectively the first of them.  With
    [order: { createdAt: 'DESC' }] the newest come first (rows of one
    [createdAt], whose order the database leaves open, stay in table
    order), and [take] keeps the first rows only.  [repo.delete]
    removes the rows satisfying the criteria and reports their number
    as [affected]. *)
Module Repo.

Definition findAny (scan : list Bet.t -> list Bet.t) (where_ : Bet.t -> bool)
    (s : Store) : option Bet.t :=
  List.find where_ (scan (rows s)).

Definition find (scan : list Bet.t -> list Bet.t) (where_ : Bet.t -> bool)
    (s : Store) : list Bet.t :=
  filter where_ (scan (rows s)).

Fixpoint insertNewestFirst (b : Bet.t) (l : list Bet.t) : list Bet.t :=
  match l with
  | [] => [b]
  | x :: rest =>
      if Bet.createdAt x <=? Bet.createdAt b then b :: l
      else x :: insertNewestFirst b rest
  end.

Definition newestFirst (l : list Bet.t) : list Bet.t :=
  fold_right insertNewestFirst [] l.

Definition findNewest (where_ : Bet.t -> bool) (take : nat) (s : Store)
  : list Bet.t :=
  firstn take (newestFirst (filter where_ (rows s))).

Definition delete (criteria : Bet.t -> bool) (s : Store) : nat * Store :=
  (length (filter criteria (rows s)),
   mkStore (filter (fun r => negb (criteria r)) (rows s)) (nextId s)).

End Repo.

(** ** services/bet/bet.service.ts: class BetService *)

Module BetService.

Module ERROR_MESSAGES.
Definition BET_EXISTS := "Bet already exists (idempotent placement)".
Definition BET_NOT_FOUND := "Bet not found".
Definition SETTLEMENT_NOT_FOUND := "Bet not found for settlement".
End ERROR_MESSAGES.

(** The injected collaborators: the optional [GameValidationService]
    ([validateGame] answers [Some message] when it throws
    [NotFoundException(message)]) and the table's index enforcement. *)
Record Deps : Type := mkDeps {
  gameValidationService : option (string -> option string);
  uniqueTxIndex : bool
}.

Definition whereByExternalTx (externalPlatformTxId : string)
    (gameCode : option string) : Bet.t -> bool :=
  fun b =>
    (Bet.externalPlatformTxId b =? externalPlatformTxId)%string &&
    match gameCode with
    | Some g =>
        if JS.truthy_string g then (Bet.gameCode b =? g)%string else true
    | None => true
    end.

Definition createPlacement (deps : Deps) (now : Date)
    (params : CreateBetParams.t) (s : Store) : Result Exception Bet.t * Store :=
  let validation :=
    match gameValidationService deps with
    | Some validateGame => validateGame (CreateBetParams.gameCode params)
    | None => None
    end in
  match validation with
  | Some message => (Err (NotFoundException message), s)
  | None =>
      match findOne
              (whereByExternalTx (CreateBetParams.externalPlatformTxId params)
                 (Some (CreateBetParams.gameCode params))) s with
      | Some _ => (Err (ConflictException ERROR_MESSAGES.BET_EXISTS), s)
      | None =>
          insert (uniqueTxIndex deps)
            (fun newId =>
               {| Bet.id := newId;
                  Bet.externalPlatformTxId :=
                    CreateBetParams.externalPlatformTxId params;
                  Bet.userId := CreateBetParams.userId params;
                  Bet.roundId := CreateBetParams.roundId params;
                  Bet.gameMetadata := CreateBetParams.gameMetadata params;
                  Bet.betAmount := CreateBetParams.betAmount params;
                  Bet.currency := CreateBetParams.currency params;
                  Bet.gameCode := CreateBetParams.gameCode params;
                  Bet.operatorId := CreateBetParams.operatorId params;
                  Bet.createdBy := Some (CreateBetParams.createdBy params);
                  Bet.updatedBy :=
                    Some (nullish (CreateBetParams.updatedBy params)
                            (CreateBetParams.createdBy params));
                  Bet.winAmount := CreateBetParams.winAmount params;
                  Bet.status := nullish (CreateBetParams.status params) PLACED;
                  Bet.settlementRefTxId :=
                    CreateBetParams.settlementRefTxId params;
                  Bet.isPremium :=
                    nullish (CreateBetParams.isPremium params) false;
                  Bet.betPlacedAt := CreateBetParams.betPlacedAt params;
                  Bet.settledAt := CreateBetParams.settledAt params;
                  Bet.gameInfo := CreateBetParams.gameInfo params;
                  Bet.balanceAfterBet := CreateBetParams.balanceAfterBet params;
                  Bet.balanceAfterSettlement :=
                    CreateBetParams.balanceAfterSettlement params;
                  Bet.finalCoeff := CreateBetParams.finalCoeff params;
                  Bet.withdrawCoeff := CreateBetParams.withdrawCoeff params;
                  Bet.fairnessData := CreateBetParams.fairnessData params;
                  Bet.createdAt := now;
                  Bet.updatedAt := now |})
            s
      end
  end.

(** [bet.status === WON || bet.status === LOST] *)
Definition alreadySettled (st : BetStatus) : bool :=
  BetStatus_eqb st WON || BetStatus_eqb st LOST.

(** The status written by a settlement: the caller's, or the one derived
    from the win amount just stored on the row. *)
Definition settlementStatus (explicit : option BetStatus) (winAmount : string)
  : BetStatus :=
  match explicit with
  | Some st => st
  | None =>
      if JS.truthy_string winAmount && JS.Number_gt0 winAmount
      then WON else LOST
  end.

Definition recordSettlement (now : Date) (params : SettlementParams.t)
    (s : Store) : Result Exception Bet.t * Store :=
  match findOne
          (whereByExternalTx (SettlementParams.externalPlatformTxId params)
             None) s with
  | None => (Err (NotFoundException ERROR_MESSAGES.SETTLEMENT_NOT_FOUND), s)
  | Some bet =>
      if alreadySettled (Bet.status bet) then (Ok bet, s)
      else
        let bet' :=
          {| Bet.id := Bet.id bet;
             Bet.externalPlatformTxId := Bet.externalPlatformTxId bet;
             Bet.winAmount := Some (SettlementParams.winAmount params);
             Bet.updatedBy := Some (SettlementParams.updatedBy params);
             Bet.gameMetadata :=
               providedOpt (SettlementParams.gameMetadata params)
                 (Bet.gameMetadata bet);
             Bet.settlementRefTxId :=
               providedOpt (SettlementParams.settlementRefTxId params)
                 (Bet.settlementRefTxId bet);
             Bet.settledAt :=
               match SettlementParams.settledAt params with
               | Some d => Some d
               | None => Some now
               end;
             Bet.balanceAfterSettlement :=
               providedOpt (SettlementParams.balanceAfterSettlement params)
                 (Bet.balanceAfterSettlement bet);
             Bet.gameInfo :=
               providedOpt (SettlementParams.gameInfo params)
                 (Bet.gameInfo bet);
             Bet.finalCoeff :=
               providedOpt (SettlementParams.finalCoeff params)
                 (Bet.finalCoeff bet);
             Bet.withdrawCoeff :=
               providedOpt (SettlementParams.withdrawCoeff params)
                 (Bet.withdrawCoeff bet);
             Bet.fairnessData :=
               providedOpt (SettlementParams.fairnessData params)
                 (Bet.fairnessData bet);
             Bet.userId :=
               provided (SettlementParams.userId params) (Bet.userId bet);
             Bet.roundId :=
               provided (SettlementParams.roundId params) (Bet.roundId bet);
             Bet.betAmount :=
               provided (SettlementParams.betAmount params)
                 (Bet.betAmount bet);
             Bet.currency :=
               provided (SettlementParams.currency params) (Bet.currency bet);
             Bet.gameCode :=
               provided (SettlementParams.gameCode params) (Bet.gameCode bet);
             Bet.isPremium :=
               provided (SettlementParams.isPremium params)
                 (Bet.isPremium bet);
             Bet.betPlacedAt :=
               providedOpt (SettlementParams.betPlacedAt params)
                 (Bet.betPlacedAt bet);
             Bet.balanceAfterBet :=
               providedOpt (SettlementParams.balanceAfterBet params)
                 (Bet.balanceAfterBet bet);
             Bet.operatorId :=
               provided (SettlementParams.operatorId params)
                 (Bet.operatorId bet);
             Bet.status :=
               settlementStatus (SettlementParams.status params)
                 (SettlementParams.winAmount params);
             Bet.createdAt := Bet.createdAt bet;
             Bet.updatedAt := Bet.updatedAt bet;
             Bet.createdBy := Bet.createdBy bet |} in
        let (settled, s') := save now bet' s in
        (Ok settled, s')
  end.

Definition updateStatus (now : Date) (params : UpdateBetStatusParams.t)
    (s : Store) : Result Exception Bet.t * Store :=
  match findOne
          (whereByExternalTx
             (UpdateBetStatusParams.externalPlatformTxId params) None) s with
  | None => (Err (NotFoundException ERROR_MESSAGES.BET_NOT_FOUND), s)
  | Some bet =>
      let bet' :=
        {| Bet.id := Bet.id bet;
           Bet.externalPlatformTxId := Bet.externalPlatformTxId bet;
           Bet.userId := Bet.userId bet;
           Bet.roundId := Bet.roundId bet;
           Bet.gameMetadata := Bet.gameMetadata bet;
           Bet.betAmount := Bet.betAmount bet;
           Bet.winAmount := Bet.winAmount bet;
           Bet.currency := Bet.currency bet;
           Bet.status := UpdateBetStatusParams.status params;
           Bet.settlementRefTxId := Bet.settlementRefTxId bet;
           Bet.isPremium := Bet.isPremium bet;
           Bet.betPlacedAt := Bet.betPlacedAt bet;
           Bet.settledAt := Bet.settledAt bet;
           Bet.gameCode := Bet.gameCode bet;
           Bet.gameInfo := Bet.gameInfo bet;
           Bet.balanceAfterBet := Bet.balanceAfterBet bet;
           Bet.balanceAfterSettlement := Bet.balanceAfterSettlement bet;
           Bet.createdAt := Bet.createdAt bet;
           Bet.updatedAt := Bet.updatedAt bet;
           Bet.createdBy := Bet.createdBy bet;
           Bet.updatedBy := Some (UpdateBetStatusParams.updatedBy params);
           Bet.operatorId := Bet.operatorId bet;
           Bet.finalCoeff := Bet.finalCoeff bet;
           Bet.withdrawCoeff := Bet.withdrawCoeff bet;
           Bet.fairnessData := Bet.fairnessData bet |} in
      let (saved, s') := save now bet' s in
      (Ok saved, s')
  end.

Definition updateBet (now : Date) (params : UpdateBetParams.t) (s : Store)
  : Result Exception Bet.t * Store :=
  match findOne
          (whereByExternalTx (UpdateBetParams.externalPlatformTxId params)
             None) s with
  | None => (Err (NotFoundException ERROR_MESSAGES.BET_NOT_FOUND), s)
  | Some bet =>
      let bet' :=
        {| Bet.id := Bet.id bet;
           Bet.externalPlatformTxId := Bet.externalPlatformTxId bet;
           Bet.updatedBy := Some (UpdateBetParams.updatedBy params);
           Bet.userId :=
             provided (UpdateBetParams.userId params) (Bet.userId bet);
           Bet.roundId :=
             provided (UpdateBetParams.roundId params) (Bet.roundId bet);
           Bet.gameMetadata :=
             providedOpt (UpdateBetParams.gameMetadata params)
               (Bet.gameMetadata bet);
           Bet.betAmount :=
             provided (UpdateBetParams.betAmount params) (Bet.betAmount bet);
           Bet.winAmount :=
             providedOpt (UpdateBetParams.winAmount params)
               (Bet.winAmount bet);
           Bet.currency :=
             provided (UpdateBetParams.currency params) (Bet.currency bet);
           Bet.status :=
             provided (UpdateBetParams.status params) (Bet.status bet);
           Bet.settlementRefTxId :=
             providedOpt (UpdateBetParams.settlementRefTxId params)
               (Bet.settlementRefTxId bet);
           Bet.isPremium :=
             provided (UpdateBetParams.isPremium params) (Bet.isPremium bet);
           Bet.betPlacedAt :=
             providedOpt (UpdateBetParams.betPlacedAt params)
               (Bet.betPlacedAt bet);
           Bet.settledAt :=
             providedOpt (UpdateBetParams.settledAt params)
               (Bet.settledAt bet);
           Bet.gameCode :=
             provided (UpdateBetParams.gameCode params) (Bet.gameCode bet);
           Bet.gameInfo :=
             providedOpt (UpdateBetParams.gameInfo params) (Bet.gameInfo bet);
           Bet.balanceAfterBet :=
             providedOpt (UpdateBetParams.balanceAfterBet params)
               (Bet.balanceAfterBet bet);
           Bet.balanceAfterSettlement :=
             providedOpt (UpdateBetParams.balanceAfterSettlement params)
               (Bet.balanceAfterSettlement bet);
           Bet.operatorId :=
             provided (UpdateBetParams.operatorId params)
               (Bet.operatorId bet);
           Bet.finalCoeff :=
             providedOpt (UpdateBetParams.finalCoeff params)
               (Bet.finalCoeff bet);
           Bet.withdrawCoeff :=
             providedOpt (UpdateBetParams.withdrawCoeff params)
               (Bet.withdrawCoeff bet);
           Bet.fairnessData :=
             providedOpt (UpdateBetParams.fairnessData params)
               (Bet.fairnessData bet);
           Bet.createdAt := Bet.createdAt bet;
           Bet.updatedAt := Bet.updatedAt bet;
           Bet.createdBy := Bet.createdBy bet |} in
      let (updated, s') := save now bet' s in
      (Ok updated, s')
  end.

Definition markPendingSettlement (now : Date)
    (externalPlatformTxId updatedBy : string) (s : Store)
  : Result Exception Bet.t * Store :=
  updateStatus now
    (UpdateBetStatusParams.mk externalPlatformTxId PENDING_SETTLEMENT
       updatedBy) s.

Definition markSettlementFailed (now : Date)
    (externalPlatformTxId updatedBy : string) (s : Store)
  : Result Exception Bet.t * Store :=
  updateStatus now
    (UpdateBetStatusParams.mk externalPlatformTxId SETTLEMENT_FAILED
       updatedBy) s.

Definition getByExternalTxId (externalPlatformTxId : string)
    (gameCode : option string) (s : Store) : option Bet.t :=
  findOne (whereByExternalTx externalPlatformTxId gameCode) s.

(** [where: { gameCode, roundId }] *)
Definition whereRound (gameCode roundId : string) : Bet.t -> bool :=
  fun b =>
    (Bet.gameCode b =? gameCode)%string && (Bet.roundId b =? roundId)%string.

(** A round may hold several bets; the query names no order, so which
    of them is returned is up to the database's [scan]. *)
Definition findBetByRoundId (scan : list Bet.t -> list Bet.t)
    (gameCode roundId : string) (s : Store) : option Bet.t :=
  Repo.findAny scan (whereRound gameCode roundId) s.

Definition findBetByPlatformTxId (gameCode externalPlatformTxId : string)
    (s : Store) : option Bet.t :=
  findOne
    (fun b =>
       (Bet.gameCode b =? gameCode)%string &&
       (Bet.externalPlatformTxId b =? externalPlatformTxId)%string) s.

(** [{ userId }], narrowed to a game when [gameCode] is truthy. *)
Definition whereUser (userId : string) (gameCode : option string)
  : Bet.t -> bool :=
  fun b =>
    (Bet.userId b =? userId)%string &&
    match gameCode with
    | Some g =>
        if JS.truthy_string g then (Bet.gameCode b =? g)%string else true
    | None => true
    end.

(** [limit: number = 100]: a positive count of rows, [None] being an
    omitted argument (what the repository does with [take: 0] is the
    library's business and is not modelled). *)
Definition rowLimit (limit : option positive) : nat :=
  Pos.to_nat (nullish limit 100%positive).

Definition listUserBets (userId : string) (gameCode : option string)
    (limit : option positive) (s : Store) : list Bet.t :=
  Repo.findNewest (whereUser userId gameCode) (rowLimit limit) s.

(** [createdAt: Between(startTime, endTime)], both ends included. *)
Definition listUserBetsByTimeRange (userId : string)
    (startTime endTime : Date) (gameCode : option string)
    (limit : option positive) (s : Store) : list Bet.t :=
  Repo.findNewest
    (fun b =>
       whereUser userId gameCode b &&
       ((startTime <=? Bet.createdAt b) && (Bet.createdAt b <=? endTime)))
    (rowLimit limit) s.

(** The bets of the round, in the order of the database's [scan]. *)
Definition listByRound (scan : list Bet.t -> list Bet.t)
    (gameCode roundId : string) (s : Store) : list Bet.t :=
  Repo.find scan (whereRound gameCode roundId) s.

(** [result.affected || 0] is the number reported. *)
Definition deletePlacedBets (s : Store) : nat * Store :=
  Repo.delete (fun b => BetStatus_eqb (Bet.status b) PLACED) s.

(** [olderThanMs] is a whole number of milliseconds; the threshold
    [Date.now() - olderThanMs] may lie before the epoch.  A comparison
    with a NULL [betPlacedAt] is not true. *)
Definition findOldPlacedBets (now : Date) (olderThanMs : Z) (s : Store)
  : list Bet.t :=
  let threshold := (Z.of_nat now - olderThanMs)%Z in
  filter
    (fun b =>
       BetStatus_eqb (Bet.status b) PLACED &&
       (match Bet.betPlacedAt b with
        | Some placedAt => (Z.of_nat placedAt <? threshold)%Z
        | None => false
        end
        || match Bet.betPlacedAt b with
           | Some _ => false
           | None => (Z.of_nat (Bet.createdAt b) <? threshold)%Z
           end))
    (rows s).

Definition deleteBetsBeforeDate (beforeDate : Date) (s : Store)
  : nat * Store :=
  Repo.delete (fun b => Bet.createdAt b <? beforeDate) s.

End BetService.

(** ** The second [BetService] class carried by bet.service.ts

    The file holds a second declaration of the class (after the first
    separator line), with a narrower [SettlementParams] and its own
    [recordSettlement].  Its other methods coincide with the first
    declaration's. *)

Module SettlementParamsAlt.
Record t : Type := mk {
  externalPlatformTxId : string;
  winAmount : string;
  settleType : option string;
  settlementRefTxId : option string;
  settledAt : option Date;
  balanceAfterSettlement : option string;
  gameInfo : option string;
  updatedBy : string;
  finalCoeff : option string;
  withdrawCoeff : option string;
  fairnessData : option FairnessData.t;
  gameMetadata : option (list (string * Json))
}.
End SettlementParamsAlt.

Module BetServiceAlt.

(** The assignments [bet.f = params.f] are unconditional here: an omitted
    ([undefined]) parameter leaves the property of the entity without a
    value, and that entity is what the call returns.  [repo.save] skips
    the properties that are [undefined] on the entity it is given, so
    the row in the table keeps its stored value for each of them:
    [persisted] is the row as the table holds it after the call. *)
Definition recordSettlement (now : Date) (params : SettlementParamsAlt.t)
    (s : Store) : Result Exception Bet.t * Store :=
  match findOne
          (BetService.whereByExternalTx
             (SettlementParamsAlt.externalPlatformTxId params) None) s with
  | None =>
      (Err (NotFoundException BetService.ERROR_MESSAGES.SETTLEMENT_NOT_FOUND),
       s)
  | Some bet =>
      if BetService.alreadySettled (Bet.status bet) then (Ok bet, s)
      else
        let bet' :=
          {| Bet.id := Bet.id bet;
             Bet.externalPlatformTxId := Bet.externalPlatformTxId bet;
             Bet.userId := Bet.userId bet;
             Bet.roundId := Bet.roundId bet;
             Bet.betAmount := Bet.betAmount bet;
             Bet.currency := Bet.currency bet;
             Bet.isPremium := Bet.isPremium bet;
             Bet.betPlacedAt := Bet.betPlacedAt bet;
             Bet.gameCode := Bet.gameCode bet;
             Bet.balanceAfterBet := Bet.balanceAfterBet bet;
             Bet.operatorId := Bet.operatorId bet;
             Bet.createdAt := Bet.createdAt bet;
             Bet.updatedAt := Bet.updatedAt bet;
             Bet.createdBy := Bet.createdBy bet;
             Bet.winAmount := Some (SettlementParamsAlt.winAmount params);
             Bet.settlementRefTxId :=
               SettlementParamsAlt.settlementRefTxId params;
             Bet.settledAt :=
               Some (nullish (SettlementParamsAlt.settledAt params) now);
             Bet.balanceAfterSettlement :=
               SettlementParamsAlt.balanceAfterSettlement params;
             Bet.gameInfo := SettlementParamsAlt.gameInfo params;
             Bet.finalCoeff := SettlementParamsAlt.finalCoeff params;
             Bet.withdrawCoeff := SettlementParamsAlt.withdrawCoeff params;
             Bet.fairnessData := SettlementParamsAlt.fairnessData params;
             Bet.gameMetadata :=
               providedOpt (SettlementParamsAlt.gameMetadata params)
                 (Bet.gameMetadata bet);
             Bet.status :=
               BetService.settlementStatus None
                 (SettlementParamsAlt.winAmount params);
             Bet.updatedBy := Some (SettlementParamsAlt.updatedBy params) |} in
        let persisted :=
          {| Bet.id := Bet.id bet';
             Bet.externalPlatformTxId := Bet.externalPlatformTxId bet';
             Bet.userId := Bet.userId bet';
             Bet.roundId := Bet.roundId bet';
             Bet.gameMetadata := Bet.gameMetadata bet';
             Bet.betAmount := Bet.betAmount bet';
             Bet.winAmount := Bet.winAmount bet';
             Bet.currency := Bet.currency bet';
             Bet.status := Bet.status bet';
             Bet.settlementRefTxId :=
               providedOpt (Bet.settlementRefTxId bet')
                 (Bet.settlementRefTxId bet);
             Bet.isPremium := Bet.isPremium bet';
             Bet.betPlacedAt := Bet.betPlacedAt bet';
             Bet.settledAt := Bet.settledAt bet';
             Bet.gameCode := Bet.gameCode bet';
             Bet.gameInfo :=
               providedOpt (Bet.gameInfo bet') (Bet.gameInfo bet);
             Bet.balanceAfterBet := Bet.balanceAfterBet bet';
             Bet.balanceAfterSettlement :=
               providedOpt (Bet.balanceAfterSettlement bet')
                 (Bet.balanceAfterSettlement bet);
             Bet.createdAt := Bet.createdAt bet';
             Bet.updatedAt := Bet.updatedAt bet';
             Bet.createdBy := Bet.createdBy bet';
             Bet.updatedBy := Bet.updatedBy bet';
             Bet.operatorId := Bet.operatorId bet';
             Bet.finalCoeff :=
               providedOpt (Bet.finalCoeff bet') (Bet.finalCoeff bet);
             Bet.withdrawCoeff :=
               providedOpt (Bet.withdrawCoeff bet') (Bet.withdrawCoeff bet);
             Bet.fairnessData :=
               providedOpt (Bet.fairnessData bet') (Bet.fairnessData bet) |} in
        let (_, s') := save now persisted s in
        (Ok (Bet.touch now bet'), s')
  end.

End BetServiceAlt.

(** ** Sequences of ledger operations *)

Inductive LedgerOp : Type :=
| OpCreatePlacement (params : CreateBetParams.t)
| OpRecordSettlement (params : SettlementParams.t)
| OpUpdateStatus (params : UpdateBetStatusParams.t)
| OpMarkPendingSettlement (externalPlatformTxId updatedBy : string)
| OpMarkSettlementFailed (externalPlatformTxId updatedBy : string)
| OpUpdateBet (params : UpdateBetParams.t).

(** One call at clock reading [now]; a call that throws leaves the table
    as the method left it. *)
Definition step (deps : BetService.Deps) (call : Date * LedgerOp) (s : Store)
  : Store :=
  let (now, op) := call in
  snd match op with
      | OpCreatePlacement p => BetService.createPlacement deps now p s
      | OpRecordSettlement p => BetService.recordSettlement now p s
      | OpUpdateStatus p => BetService.updateStatus now p s
      | OpMarkPendingSettlement tx by_ =>
          BetService.markPendingSettlement now tx by_ s
      | OpMarkSettlementFailed tx by_ =>
          BetService.markSettlementFailed now tx by_ s
      | OpUpdateBet p => BetService.updateBet now p s
      end.

Definition run (deps : BetService.Deps) (calls : list (Date * LedgerOp))
    (s : Store) : Store :=
  fold_left (fun acc call => step deps call acc) calls s.

(** Tables that arise from the empty one through the service. *)
Definition reachable (deps : BetService.Deps) (s : Store) : Prop :=
  exists calls, s = run deps calls emptyStore.

(** The operations that leave the choice of status to the service:
    recordSettlement and updateBet called without [status].
    (updateStatus takes a status from its caller, and
    markPendingSettlement and markSettlementFailed hand it one of their
    own.) *)
Definition statusNotSupplied (op : LedgerOp) : bool :=
  match op with
  | OpCreatePlacement _ => false
  | OpRecordSettlement p =>
      match SettlementParams.status p with None => true | Some _ => false end
  | OpUpdateStatus _ => false
  | OpMarkPendingSettlement _ _ => false
  | OpMarkSettlementFailed _ _ => false
  | OpUpdateBet p =>
      match UpdateBetParams.status p with None => true | Some _ => false end
  end.

Definition isSettlement (op : LedgerOp) : bool :=
  match op with OpRecordSettlement _ => true | _ => false end.

(** Rows matching a placement key. *)
Definition placementKey (externalPlatformTxId gameCode : string) (b : Bet.t)
  : bool :=
  (Bet.externalPlatformTxId b =? externalPlatformTxId)%string &&
  (Bet.gameCode b =? gameCode)%string.

Definition validatorAccepts (deps : BetService.Deps) (gameCode : string)
  : Prop :=
  match BetService.gameValidationService deps with
  | Some validateGame => validateGame gameCode = None
  | None => True
  end.

(** Primary keys are distinct and below the next one handed out. *)
Definition wellKeyed (s : Store) : Prop :=
  NoDup (map Bet.id (rows s)) /\
  Forall (fun r => Bet.id r < nextId s) (rows s).

(** How a row may change under a call: settlement leaves a Won or Lost
    row as it is. *)
Definition settledRowKept (b b' : Bet.t) : Prop :=
  Bet.id b' = Bet.id b /\
  (BetService.alreadySettled (Bet.status b) = true -> b' = b).

(** How a row may change under a call: its status is the one it had,
    or it is Won or Lost and was neither before. *)
Definition statusKeptOrSettled (b b' : Bet.t) : Prop :=
  Bet.id b' = Bet.id b /\
  (Bet.status b' = Bet.status b \/
   ((Bet.status b' = WON \/ Bet.status b' = LOST) /\
    Bet.status b <> WON /\ Bet.status b <> LOST)).

(** The statuses of the rows, in table order. *)
Definition statuses (s : Store) : list BetStatus := map Bet.status (rows s).

(** The transaction id that a call names. *)
Definition txOf (op : LedgerOp) : string :=
  match op with
  | OpCreatePlacement p => CreateBetParams.externalPlatformTxId p
  | OpRecordSettlement p => SettlementParams.externalPlatformTxId p
  | OpUpdateStatus p => UpdateBetStatusParams.externalPlatformTxId p
  | OpMarkPendingSettlement tx _ => tx
  | OpMarkSettlementFailed tx _ => tx
  | OpUpdateBet p => UpdateBetParams.externalPlatformTxId p
  end.

Definition isPlacement (op : LedgerOp) : bool :=
  match op with OpCreatePlacement _ => true | _ => false end.

(** The calls that place a bet or update the bet of transaction [tx]. *)
Definition placesOrUpdates (tx : string) (op : LedgerOp) : bool :=
  isPlacement op || (txOf op =? tx)%string.

(** The columns that identify a bet and record its creation. *)
Definition sameIdentity (b b' : Bet.t) : Prop :=
  Bet.id b' = Bet.id b /\
  Bet.externalPlatformTxId b' = Bet.externalPlatformTxId b /\
  Bet.createdAt b' = Bet.createdAt b /\
  Bet.createdBy b' = Bet.createdBy b.

(** How a row may change under calls that update no transaction but
    [tx]: a row of another transaction stays as it is. *)
Definition otherTransactionKept (tx : string) (b b' : Bet.t) : Prop :=
  Bet.id b' = Bet.id b /\
  Bet.externalPlatformTxId b' = Bet.externalPlatformTxId b /\
  (Bet.externalPlatformTxId b <> tx -> b' = b).

(** [after] holds the rows of [before], in their order and related row
    by row, followed by rows added since. *)
Definition keptThenAdded (R : Bet.t -> Bet.t -> Prop)
    (before after : list Bet.t) : Prop :=
  exists kept added, after = kept ++ added /\ Forall2 R before kept.

(** No two rows carry one transaction id. *)
Definition txDistinct (s : Store) : Prop :=
  NoDup (map Bet.externalPlatformTxId (rows s)).

(** Newest first: [b] was not created after [a]. *)
Definition notOlder (a b : Bet.t) : Prop := Bet.createdAt b <= Bet.createdAt a.

(** The time a bet counts as placed when its age is asked:
    [betPlacedAt], or [createdAt] for a bet without one. *)
Definition placedSince (b : Bet.t) : Date :=
  nullish (Bet.betPlacedAt b) (Bet.createdAt b).

(** A win amount as the decimal column writes it: the digits before
    the point, the point, the digits after it. *)
Definition decimalAmount (whole fraction : list ascii) : string :=
  string_of_list_ascii (whole ++ "."%char :: fraction).

(** The value of a run of decimal digits read after [acc]. *)
Definition digitsValue (ds : list ascii) (acc : N) : N :=
  fold_left (fun a c => (a * 10 + JS.digit_val c)%N) ds acc.

(** The characters of a signed decimal amount. *)
Definition plainChar (c : ascii) : Prop :=
  JS.is_digit c = true \/ c = "."%char \/ c = "-"%char.

(** ** services/wallet/wallet.service.ts: values and interfaces

    A JavaScript [number] (an amount, a balance) is kept abstract: the
    gateway only adds amounts, converts with [Number()] and tests
    truthiness, and those operations are supplied by the [Runtime]. *)

Inductive Value (number : Type) : Type :=
| VUndefined
| VNull
| VBool (b : bool)
| VNumber (n : number)
| VString (s : string)
| VArray (items : list (Value number))
| VObject (fields : list (string * Value number)).
Arguments VUndefined {number}.
Arguments VNull {number}.
Arguments VBool {number} b.
Arguments VNumber {number} n.
Arguments VString {number} s.
Arguments VArray {number} items.
Arguments VObject {number} fields.

(** Modelled from the spec: [WalletApiAction] of enums/wallet.enums.ts,
    a file that is not among the sources.  The members are the
    [apiAction] values of an AuditRecord,
    GetBalance | PlaceBet | SettleBet | RefundBet, under the names the
    gateway uses for them. *)
Inductive WalletApiAction : Type :=
| GET_BALANCE
| PLACE_BET
| SETTLE_BET
| REFUND_BET.

(** Modelled from the spec: [WalletErrorType] of enums/wallet.enums.ts,
    a file that is not among the sources.  The members are the failure
    kinds that the gateway assigns, AgentRejected and the transport
    kinds NetworkError, TimeoutError, HttpError and UnknownError, under
    the names the gateway uses for them. *)
Inductive WalletErrorType : Type :=
| UNKNOWN_ERROR
| HTTP_ERROR
| NETWORK_ERROR
| TIMEOUT_ERROR
| AGENT_REJECTED.

(** Modelled from the spec: [WalletAuditStatus] of
    entities/wallet-audit.entity.ts, a file that is not among the
    sources.  An AuditRecord's [status] is Success | Failure. *)
Inductive WalletAuditStatus : Type :=
| SUCCESS
| FAILURE.

(** The transport kinds of the error taxonomy. *)
Definition isTransportKind (k : WalletErrorType) : bool :=
  match k with
  | UNKNOWN_ERROR | HTTP_ERROR | NETWORK_ERROR | TIMEOUT_ERROR => true
  | AGENT_REJECTED => false
  end.

(** The [response] property of a thrown object: axios' response of a
    non-2xx reply; a Nest [HttpException] also has a [response]
    property, its body object, which has neither [status] nor [data]. *)
Module ErrorResponse.
Record t (number : Type) : Type := mk {
  status : option nat;
  data : Value number
}.
End ErrorResponse.

(** A thrown object, with the properties that the gateway reads. *)
Module JsError.
Record t (number : Type) : Type := mk {
  name : string;
  message : string;
  code : option string;
  response : option (ErrorResponse.t number)
}.
End JsError.

(** The exceptions of @nestjs/common that the gateway throws.  The
    constructor of [HttpException] declares its first parameter as the
    property [response] (the body object built from the message), so a
    caught Nest exception answers [err.response] with an object; that
    object has the keys [statusCode], [message] and [error], hence no
    [status] and no [data].  [name] is the class name and [message] the
    message given. *)
Module Nest.
Definition HttpException (number : Type) (name message : string)
  : JsError.t number :=
  JsError.mk name message None (Some (ErrorResponse.mk None VUndefined)).

Definition NotFoundException (number : Type) (message : string)
  : JsError.t number :=
  HttpException number "NotFoundException" message.

Definition InternalServerErrorException (number : Type) (message : string)
  : JsError.t number :=
  HttpException number "InternalServerErrorException" message.
End Nest.

Module HttpResponse.
Record t (number : Type) : Type := mk {
  status : nat;
  data : Value number
}.
End HttpResponse.

Module WalletResponse.
Record t (number : Type) : Type := mk {
  balance : number;
  balanceTs : Value number;
  status : string;
  userId : Value number;
  raw : Value number
}.
End WalletResponse.

Module PlaceBetParams.
Record t (number : Type) : Type := mk {
  agentId : string;
  userId : string;
  amount : number;
  roundId : string;
  platformTxId : string;
  currency : option string;
  gameCode : string
}.
End PlaceBetParams.

Module SettleBetParams.
Record t (number : Type) : Type := mk {
  agentId : string;
  platformTxId : string;
  userId : string;
  winAmount : number;
  roundId : string;
  betAmount : number;
  gameCode : string;
  gameSession : option (Value number)
}.
End SettleBetParams.

Module RefundTransaction.
Record t (number : Type) : Type := mk {
  platformTxId : string;
  refundPlatformTxId : string;
  betAmount : number;
  winAmount : number;
  turnover : option number;
  betTime : string;
  updateTime : string;
  roundId : string;
  gameCode : string;
  gameInfo : option (Value number)
}.
End RefundTransaction.

Module RefundBetParams.
Record t (number : Type) : Type := mk {
  agentId : string;
  userId : string;
  refundTransactions : list (RefundTransaction.t number)
}.
End RefundBetParams.

(** The argument of [WalletAuditService.logAudit] (the [errorStack]
    text of the engine is not represented). *)
Module AuditParams.
Record t (number : Type) : Type := mk {
  requestId : string;
  agentId : string;
  userId : string;
  apiAction : WalletApiAction;
  status : WalletAuditStatus;
  requestPayload : option (Value number);
  requestUrl : option string;
  responseData : Value number;
  httpStatus : option nat;
  responseTime : Z;
  failureType : option WalletErrorType;
  errorMessage : option string;
  platformTxId : option string;
  roundId : option string;
  betAmount : option number;
  winAmount : option number;
  currency : option (Value number);
  callbackUrl : option string;
  rawError : option string
}.
End AuditParams.

(** The argument of [WalletRetryService.createRetryJob]. *)
Module RetryParams.
Record t (number : Type) : Type := mk {
  platformTxId : string;
  apiAction : WalletApiAction;
  agentId : string;
  userId : string;
  requestPayload : Value number;
  callbackUrl : string;
  roundId : option string;
  betAmount : option number;
  winAmount : option number;
  currency : option (Value number);
  gamePayloads : list (string * Value number);
  walletAuditId : option nat;
  errorMessage : option string
}.
End RetryParams.

Module Agent.
Record t : Type := mk {
  agentId : string;
  cert : string;
  callbackURL : string
}.
End Agent.

(** The body posted to the agent: [{ key, message }], [message] being
    the serialised action payload. *)
Module Envelope.
Record t : Type := mk {
  key : string;
  message : string
}.
End Envelope.

(** What the gateway does to its collaborators, in the order of the
    effects: a request sent, an audit record stored under an id, a retry
    job stored. *)
Inductive Event (number : Type) : Type :=
| EPost (url : string) (payload : Envelope.t)
| EAudit (id : nat) (record : AuditParams.t number)
| ERetry (job : RetryParams.t number).
Arguments EPost {number} url payload.
Arguments EAudit {number} id record.
Arguments ERetry {number} job.

Definition Trace (number : Type) : Type := list (Event number).

(** Modelled from the spec: how a call of
    [WalletAuditService.logAudit] ends, for the gateway;
    services/wallet-audit/wallet-audit.service.ts is not among the
    sources.  [AuditLog.append(record) -> recordId] appends one record
    and answers it with its id ([AuditStored]); the gateway also
    provides for a promise that resolves without a record
    ([AuditResolvedEmpty]) and for one that rejects ([AuditRejected]),
    and neither stores anything. *)
Inductive AuditOutcome : Type :=
| AuditStored
| AuditResolvedEmpty
| AuditRejected.

(** Modelled from the spec: the collaborators of one call;
    AgentsService, WalletAuditService and WalletRetryService are not
    among the sources.
    [AgentDirectory.resolve(agentId)] answers the agent or nothing;
    [AuditLog.append] and [RetryQueue.enqueue (job) -> jobId] store a row
    or fail ([retryJobService] answers [false]); [httpPost] is the reply
    of the agent's endpoint, or the error the HTTP client throws;
    [walletApiAdapter] is the optional GameMetadataProvider, answering
    [None] when [getGamePayloads] throws. *)
Module Env.
Record t (number : Type) : Type := mk {
  agentsService : string -> option Agent.t;
  httpPost : string -> Envelope.t ->
             Result (JsError.t number) (HttpResponse.t number);
  walletApiAdapter :
    option (string -> option (list (string * Value number)));
  walletAuditService : AuditParams.t number -> AuditOutcome;
  retryJobService : RetryParams.t number -> bool
}.
End Env.

(** Clock readings of one call: [new Date().toISOString()] when the
    transaction is built, and [Date.now()] before the request, after the
    reply arrived, and on entry to the catch block. *)
Module Clock.
Record t : Type := mk {
  isoNow : string;
  requestStartTime : Z;
  respondedAt : Z;
  caughtAt : Z
}.
End Clock.

(** The built-ins whose result depends on the representation of numbers. *)
Module Runtime.
Record t : Type := mk {
  number : Type;
  zero : number;
  add : number -> number -> number;
  truthyNumber : number -> bool;
  toNumber : Value number -> number;
  JSON_stringify : Value number -> string;
  stringifyError : JsError.t number -> string
}.
End Runtime.

(** ** services/wallet/wallet.service.ts: class WalletService *)

Section Gateway.

Variable rt : Runtime.t.

Abbreviation number := (Runtime.number rt).
Abbreviation value := (Value (Runtime.number rt)).
Abbreviation JsObject := (list (string * Value (Runtime.number rt))).
Abbreviation Thrown := (JsError.t (Runtime.number rt)).
Abbreviation Log := (Trace (Runtime.number rt)).

(** ToBoolean *)
Definition truthy (v : value) : bool :=
  match v with
  | VUndefined | VNull => false
  | VBool b => b
  | VNumber n => Runtime.truthyNumber rt n
  | VString s => JS.truthy_string s
  | VArray _ | VObject _ => true
  end.

(** [a || b] *)
Definition orElse (a b : value) : value := if truthy a then a else b.

(** [a ?? b] *)
Definition coalesce (a b : value) : value :=
  match a with VUndefined | VNull => b | _ => a end.

(** [o.k] on an object. *)
Definition getProp (k : string) (o : JsObject) : value :=
  match find (fun kv => (fst kv =? k)%string) o with
  | Some kv => snd kv
  | None => VUndefined
  end.

(** Defining property [k]: an existing key keeps its place. *)
Fixpoint setProp (k : string) (v : value) (o : JsObject) : JsObject :=
  match o with
  | [] => [(k, v)]
  | (k', v') :: rest =>
      if (k' =? k)%string then (k, v) :: rest
      else (k', v') :: setProp k v rest
  end.

(** An object literal, its properties (spread ones included) defined
    from left to right. *)
Definition objectLiteral (props : JsObject) : JsObject :=
  fold_left (fun o kv => setProp (fst kv) (snd kv) o) props [].

(** [typeof v === 'string' ? v : JSON.stringify(v)] *)
Definition asText (v : value) : string :=
  match v with
  | VString s => s
  | _ => Runtime.JSON_stringify rt v
  end.

Definition optString (o : option string) : value :=
  match o with Some s => VString s | None => VUndefined end.

(** [refundTransactions.reduce((sum, txn) => sum + f(txn), 0)] *)
Definition total (f : RefundTransaction.t number -> number)
    (txns : list (RefundTransaction.t number)) : number :=
  fold_left (fun sum txn => Runtime.add rt sum (f txn)) txns (Runtime.zero rt).

Definition resolveAgent (env : Env.t number) (agentId : string)
  : Result Thrown Agent.t :=
  match Env.agentsService env agentId with
  | None =>
      Err (Nest.NotFoundException number
             ("Agent '" ++ agentId ++ "' not found")%string)
  | Some agent => Ok agent
  end.

(** Only an object can be truthy and carry a string [status]. *)
Definition mapAgentResponse (data : value)
  : Result Thrown (WalletResponse.t number) :=
  match data with
  | VObject fields =>
      match getProp "status" fields with
      | VString st =>
          Ok {| WalletResponse.balance :=
                  Runtime.toNumber rt
                    (coalesce (getProp "balance" fields)
                       (VNumber (Runtime.zero rt)));
                WalletResponse.balanceTs :=
                  coalesce (getProp "balanceTs" fields) VNull;
                WalletResponse.status := st;
                WalletResponse.userId :=
                  coalesce (getProp "userId" fields) VNull;
                WalletResponse.raw := data |}
      | _ =>
          Err (Nest.InternalServerErrorException number
                 "Malformed agent response")
      end
  | _ =>
      Err (Nest.InternalServerErrorException number
             "Malformed agent response")
  end.

(** Ids handed out by the audit log: the number of records it holds. *)
Definition auditCount (w : Log) : nat :=
  length (filter (fun e => match e with EAudit _ _ => true | _ => false end) w).

(** [this.logAudit]: fire and forget, every failure swallowed. *)
Definition logAudit (env : Env.t number) (params : AuditParams.t number)
    (w : Log) : Log :=
  match Env.walletAuditService env params with
  | AuditStored => w ++ [EAudit (auditCount w) params]
  | AuditResolvedEmpty | AuditRejected => w
  end.

Definition createRetryJobSafely (env : Env.t number)
    (params : RetryParams.t number) (w : Log) : Log :=
  if Env.retryJobService env params then w ++ [ERetry params] else w.

(** [walletAuditService.logAudit(params).then(auditRecord => ...)
    .catch(...)]: the continuation gets [auditRecord?.id] and may create
    a retry job; it does not run when the audit promise rejects. *)
Definition logAuditThen (env : Env.t number) (params : AuditParams.t number)
    (continuation : option nat -> option (RetryParams.t number)) (w : Log)
  : Log :=
  let andThen (auditId : option nat) (w1 : Log) : Log :=
    match continuation auditId with
    | Some job => createRetryJobSafely env job w1
    | None => w1
    end in
  match Env.walletAuditService env params with
  | AuditStored =>
      let id := auditCount w in
      andThen (Some id) (w ++ [EAudit id params])
  | AuditResolvedEmpty => andThen None w
  | AuditRejected => w
  end.

(** [firstValueFrom(this.http.post(url, payload))] *)
Definition post (env : Env.t number) (url : string) (payload : Envelope.t)
    (w : Log) : Result Thrown (HttpResponse.t number) * Log :=
  (Env.httpPost env url payload, w ++ [EPost url payload]).

(** "Determine error type" of every catch block: the kind, the HTTP
    status and the response data. *)
Definition classifyError (err : Thrown)
  : WalletErrorType * option nat * value :=
  match JsError.response err with
  | Some r => (HTTP_ERROR, ErrorResponse.status r, ErrorResponse.data r)
  | None =>
      let code := JsError.code err in
      let codeIs (c : string) :=
        match code with Some x => (x =? c)%string | None => false end in
      if codeIs "ECONNREFUSED" || codeIs "ENOTFOUND"
      then (NETWORK_ERROR, None, VNull)
      else if codeIs "ETIMEDOUT" || (JsError.name err =? "TimeoutError")%string
      then (TIMEOUT_ERROR, None, VNull)
      else (UNKNOWN_ERROR, None, VNull)
  end.

(** [err.message || 'Unknown error'] *)
Definition messageOf (err : Thrown) : string :=
  if JS.truthy_string (JsError.message err) then JsError.message err
  else "Unknown error".

(** [try { body } catch (err) { handler }] over the log of effects. *)
Definition tryCatch {A : Type} (body : Result Thrown A * Log)
    (handler : Thrown -> Log -> Result Thrown A * Log)
  : Result Thrown A * Log :=
  match body with
  | (Ok a, w) => (Ok a, w)
  | (Err err, w) => handler err w
  end.

(** The adapter's payloads, or the minimal [{ gameCode }]. *)
Definition gamePayloadsFor (env : Env.t number) (gameCode : string)
  : JsObject :=
  let minimal : JsObject := [("gameCode", VString gameCode)] in
  match Env.walletApiAdapter env with
  | Some getGamePayloads =>
      match getGamePayloads gameCode with
      | Some payloads => payloads
      | None => minimal
      end
  | None => minimal
  end.

Definition requestSnapshot (messageObj : value) (url : string) : value :=
  VObject [("messageObj", messageObj); ("url", VString url)].

Definition envelopeValue (payload : Envelope.t) : value :=
  VObject [("key", VString (Envelope.key payload));
           ("message", VString (Envelope.message payload))].

Definition getBalance (env : Env.t number) (clock : Clock.t)
    (requestId agentId userId : string) (w : Log)
  : Result Thrown (WalletResponse.t number) * Log :=
  match resolveAgent env agentId with
  | Err err => (Err err, w)
  | Ok agent =>
      let url := Agent.callbackURL agent in
      let messageObj : value :=
        VObject [("action", VString "getBalance");
                 ("userId", VString userId)] in
      let payload :=
        Envelope.mk (Agent.cert agent) (Runtime.JSON_stringify rt messageObj) in
      let requestStartTime := Clock.requestStartTime clock in
      let responseTime := (Clock.respondedAt clock - requestStartTime)%Z in
      tryCatch
        (let (reply, w1) := post env url payload w in
         match reply with
         | Err err => (Err err, w1)
         | Ok resp =>
             match mapAgentResponse (HttpResponse.data resp) with
             | Err err => (Err err, w1)
             | Ok mappedResponse =>
                 if negb (WalletResponse.status mappedResponse =? "0000")%string
                 then
                   let errorMessage :=
                     ("Agent rejected getBalance with status: " ++
                      WalletResponse.status mappedResponse)%string in
                   let w2 :=
                     logAudit env
                       {| AuditParams.requestId := requestId;
                          AuditParams.agentId := agentId;
                          AuditParams.userId := userId;
                          AuditParams.apiAction := GET_BALANCE;
                          AuditParams.status := FAILURE;
                          AuditParams.requestPayload :=
                            Some (requestSnapshot messageObj url);
                          AuditParams.requestUrl := Some url;
                          AuditParams.responseData :=
                            WalletResponse.raw mappedResponse;
                          AuditParams.httpStatus :=
                            Some (HttpResponse.status resp);
                          AuditParams.responseTime := responseTime;
                          AuditParams.failureType := Some AGENT_REJECTED;
                          AuditParams.errorMessage := Some errorMessage;
                          AuditParams.platformTxId := None;
                          AuditParams.roundId := None;
                          AuditParams.betAmount := None;
                          AuditParams.winAmount := None;
                          AuditParams.currency := None;
                          AuditParams.callbackUrl := Some url;
                          AuditParams.rawError := None |} w1 in
                   (Err (Nest.InternalServerErrorException number errorMessage),
                    w2)
                 else
                   let w2 :=
                     logAudit env
                       {| AuditParams.requestId := requestId;
                          AuditParams.agentId := agentId;
                          AuditParams.userId := userId;
                          AuditParams.apiAction := GET_BALANCE;
                          AuditParams.status := SUCCESS;
                          AuditParams.requestPayload :=
                            Some (requestSnapshot messageObj url);
                          AuditParams.requestUrl := Some url;
                          AuditParams.responseData :=
                            WalletResponse.raw mappedResponse;
                          AuditParams.httpStatus :=
                            Some (HttpResponse.status resp);
                          AuditParams.responseTime := responseTime;
                          AuditParams.failureType := None;
                          AuditParams.errorMessage := None;
                          AuditParams.platformTxId := None;
                          AuditParams.roundId := None;
                          AuditParams.betAmount := None;
                          AuditParams.winAmount := None;
                          AuditParams.currency := None;
                          AuditParams.callbackUrl := Some url;
                          AuditParams.rawError := None |} w1 in
                   (Ok mappedResponse, w2)
             end
         end)
        (fun err w1 =>
           let responseTime := (Clock.caughtAt clock - requestStartTime)%Z in
           let '(errorType, httpStatus, responseData) := classifyError err in
           (Err err,
            logAudit env
              {| AuditParams.requestId := requestId;
                 AuditParams.agentId := agentId;
                 AuditParams.userId := userId;
                 AuditParams.apiAction := GET_BALANCE;
                 AuditParams.status := FAILURE;
                 AuditParams.requestPayload :=
                   Some (requestSnapshot messageObj url);
                 AuditParams.requestUrl := Some url;
                 AuditParams.responseData := responseData;
                 AuditParams.httpStatus := httpStatus;
                 AuditParams.responseTime := responseTime;
                 AuditParams.failureType := Some errorType;
                 AuditParams.errorMessage := Some (messageOf err);
                 AuditParams.platformTxId := None;
                 AuditParams.roundId := None;
                 AuditParams.betAmount := None;
                 AuditParams.winAmount := None;
                 AuditParams.currency := None;
                 AuditParams.callbackUrl := Some url;
                 AuditParams.rawError :=
                   Some (Runtime.stringifyError rt err) |} w1))
  end.

Definition placeBet (env : Env.t number) (clock : Clock.t)
    (requestId : string) (params : PlaceBetParams.t number) (w : Log)
  : Result Thrown (WalletResponse.t number) * Log :=
  let currency :=
    match PlaceBetParams.currency params with
    | Some c => if JS.truthy_string c then c else "USD"
    | None => "USD"
    end in
  (* the catch block; [url], [messageObj] and [requestStartTime] are
     still undefined when the agent could not be resolved *)
  let handler (url : option string) (messageObj : option value)
      (requestStartTime : option Z) (err : Thrown) (w1 : Log) :=
    let responseTime :=
      match requestStartTime with
      | Some t => if (t =? 0)%Z then 0%Z else (Clock.caughtAt clock - t)%Z
      | None => 0%Z
      end in
    let '(errorType, httpStatus, responseData) := classifyError err in
    (Err err,
     logAudit env
       {| AuditParams.requestId := requestId;
          AuditParams.agentId := PlaceBetParams.agentId params;
          AuditParams.userId := PlaceBetParams.userId params;
          AuditParams.apiAction := PLACE_BET;
          AuditParams.status := FAILURE;
          AuditParams.requestPayload :=
            match messageObj with
            | Some m =>
                Some (VObject [("messageObj", m); ("url", optString url)])
            | None => None
            end;
          AuditParams.requestUrl := url;
          AuditParams.responseData := responseData;
          AuditParams.httpStatus := httpStatus;
          AuditParams.responseTime := responseTime;
          AuditParams.failureType := Some errorType;
          AuditParams.errorMessage := Some (messageOf err);
          AuditParams.platformTxId := Some (PlaceBetParams.platformTxId params);
          AuditParams.roundId := Some (PlaceBetParams.roundId params);
          AuditParams.betAmount := Some (PlaceBetParams.amount params);
          AuditParams.winAmount := None;
          AuditParams.currency := Some (VString currency);
          AuditParams.callbackUrl := url;
          AuditParams.rawError := Some (Runtime.stringifyError rt err) |} w1)
  in
  match resolveAgent env (PlaceBetParams.agentId params) with
  | Err err => handler None None None err w
  | Ok agent =>
      let url := Agent.callbackURL agent in
      let betTime := Clock.isoNow clock in
      let gamePayloads :=
        gamePayloadsFor env (PlaceBetParams.gameCode params) in
      let txn : value :=
        VObject
          (objectLiteral
             ([("platformTxId", VString (PlaceBetParams.platformTxId params));
               ("userId", VString (PlaceBetParams.userId params));
               ("currency", VString currency)]
              ++ gamePayloads ++
              [("betType", VNull);
               ("betAmount", VNumber (PlaceBetParams.amount params));
               ("betTime", VString betTime);
               ("roundId", VString (PlaceBetParams.roundId params));
               ("isPremium", VBool false)])) in
      let messageObj : value :=
        VObject [("action", VString "bet"); ("txns", VArray [txn])] in
      let payload :=
        Envelope.mk (Agent.cert agent) (Runtime.JSON_stringify rt messageObj) in
      let requestStartTime := Clock.requestStartTime clock in
      let responseTime := (Clock.respondedAt clock - requestStartTime)%Z in
      tryCatch
        (let (reply, w1) := post env url payload w in
         match reply with
         | Err err => (Err err, w1)
         | Ok resp =>
             match mapAgentResponse (HttpResponse.data resp) with
             | Err err => (Err err, w1)
             | Ok mappedResponse =>
                 if negb (WalletResponse.status mappedResponse =? "0000")%string
                 then
                   let errorMessage :=
                     ("Agent rejected bet with status: " ++
                      WalletResponse.status mappedResponse)%string in
                   let w2 :=
                     logAudit env
                       {| AuditParams.requestId := requestId;
                          AuditParams.agentId := PlaceBetParams.agentId params;
                          AuditParams.userId := PlaceBetParams.userId params;
                          AuditParams.apiAction := PLACE_BET;
                          AuditParams.status := FAILURE;
                          AuditParams.requestPayload :=
                            Some (requestSnapshot messageObj url);
                          AuditParams.requestUrl := Some url;
                          AuditParams.responseData :=
                            WalletResponse.raw mappedResponse;
                          AuditParams.httpStatus :=
                            Some (HttpResponse.status resp);
                          AuditParams.responseTime := responseTime;
                          AuditParams.failureType := Some AGENT_REJECTED;
                          AuditParams.errorMessage := Some errorMessage;
                          AuditParams.platformTxId :=
                            Some (PlaceBetParams.platformTxId params);
                          AuditParams.roundId :=
                            Some (PlaceBetParams.roundId params);
                          AuditParams.betAmount :=
                            Some (PlaceBetParams.amount params);
                          AuditParams.winAmount := None;
                          AuditParams.currency := Some (VString currency);
                          AuditParams.callbackUrl := Some url;
                          AuditParams.rawError := None |} w1 in
                   (Err (Nest.InternalServerErrorException number errorMessage),
                    w2)
                 else
                   let w2 :=
                     logAudit env
                       {| AuditParams.requestId := requestId;
                          AuditParams.agentId := PlaceBetParams.agentId params;
                          AuditParams.userId := PlaceBetParams.userId params;
                          AuditParams.apiAction := PLACE_BET;
                          AuditParams.status := SUCCESS;
                          AuditParams.requestPayload :=
                            Some (requestSnapshot messageObj url);
                          AuditParams.requestUrl := Some url;
                          AuditParams.responseData :=
                            WalletResponse.raw mappedResponse;
                          AuditParams.httpStatus :=
                            Some (HttpResponse.status resp);
                          AuditParams.responseTime := responseTime;
                          AuditParams.failureType := None;
                          AuditParams.errorMessage := None;
                          AuditParams.platformTxId :=
                            Some (PlaceBetParams.platformTxId params);
                          AuditParams.roundId :=
                            Some (PlaceBetParams.roundId params);
                          AuditParams.betAmount :=
                            Some (PlaceBetParams.amount params);
                          AuditParams.winAmount := None;
                          AuditParams.currency := Some (VString currency);
                          AuditParams.callbackUrl := Some url;
                          AuditParams.rawError := None |} w1 in
                   (Ok mappedResponse, w2)
             end
         end)
        (handler (Some url) (Some messageObj) (Some requestStartTime))
  end.

Definition settleBet (env : Env.t number) (clock : Clock.t)
    (requestId : string) (params : SettleBetParams.t number) (w : Log)
  : Result Thrown (WalletResponse.t number) * Log :=
  match resolveAgent env (SettleBetParams.agentId params) with
  | Err err => (Err err, w)
  | Ok agent =>
      let url := Agent.callbackURL agent in
      let txTime := Clock.isoNow clock in
      let gamePayloads :=
        gamePayloadsFor env (SettleBetParams.gameCode params) in
      let txn0 : JsObject :=
        objectLiteral
          ([("platformTxId", VString (SettleBetParams.platformTxId params));
            ("userId", VString (SettleBetParams.userId params))]
           ++ gamePayloads ++
           [("refPlatformTxId", VNull);
            ("settleType", getProp "settleType" gamePayloads);
            ("gameType", getProp "gameType" gamePayloads);
            ("gameCode", getProp "gameCode" gamePayloads);
            ("gameName", getProp "gameName" gamePayloads);
            ("betType", VNull);
            (* Number(n) of a number is n *)
            ("betAmount", VNumber (SettleBetParams.betAmount params));
            ("winAmount", VNumber (SettleBetParams.winAmount params));
            ("betTime", VString txTime);
            ("roundId", VString (SettleBetParams.roundId params))]) in
      let txn : JsObject :=
        match SettleBetParams.gameSession params with
        | Some session =>
            if truthy session
            then setProp "gameInfo" (VString (asText session)) txn0
            else txn0
        | None => txn0
        end in
      let messageObj : value :=
        VObject [("action", VString "settle"); ("txns", VArray [VObject txn])] in
      let payload :=
        Envelope.mk (Agent.cert agent) (Runtime.JSON_stringify rt messageObj) in
      let requestStartTime := Clock.requestStartTime clock in
      let retryJob (currency : value) (gamePayloads' : JsObject)
          (errorMessage : string) (auditId : option nat) :=
        {| RetryParams.platformTxId := SettleBetParams.platformTxId params;
           RetryParams.apiAction := SETTLE_BET;
           RetryParams.agentId := SettleBetParams.agentId params;
           RetryParams.userId := SettleBetParams.userId params;
           RetryParams.requestPayload :=
             VObject [("messageObj", messageObj); ("url", VString url);
                      ("payload", envelopeValue payload)];
           RetryParams.callbackUrl := url;
           RetryParams.roundId := Some (SettleBetParams.roundId params);
           RetryParams.betAmount := Some (SettleBetParams.betAmount params);
           RetryParams.winAmount := Some (SettleBetParams.winAmount params);
           RetryParams.currency := Some currency;
           RetryParams.gamePayloads := gamePayloads';
           RetryParams.walletAuditId := auditId;
           RetryParams.errorMessage := Some errorMessage |} in
      tryCatch
        (let (reply, w1) := post env url payload w in
         match reply with
         | Err err => (Err err, w1)
         | Ok resp =>
             let responseTime :=
               (Clock.respondedAt clock - requestStartTime)%Z in
             match mapAgentResponse (HttpResponse.data resp) with
             | Err err => (Err err, w1)
             | Ok mappedResponse =>
                 let currency :=
                   orElse (getProp "currency" gamePayloads) (VString "USD") in
                 if negb (WalletResponse.status mappedResponse =? "0000")%string
                 then
                   let errorMessage :=
                     ("Agent rejected settlement with status: " ++
                      WalletResponse.status mappedResponse)%string in
                   let w2 :=
                     logAuditThen env
                       {| AuditParams.requestId := requestId;
                          AuditParams.agentId := SettleBetParams.agentId params;
                          AuditParams.userId := SettleBetParams.userId params;
                          AuditParams.apiAction := SETTLE_BET;
                          AuditParams.status := FAILURE;
                          AuditParams.requestPayload :=
                            Some (requestSnapshot messageObj url);
                          AuditParams.requestUrl := Some url;
                          AuditParams.responseData :=
                            WalletResponse.raw mappedResponse;
                          AuditParams.httpStatus :=
                            Some (HttpResponse.status resp);
                          AuditParams.responseTime := responseTime;
                          AuditParams.failureType := Some AGENT_REJECTED;
                          AuditParams.errorMessage := Some errorMessage;
                          AuditParams.platformTxId :=
                            Some (SettleBetParams.platformTxId params);
                          AuditParams.roundId :=
                            Some (SettleBetParams.roundId params);
                          AuditParams.betAmount :=
                            Some (SettleBetParams.betAmount params);
                          AuditParams.winAmount :=
                            Some (SettleBetParams.winAmount params);
                          AuditParams.currency := Some currency;
                          AuditParams.callbackUrl := Some url;
                          AuditParams.rawError := None |}
                       (fun auditId =>
                          Some (retryJob currency gamePayloads errorMessage
                                  auditId))
                       w1 in
                   (Err (Nest.InternalServerErrorException number errorMessage),
                    w2)
                 else
                   let w2 :=
                     logAudit env
                       {| AuditParams.requestId := requestId;
                          AuditParams.agentId := SettleBetParams.agentId params;
                          AuditParams.userId := SettleBetParams.userId params;
                          AuditParams.apiAction := SETTLE_BET;
                          AuditParams.status := SUCCESS;
                          AuditParams.requestPayload :=
                            Some (requestSnapshot messageObj url);
                          AuditParams.requestUrl := Some url;
                          AuditParams.responseData :=
                            WalletResponse.raw mappedResponse;
                          AuditParams.httpStatus :=
                            Some (HttpResponse.status resp);
                          AuditParams.responseTime := responseTime;
                          AuditParams.failureType := None;
                          AuditParams.errorMessage := None;
                          AuditParams.platformTxId :=
                            Some (SettleBetParams.platformTxId params);
                          AuditParams.roundId :=
                            Some (SettleBetParams.roundId params);
                          AuditParams.betAmount :=
                            Some (SettleBetParams.betAmount params);
                          AuditParams.winAmount :=
                            Some (SettleBetParams.winAmount params);
                          AuditParams.currency := Some currency;
                          AuditParams.callbackUrl := Some url;
                          AuditParams.rawError := None |} w1 in
                   (Ok mappedResponse, w2)
             end
         end)
        (fun err w1 =>
           let responseTime := (Clock.caughtAt clock - requestStartTime)%Z in
           (* the payloads are fetched again in the catch block *)
           let gamePayloads' :=
             gamePayloadsFor env (SettleBetParams.gameCode params) in
           let currency :=
             orElse (getProp "currency" gamePayloads') (VString "USD") in
           let '(errorType, httpStatus, responseData) := classifyError err in
           (Err err,
            logAuditThen env
              {| AuditParams.requestId := requestId;
                 AuditParams.agentId := SettleBetParams.agentId params;
                 AuditParams.userId := SettleBetParams.userId params;
                 AuditParams.apiAction := SETTLE_BET;
                 AuditParams.status := FAILURE;
                 AuditParams.requestPayload :=
                   Some (requestSnapshot messageObj url);
                 AuditParams.requestUrl := Some url;
                 AuditParams.responseData := responseData;
                 AuditParams.httpStatus := httpStatus;
                 AuditParams.responseTime := responseTime;
                 AuditParams.failureType := Some errorType;
                 AuditParams.errorMessage := Some (messageOf err);
                 AuditParams.platformTxId :=
                   Some (SettleBetParams.platformTxId params);
                 AuditParams.roundId := Some (SettleBetParams.roundId params);
                 AuditParams.betAmount :=
                   Some (SettleBetParams.betAmount params);
                 AuditParams.winAmount :=
                   Some (SettleBetParams.winAmount params);
                 AuditParams.currency := Some currency;
                 AuditParams.callbackUrl := Some url;
                 AuditParams.rawError :=
                   Some (Runtime.stringifyError rt err) |}
              (fun auditId =>
                 Some (retryJob currency gamePayloads' (messageOf err) auditId))
              w1))
  end.

(** A refund transaction as a plain object (its image in a snapshot). *)
Definition refundTransactionValue (t : RefundTransaction.t number) : value :=
  VObject
    ([("platformTxId", VString (RefundTransaction.platformTxId t));
      ("refundPlatformTxId", VString (RefundTransaction.refundPlatformTxId t));
      ("betAmount", VNumber (RefundTransaction.betAmount t));
      ("winAmount", VNumber (RefundTransaction.winAmount t))]
     ++ match RefundTransaction.turnover t with
        | Some x => [("turnover", VNumber x)]
        | None => []
        end
     ++ [("betTime", VString (RefundTransaction.betTime t));
         ("updateTime", VString (RefundTransaction.updateTime t));
         ("roundId", VString (RefundTransaction.roundId t));
         ("gameCode", VString (RefundTransaction.gameCode t))]
     ++ match RefundTransaction.gameInfo t with
        | Some g => [("gameInfo", g)]
        | None => []
        end).

Definition refundBet (env : Env.t number) (clock : Clock.t)
    (requestId : string) (params : RefundBetParams.t number) (w : Log)
  : Result Thrown (WalletResponse.t number) * Log :=
  match resolveAgent env (RefundBetParams.agentId params) with
  | Err err => (Err err, w)
  | Ok agent =>
      let url := Agent.callbackURL agent in
      let refundTransactions := RefundBetParams.refundTransactions params in
      let firstTransaction := hd_error refundTransactions in
      let gameCode :=
        match firstTransaction with
        | Some t => RefundTransaction.gameCode t
        | None => ""
        end in
      let gamePayloads : JsObject :=
        if JS.truthy_string gameCode then gamePayloadsFor env gameCode
        else [("gameCode", VString gameCode)] in
      let currency :=
        orElse (getProp "currency" gamePayloads) (VString "USD") in
      let txns : list value :=
        map
          (fun refundTxn =>
             let txn : JsObject :=
               [("platformTxId",
                 VString (RefundTransaction.platformTxId refundTxn));
                ("userId", VString (RefundBetParams.userId params));
                ("platform", getProp "platform" gamePayloads);
                ("gameType", getProp "gameType" gamePayloads);
                ("gameCode", getProp "gameCode" gamePayloads);
                ("gameName", getProp "gameName" gamePayloads);
                ("betType", VNull);
                (* Number(n) of a number is n *)
                ("betAmount", VNumber (RefundTransaction.betAmount refundTxn));
                ("winAmount", VNumber (RefundTransaction.winAmount refundTxn));
                ("turnover",
                 VNumber
                   (nullish (RefundTransaction.turnover refundTxn)
                      (Runtime.zero rt)));
                ("betTime", VString (RefundTransaction.betTime refundTxn));
                ("updateTime",
                 VString (RefundTransaction.updateTime refundTxn));
                ("roundId", VString (RefundTransaction.roundId refundTxn));
                ("refundPlatformTxId",
                 VString (RefundTransaction.refundPlatformTxId refundTxn))] in
             VObject
               match RefundTransaction.gameInfo refundTxn with
               | Some info =>
                   if truthy info
                   then setProp "gameInfo" (VString (asText info)) txn
                   else txn
               | None => txn
               end)
          refundTransactions in
      let messageObj : value :=
        VObject [("action", VString "cancelBet"); ("txns", VArray txns)] in
      let payload :=
        Envelope.mk (Agent.cert agent) (Runtime.JSON_stringify rt messageObj) in
      let requestStartTime := Clock.requestStartTime clock in
      let totalBetAmount := total (@RefundTransaction.betAmount _)
                              refundTransactions in
      let totalWinAmount := total (@RefundTransaction.winAmount _)
                              refundTransactions in
      (* the continuation of the audit write: a job only for a first
         transaction *)
      let retryJob (errorMessage : string) (auditId : option nat) :=
        match firstTransaction with
        | Some first =>
            Some
              {| RetryParams.platformTxId :=
                   RefundTransaction.platformTxId first;
                 RetryParams.apiAction := REFUND_BET;
                 RetryParams.agentId := RefundBetParams.agentId params;
                 RetryParams.userId := RefundBetParams.userId params;
                 RetryParams.requestPayload :=
                   VObject
                     [("messageObj", messageObj); ("url", VString url);
                      ("payload", envelopeValue payload);
                      ("refundTransactions",
                       VArray (map refundTransactionValue refundTransactions))];
                 RetryParams.callbackUrl := url;
                 RetryParams.roundId := Some (RefundTransaction.roundId first);
                 RetryParams.betAmount := Some totalBetAmount;
                 RetryParams.winAmount := Some totalWinAmount;
                 RetryParams.currency := Some currency;
                 RetryParams.gamePayloads := gamePayloads;
                 RetryParams.walletAuditId := auditId;
                 RetryParams.errorMessage := Some errorMessage |}
        | None => None
        end in
      tryCatch
        (let (reply, w1) := post env url payload w in
         match reply with
         | Err err => (Err err, w1)
         | Ok resp =>
             let responseTime :=
               (Clock.respondedAt clock - requestStartTime)%Z in
             match mapAgentResponse (HttpResponse.data resp) with
             | Err err => (Err err, w1)
             | Ok mappedResponse =>
                 if negb (WalletResponse.status mappedResponse =? "0000")%string
                 then
                   let errorMessage :=
                     ("Agent rejected refund with status: " ++
                      WalletResponse.status mappedResponse)%string in
                   let w2 :=
                     logAuditThen env
                       {| AuditParams.requestId := requestId;
                          AuditParams.agentId := RefundBetParams.agentId params;
                          AuditParams.userId := RefundBetParams.userId params;
                          AuditParams.apiAction := REFUND_BET;
                          AuditParams.status := FAILURE;
                          AuditParams.requestPayload :=
                            Some (requestSnapshot messageObj url);
                          AuditParams.requestUrl := Some url;
                          AuditParams.responseData :=
                            WalletResponse.raw mappedResponse;
                          AuditParams.httpStatus :=
                            Some (HttpResponse.status resp);
                          AuditParams.responseTime := responseTime;
                          AuditParams.failureType := Some AGENT_REJECTED;
                          AuditParams.errorMessage := Some errorMessage;
                          AuditParams.platformTxId :=
                            option_map (@RefundTransaction.platformTxId _)
                              firstTransaction;
                          AuditParams.roundId :=
                            option_map (@RefundTransaction.roundId _)
                              firstTransaction;
                          AuditParams.betAmount := Some totalBetAmount;
                          AuditParams.winAmount := Some totalWinAmount;
                          AuditParams.currency := Some currency;
                          AuditParams.callbackUrl := Some url;
                          AuditParams.rawError := None |}
                       (retryJob errorMessage)
                       w1 in
                   (Err (Nest.InternalServerErrorException number errorMessage),
                    w2)
                 else
                   let w2 :=
                     logAudit env
                       {| AuditParams.requestId := requestId;
                          AuditParams.agentId := RefundBetParams.agentId params;
                          AuditParams.userId := RefundBetParams.userId params;
                          AuditParams.apiAction := REFUND_BET;
                          AuditParams.status := SUCCESS;
                          AuditParams.requestPayload :=
                            Some (requestSnapshot messageObj url);
                          AuditParams.requestUrl := Some url;
                          AuditParams.responseData :=
                            WalletResponse.raw mappedResponse;
                          AuditParams.httpStatus :=
                            Some (HttpResponse.status resp);
                          AuditParams.responseTime := responseTime;
                          AuditParams.failureType := None;
                          AuditParams.errorMessage := None;
                          AuditParams.platformTxId :=
                            option_map (@RefundTransaction.platformTxId _)
                              firstTransaction;
                          AuditParams.roundId :=
                            option_map (@RefundTransaction.roundId _)
                              firstTransaction;
                          AuditParams.betAmount := Some totalBetAmount;
                          AuditParams.winAmount := Some totalWinAmount;
                          AuditParams.currency := Some currency;
                          AuditParams.callbackUrl := Some url;
                          AuditParams.rawError := None |} w1 in
                   (Ok mappedResponse, w2)
             end
         end)
        (fun err w1 =>
           let responseTime := (Clock.caughtAt clock - requestStartTime)%Z in
           let '(errorType, httpStatus, responseData) := classifyError err in
           (Err err,
            logAuditThen env
              {| AuditParams.requestId := requestId;
                 AuditParams.agentId := RefundBetParams.agentId params;
                 AuditParams.userId := RefundBetParams.userId params;
                 AuditParams.apiAction := REFUND_BET;
                 AuditParams.status := FAILURE;
                 AuditParams.requestPayload :=
                   Some (requestSnapshot messageObj url);
                 AuditParams.requestUrl := Some url;
                 AuditParams.responseData := responseData;
                 AuditParams.httpStatus := httpStatus;
                 AuditParams.responseTime := responseTime;
                 AuditParams.failureType := Some errorType;
                 AuditParams.errorMessage := Some (messageOf err);
                 AuditParams.platformTxId :=
                   option_map (@RefundTransaction.platformTxId _)
                     firstTransaction;
                 AuditParams.roundId :=
                   option_map (@RefundTransaction.roundId _) firstTransaction;
                 AuditParams.betAmount := Some totalBetAmount;
                 AuditParams.winAmount := Some totalWinAmount;
                 AuditParams.currency := Some currency;
                 AuditParams.callbackUrl := Some url;
                 AuditParams.rawError :=
                   Some (Runtime.stringifyError rt err) |}
              (retryJob (messageOf err))
              w1))
  end.

End Gateway.

(** ** class JwtTokenService (the last part of bet.service.ts)

    The service prepares the calls to [JwtService]; signing and
    verifying themselves are the library's.  A token method is modelled
    by the request it hands to [jwtService.sign] or [jwtService.verify].
    [nowSeconds] is [Math.floor(Date.now() / 1000)]. *)

Module JwtTokenService.

Record Config (number : Type) : Type := mkConfig {
  secret : string;
  expiresIn : Value number;
  genericExpiresIn : Value number
}.

Record SignRequest (number : Type) : Type := mkSignRequest {
  payload : list (string * Value number);
  signSecret : string;
  algorithm : string;
  signExpiresIn : Value number
}.

Record VerifyRequest : Type := mkVerifyRequest {
  token : string;
  verifySecret : string;
  algorithms : list string
}.

(** The constructor: the injected configuration, or the default one
    built from the environment variable [JWT_SECRET]. *)
Definition create (number : Type) (config : option (Config number))
    (JWT_SECRET : option string) : Config number :=
  match config with
  | Some c => c
  | None =>
      {| secret :=
           match JWT_SECRET with
           | Some s =>
               if JS.truthy_string s then s
               else "default-secret-change-in-production"
           | None => "default-secret-change-in-production"
           end;
         expiresIn := VString "24h";
         genericExpiresIn := VString "1h" |}
  end.

Definition signUserToken (rt : Runtime.t)
    (config : Config (Runtime.number rt)) (nowSeconds : Runtime.number rt)
    (userId agentId : string) (ttlSeconds : option (Runtime.number rt))
  : SignRequest (Runtime.number rt) :=
  let expiresIn' :=
    match ttlSeconds with
    | Some ttl => VNumber ttl
    | None => expiresIn config
    end in
  {| payload :=
       objectLiteral rt
         [("sub", VString userId); ("agentId", VString agentId);
          ("iat", VNumber nowSeconds)];
     signSecret := secret config;
     algorithm := "HS256";
     signExpiresIn := expiresIn' |}.

Definition verifyToken (number : Type) (config : Config number)
    (token : string) : VerifyRequest :=
  {| token := token;
     verifySecret := secret config;
     algorithms := ["HS256"] |}.

(** [{ ...payload, iat }] *)
Definition signGenericToken (rt : Runtime.t)
    (config : Config (Runtime.number rt)) (nowSeconds : Runtime.number rt)
    (payload : list (string * Value (Runtime.number rt)))
    (ttlSeconds : option (Runtime.number rt))
  : SignRequest (Runtime.number rt) :=
  let expiresIn' :=
    match ttlSeconds with
    | Some ttl => VNumber ttl
    | None => genericExpiresIn config
    end in
  {| payload := objectLiteral rt (payload ++ [("iat", VNumber nowSeconds)]);
     signSecret := secret config;
     algorithm := "HS256";
     signExpiresIn := expiresIn' |}.

End JwtTokenService.

(** The collaborators of a call with another audit log and retry
    queue. *)
Definition withServices (number : Type) (env : Env.t number)
    (audit : AuditParams.t number -> AuditOutcome)
    (retry : RetryParams.t number -> bool) : Env.t number :=
  Env.mk (Env.agentsService env) (Env.httpPost env) (Env.walletApiAdapter env)
    audit retry.

(** ** Reading a log of effects *)

Definition auditsOf {number : Type} (w : Trace number)
  : list (nat * AuditParams.t number) :=
  flat_map (fun e => match e with EAudit i a => [(i, a)] | _ => [] end) w.

Definition retryJobsOf {number : Type} (w : Trace number)
  : list (RetryParams.t number) :=
  flat_map (fun e => match e with ERetry j => [j] | _ => [] end) w.

Definition postsOf {number : Type} (w : Trace number)
  : list (string * Envelope.t) :=
  flat_map (fun e => match e with EPost u p => [(u, p)] | _ => [] end) w.

Definition isErr {E A : Type} (r : Result E A) : bool :=
  match r with Err _ => true | Ok _ => false end.

(** The four calls of the gateway under one type. *)
Inductive WalletCall (number : Type) : Type :=
| GetBalance (agentId userId : string)
| PlaceBet (params : PlaceBetParams.t number)
| SettleBet (params : SettleBetParams.t number)
| RefundBet (params : RefundBetParams.t number).
Arguments GetBalance {number} agentId userId.
Arguments PlaceBet {number} params.
Arguments SettleBet {number} params.
Arguments RefundBet {number} params.

Definition invoke (rt : Runtime.t) (env : Env.t (Runtime.number rt))
    (clock : Clock.t) (requestId : string)
    (call : WalletCall (Runtime.number rt)) (w : Trace (Runtime.number rt))
  : Result (JsError.t (Runtime.number rt))
      (WalletResponse.t (Runtime.number rt))
    * Trace (Runtime.number rt) :=
  match call with
  | GetBalance agentId userId =>
      getBalance rt env clock requestId agentId userId w
  | PlaceBet params => placeBet rt env clock requestId params w
  | SettleBet params => settleBet rt env clock requestId params w
  | RefundBet params => refundBet rt env clock requestId params w
  end.

Definition agentOf {number : Type} (call : WalletCall number) : string :=
  match call with
  | GetBalance agentId _ => agentId
  | PlaceBet params => PlaceBetParams.agentId params
  | SettleBet params => SettleBetParams.agentId params
  | RefundBet params => RefundBetParams.agentId params
  end.

Definition actionOf {number : Type} (call : WalletCall number)
  : WalletApiAction :=
  match call with
  | GetBalance _ _ => GET_BALANCE
  | PlaceBet _ => PLACE_BET
  | SettleBet _ => SETTLE_BET
  | RefundBet _ => REFUND_BET
  end.

(** The calls for which a failure is queued for resubmission: settleBet,
    and refundBet with a first transaction. *)
Definition retried {number : Type} (call : WalletCall number) : bool :=
  match call with
  | GetBalance _ _ | PlaceBet _ => false
  | SettleBet _ => true
  | RefundBet params =>
      match RefundBetParams.refundTransactions params with
      | [] => false
      | _ :: _ => true
      end
  end.

(** The status and failure kind of each audit record of a log. *)
Definition auditKinds {number : Type} (w : Trace number)
  : list (WalletAuditStatus * option WalletErrorType) :=
  map (fun ia => (AuditParams.status (snd ia), AuditParams.failureType (snd ia)))
    (auditsOf w).

(** A response body carries a string-typed [status] field. *)
Definition hasStringStatus (rt : Runtime.t)
    (data : Value (Runtime.number rt)) : bool :=
  match data with
  | VObject fields =>
      match getProp rt "status" fields with
      | VString _ => true
      | _ => false
      end
  | _ => false
  end.

(** Every retry job that names an audit record comes after the storing
    of that record. *)
Fixpoint jobsFollowAudits {number : Type} (seen : list nat)
    (w : Trace number) : Prop :=
  match w with
  | [] => True
  | EPost _ _ :: rest => jobsFollowAudits seen rest
  | EAudit id _ :: rest => jobsFollowAudits (id :: seen) rest
  | ERetry job :: rest =>
      match RetryParams.walletAuditId job with
      | Some id => In id seen
      | None => True
      end /\ jobsFollowAudits seen rest
  end.

(** ** The common shape of the four calls

    Once the agent is resolved, a call posts one request and ends in one
    of four ways: the client throws, the reply is malformed, the agent
    rejects, or the agent accepts.  [failureAudit] and [continuation]
    say what the shape guarantees of the audit records written and of
    the retry jobs that their continuations create. *)

Definition failureAudit (rt : Runtime.t)
    (call : WalletCall (Runtime.number rt))
    (kind : WalletErrorType) (a : AuditParams.t (Runtime.number rt)) : Prop :=
  AuditParams.status a = FAILURE /\
  AuditParams.failureType a = Some kind /\
  AuditParams.apiAction a = actionOf call /\
  AuditParams.agentId a = agentOf call.

Definition continuation (rt : Runtime.t)
    (call : WalletCall (Runtime.number rt))
    (k : option nat -> option (RetryParams.t (Runtime.number rt))) : Prop :=
  if retried call
  then forall id, exists job,
         k id = Some job /\
         RetryParams.walletAuditId job = id /\
         RetryParams.apiAction job = actionOf call /\
         RetryParams.agentId job = agentOf call
  else forall id, k id = None.

Inductive Shape (rt : Runtime.t) (env : Env.t (Runtime.number rt))
    (agent : Agent.t) (w : Trace (Runtime.number rt))
    (call : WalletCall (Runtime.number rt))
    (payload : Envelope.t)
  : Result (JsError.t (Runtime.number rt))
      (WalletResponse.t (Runtime.number rt))
    * Trace (Runtime.number rt) -> Prop :=
| ShapeTransport : forall err aC kC,
    Env.httpPost env (Agent.callbackURL agent) payload = Err err ->
    failureAudit rt call (fst (fst (classifyError rt err))) aC ->
    continuation rt call kC ->
    Shape rt env agent w call payload
      (Err err,
       logAuditThen rt env aC kC
         (w ++ [EPost (Agent.callbackURL agent) payload]))
| ShapeMalformed : forall resp aC kC,
    Env.httpPost env (Agent.callbackURL agent) payload = Ok resp ->
    hasStringStatus rt (HttpResponse.data resp) = false ->
    failureAudit rt call HTTP_ERROR aC ->
    continuation rt call kC ->
    Shape rt env agent w call payload
      (Err (Nest.InternalServerErrorException (Runtime.number rt)
              "Malformed agent response"),
       logAuditThen rt env aC kC
         (w ++ [EPost (Agent.callbackURL agent) payload]))
| ShapeRejected : forall resp mapped message aR kR aC kC,
    Env.httpPost env (Agent.callbackURL agent) payload = Ok resp ->
    mapAgentResponse rt (HttpResponse.data resp) = Ok mapped ->
    (WalletResponse.status mapped =? "0000")%string = false ->
    failureAudit rt call AGENT_REJECTED aR ->
    continuation rt call kR ->
    failureAudit rt call HTTP_ERROR aC ->
    continuation rt call kC ->
    Shape rt env agent w call payload
      (Err (Nest.InternalServerErrorException (Runtime.number rt) message),
       logAuditThen rt env aC kC
         (logAuditThen rt env aR kR
            (w ++ [EPost (Agent.callbackURL agent) payload])))
| ShapeSuccess : forall resp mapped aS,
    Env.httpPost env (Agent.callbackURL agent) payload = Ok resp ->
    mapAgentResponse rt (HttpResponse.data resp) = Ok mapped ->
    (WalletResponse.status mapped =? "0000")%string = true ->
    AuditParams.status aS = SUCCESS ->
    AuditParams.failureType aS = None ->
    Shape rt env agent w call payload
      (Ok mapped,
       logAudit rt env aS (w ++ [EPost (Agent.callbackURL agent) payload])).

(** The field-merge rule of a settlement, field by field: the caller's
    value when it is supplied, the stored value otherwise. *)
Definition settlementMerges (params : SettlementParams.t)
    (bet settled : Bet.t) : Prop :=
  Bet.gameMetadata settled
  = providedOpt (SettlementParams.gameMetadata params)
      (Bet.gameMetadata bet) /\
  Bet.settlementRefTxId settled
  = providedOpt (SettlementParams.settlementRefTxId params)
      (Bet.settlementRefTxId bet) /\
  Bet.balanceAfterSettlement settled
  = providedOpt (SettlementParams.balanceAfterSettlement params)
      (Bet.balanceAfterSettlement bet) /\
  Bet.gameInfo settled
  = providedOpt (SettlementParams.gameInfo params) (Bet.gameInfo bet) /\
  Bet.finalCoeff settled
  = providedOpt (SettlementParams.finalCoeff params) (Bet.finalCoeff bet) /\
  Bet.withdrawCoeff settled
  = providedOpt (SettlementParams.withdrawCoeff params)
      (Bet.withdrawCoeff bet) /\
  Bet.fairnessData settled
  = providedOpt (SettlementParams.fairnessData params)
      (Bet.fairnessData bet) /\
  Bet.userId settled
  = provided (SettlementParams.userId params) (Bet.userId bet) /\
  Bet.roundId settled
  = provided (SettlementParams.roundId params) (Bet.roundId bet) /\
  Bet.betAmount settled
  = provided (SettlementParams.betAmount params) (Bet.betAmount bet) /\
  Bet.currency settled
  = provided (SettlementParams.currency params) (Bet.currency bet) /\
  Bet.gameCode settled
  = provided (SettlementParams.gameCode params) (Bet.gameCode bet) /\
  Bet.isPremium settled
  = provided (SettlementParams.isPremium params) (Bet.isPremium bet) /\
  Bet.betPlacedAt settled
  = providedOpt (SettlementParams.betPlacedAt params)
      (Bet.betPlacedAt bet) /\
  Bet.balanceAfterBet settled
  = providedOpt (SettlementParams.balanceAfterBet params)
      (Bet.balanceAfterBet bet) /\
  Bet.operatorId settled
  = provided (SettlementParams.operatorId params) (Bet.operatorId bet).

(** What a settlement writes of the optional fields, field by field:
    a value the caller supplies is the value of the settled row. *)
Definition suppliedFieldsWritten (params : SettlementParams.t)
    (settled : Bet.t) : Prop :=
  (forall v, SettlementParams.gameMetadata params = Some v ->
             Bet.gameMetadata settled = Some v) /\
  (forall v, SettlementParams.settlementRefTxId params = Some v ->
             Bet.settlementRefTxId settled = Some v) /\
  (forall v, SettlementParams.balanceAfterSettlement params = Some v ->
             Bet.balanceAfterSettlement settled = Some v) /\
  (forall v, SettlementParams.gameInfo params = Some v ->
             Bet.gameInfo settled = Some v) /\
  (forall v, SettlementParams.finalCoeff params = Some v ->
             Bet.finalCoeff settled = Some v) /\
  (forall v, SettlementParams.withdrawCoeff params = Some v ->
             Bet.withdrawCoeff settled = Some v) /\
  (forall v, SettlementParams.fairnessData params = Some v ->
             Bet.fairnessData settled = Some v) /\
  (forall v, SettlementParams.userId params = Some v ->
             Bet.userId settled = v) /\
  (forall v, SettlementParams.roundId params = Some v ->
             Bet.roundId settled = v) /\
  (forall v, SettlementParams.betAmount params = Some v ->
             Bet.betAmount settled = v) /\
  (forall v, SettlementParams.currency params = Some v ->
             Bet.currency settled = v) /\
  (forall v, SettlementParams.gameCode params = Some v ->
             Bet.gameCode settled = v) /\
  (forall v, SettlementParams.isPremium params = Some v ->
             Bet.isPremium settled = v) /\
  (forall v, SettlementParams.betPlacedAt params = Some v ->
             Bet.betPlacedAt settled = Some v) /\
  (forall v, SettlementParams.balanceAfterBet params = Some v ->
             Bet.balanceAfterBet settled = Some v) /\
  (forall v, SettlementParams.operatorId params = Some v ->
             Bet.operatorId settled = v) /\
  (forall v, SettlementParams.settledAt params = Some v ->
             Bet.settledAt settled = Some v).

(** ... and a field the caller omits has the value of the row [bet]
    that was stored. *)
Definition omittedFieldsKept (params : SettlementParams.t)
    (bet settled : Bet.t) : Prop :=
  (SettlementParams.gameMetadata params = None ->
   Bet.gameMetadata settled = Bet.gameMetadata bet) /\
  (SettlementParams.settlementRefTxId params = None ->
   Bet.settlementRefTxId settled = Bet.settlementRefTxId bet) /\
  (SettlementParams.balanceAfterSettlement params = None ->
   Bet.balanceAfterSettlement settled = Bet.balanceAfterSettlement bet) /\
  (SettlementParams.gameInfo params = None ->
   Bet.gameInfo settled = Bet.gameInfo bet) /\
  (SettlementParams.finalCoeff params = None ->
   Bet.finalCoeff settled = Bet.finalCoeff bet) /\
  (SettlementParams.withdrawCoeff params = None ->
   Bet.withdrawCoeff settled = Bet.withdrawCoeff bet) /\
  (SettlementParams.fairnessData params = None ->
   Bet.fairnessData settled = Bet.fairnessData bet) /\
  (SettlementParams.userId params = None ->
   Bet.userId settled = Bet.userId bet) /\
  (SettlementParams.roundId params = None ->
   Bet.roundId settled = Bet.roundId bet) /\
  (SettlementParams.betAmount params = None ->
   Bet.betAmount settled = Bet.betAmount bet) /\
  (SettlementParams.currency params = None ->
   Bet.currency settled = Bet.currency bet) /\
  (SettlementParams.gameCode params = None ->
   Bet.gameCode settled = Bet.gameCode bet) /\
  (SettlementParams.isPremium params = None ->
   Bet.isPremium settled = Bet.isPremium bet) /\
  (SettlementParams.betPlacedAt params = None ->
   Bet.betPlacedAt settled = Bet.betPlacedAt bet) /\
  (SettlementParams.balanceAfterBet params = None ->
   Bet.balanceAfterBet settled = Bet.balanceAfterBet bet) /\
  (SettlementParams.operatorId params = None ->
   Bet.operatorId settled = Bet.operatorId bet).

(** ** Sample data for the examples *)

Module Sample.

Definition noValidator : BetService.Deps := BetService.mkDeps None true.

(** A validator that knows no game. *)
Definition closedValidator : BetService.Deps :=
  BetService.mkDeps (Some (fun g => Some ("Game " ++ g ++ " not found")%string))
    true.

Definition place (tx gameCode amount : string) : CreateBetParams.t :=
  {| CreateBetParams.externalPlatformTxId := tx;
     CreateBetParams.userId := "u1";
     CreateBetParams.roundId := "r1";
     CreateBetParams.betAmount := amount;
     CreateBetParams.currency := "USD";
     CreateBetParams.gameCode := gameCode;
     CreateBetParams.createdBy := "u1";
     CreateBetParams.operatorId := "op1";
     CreateBetParams.gameMetadata := None;
     CreateBetParams.winAmount := None;
     CreateBetParams.status := None;
     CreateBetParams.settlementRefTxId := None;
     CreateBetParams.isPremium := None;
     CreateBetParams.betPlacedAt := None;
     CreateBetParams.settledAt := None;
     CreateBetParams.gameInfo := Some "session-1";
     CreateBetParams.balanceAfterBet := None;
     CreateBetParams.balanceAfterSettlement := None;
     CreateBetParams.updatedBy := None;
     CreateBetParams.finalCoeff := None;
     CreateBetParams.withdrawCoeff := None;
     CreateBetParams.fairnessData := None |}.

(** A settlement that supplies only the required fields. *)
Definition settle (tx winAmount : string) : SettlementParams.t :=
  {| SettlementParams.externalPlatformTxId := tx;
     SettlementParams.winAmount := winAmount;
     SettlementParams.updatedBy := "settler";
     SettlementParams.gameMetadata := None;
     SettlementParams.settlementRefTxId := None;
     SettlementParams.settledAt := None;
     SettlementParams.balanceAfterSettlement := None;
     SettlementParams.gameInfo := None;
     SettlementParams.finalCoeff := None;
     SettlementParams.withdrawCoeff := None;
     SettlementParams.fairnessData := None;
     SettlementParams.status := None;
     SettlementParams.userId := None;
     SettlementParams.roundId := None;
     SettlementParams.betAmount := None;
     SettlementParams.currency := None;
     SettlementParams.gameCode := None;
     SettlementParams.isPremium := None;
     SettlementParams.betPlacedAt := None;
     SettlementParams.balanceAfterBet := None;
     SettlementParams.operatorId := None |}.

(** A settlement under an explicit status. *)
Definition settleAs (tx winAmount : string) (status : BetStatus)
  : SettlementParams.t :=
  {| SettlementParams.externalPlatformTxId := tx;
     SettlementParams.winAmount := winAmount;
     SettlementParams.updatedBy := "settler";
     SettlementParams.gameMetadata := None;
     SettlementParams.settlementRefTxId := None;
     SettlementParams.settledAt := None;
     SettlementParams.balanceAfterSettlement := None;
     SettlementParams.gameInfo := None;
     SettlementParams.finalCoeff := None;
     SettlementParams.withdrawCoeff := None;
     SettlementParams.fairnessData := None;
     SettlementParams.status := Some status;
     SettlementParams.userId := None;
     SettlementParams.roundId := None;
     SettlementParams.betAmount := None;
     SettlementParams.currency := None;
     SettlementParams.gameCode := None;
     SettlementParams.isPremium := None;
     SettlementParams.betPlacedAt := None;
     SettlementParams.balanceAfterBet := None;
     SettlementParams.operatorId := None |}.

(** An update that supplies the operator's note of the session and,
    possibly, a status. *)
Definition amend (tx gameInfo : string) (status : option BetStatus)
  : UpdateBetParams.t :=
  {| UpdateBetParams.externalPlatformTxId := tx;
     UpdateBetParams.updatedBy := "admin";
     UpdateBetParams.userId := None;
     UpdateBetParams.roundId := None;
     UpdateBetParams.gameMetadata := None;
     UpdateBetParams.betAmount := None;
     UpdateBetParams.winAmount := None;
     UpdateBetParams.currency := None;
     UpdateBetParams.status := status;
     UpdateBetParams.settlementRefTxId := None;
     UpdateBetParams.isPremium := None;
     UpdateBetParams.betPlacedAt := None;
     UpdateBetParams.settledAt := None;
     UpdateBetParams.gameCode := None;
     UpdateBetParams.gameInfo := Some gameInfo;
     UpdateBetParams.balanceAfterBet := None;
     UpdateBetParams.balanceAfterSettlement := None;
     UpdateBetParams.operatorId := None;
     UpdateBetParams.finalCoeff := None;
     UpdateBetParams.withdrawCoeff := None;
     UpdateBetParams.fairnessData := None |}.

(** A settlement that also supplies the game session, the round and
    the balance after it. *)
Definition settleWith (tx winAmount gameInfo roundId balance : string)
  : SettlementParams.t :=
  {| SettlementParams.externalPlatformTxId := tx;
     SettlementParams.winAmount := winAmount;
     SettlementParams.updatedBy := "settler";
     SettlementParams.gameMetadata := None;
     SettlementParams.settlementRefTxId := None;
     SettlementParams.settledAt := None;
     SettlementParams.balanceAfterSettlement := Some balance;
     SettlementParams.gameInfo := Some gameInfo;
     SettlementParams.finalCoeff := None;
     SettlementParams.withdrawCoeff := None;
     SettlementParams.fairnessData := None;
     SettlementParams.status := None;
     SettlementParams.userId := None;
     SettlementParams.roundId := Some roundId;
     SettlementParams.betAmount := None;
     SettlementParams.currency := None;
     SettlementParams.gameCode := None;
     SettlementParams.isPremium := None;
     SettlementParams.betPlacedAt := None;
     SettlementParams.balanceAfterBet := None;
     SettlementParams.operatorId := None |}.

Definition settleAlt (tx winAmount : string) : SettlementParamsAlt.t :=
  {| SettlementParamsAlt.externalPlatformTxId := tx;
     SettlementParamsAlt.winAmount := winAmount;
     SettlementParamsAlt.settleType := None;
     SettlementParamsAlt.settlementRefTxId := None;
     SettlementParamsAlt.settledAt := None;
     SettlementParamsAlt.balanceAfterSettlement := None;
     SettlementParamsAlt.gameInfo := None;
     SettlementParamsAlt.updatedBy := "settler";
     SettlementParamsAlt.finalCoeff := None;
     SettlementParamsAlt.withdrawCoeff := None;
     SettlementParamsAlt.fairnessData := None;
     SettlementParamsAlt.gameMetadata := None |}.

(** The table after placing ("T1", "G1", "5.00") at time 10. *)
Definition placed : Store :=
  run noValidator [(10, OpCreatePlacement (place "T1" "G1" "5.00"))]
    emptyStore.

(** The row that placement stored. *)
Definition placedRow : Bet.t :=
  {| Bet.id := 0;
     Bet.externalPlatformTxId := "T1";
     Bet.userId := "u1";
     Bet.roundId := "r1";
     Bet.gameMetadata := None;
     Bet.betAmount := "5.00";
     Bet.winAmount := None;
     Bet.currency := "USD";
     Bet.status := PLACED;
     Bet.settlementRefTxId := None;
     Bet.isPremium := false;
     Bet.betPlacedAt := None;
     Bet.settledAt := None;
     Bet.gameCode := "G1";
     Bet.gameInfo := Some "session-1";
     Bet.balanceAfterBet := None;
     Bet.balanceAfterSettlement := None;
     Bet.createdAt := 10;
     Bet.updatedAt := 10;
     Bet.createdBy := Some "u1";
     Bet.updatedBy := Some "u1";
     Bet.operatorId := "op1";
     Bet.finalCoeff := None;
     Bet.withdrawCoeff := None;
     Bet.fairnessData := None |}.

(** ... and after settling it with a win of "10.500" at time 20. *)
Definition won : Store :=
  run noValidator [(20, OpRecordSettlement (settle "T1" "10.500"))] placed.

(** ... or after cancelling it at time 20. *)
Definition cancelled : Store :=
  run noValidator
    [(20, OpUpdateStatus (UpdateBetStatusParams.mk "T1" CANCELLED "admin"))]
    placed.

Definition quote : string := String (ascii_of_nat 34) EmptyString.

(** [JSON.stringify] over integers: a property whose value is
    [undefined] is left out of an object. *)
Fixpoint stringify (v : Value Z) : string :=
  match v with
  | VUndefined | VNull => "null"
  | VBool true => "true"
  | VBool false => "false"
  | VNumber n => NilZero.string_of_int (Z.to_int n)
  | VString s => (quote ++ s ++ quote)%string
  | VArray items =>
      ("[" ++ String.concat "," (map stringify items) ++ "]")%string
  | VObject fields =>
      ("{" ++
       String.concat ","
         (flat_map
            (fun kv : string * Value Z =>
               let (k, x) := kv in
               match x with
               | VUndefined => @nil string
               | _ => [(quote ++ k ++ quote ++ ":" ++ stringify x)%string]
               end)
            fields)
       ++ "}")%string
  end.

(** A runtime whose numbers are integers. *)
Definition runtime : Runtime.t :=
  {| Runtime.number := Z;
     Runtime.zero := 0%Z;
     Runtime.add := Z.add;
     Runtime.truthyNumber := fun n => negb (n =? 0)%Z;
     Runtime.toNumber := fun v => match v with VNumber n => n | _ => 0%Z end;
     Runtime.JSON_stringify := stringify;
     Runtime.stringifyError := fun err => JsError.message err |}.

Definition agent : Agent.t := Agent.mk "agent1" "cert1" "https://agent1/cb".

Definition clock : Clock.t := Clock.mk "2024-01-01T00:00:00.000Z" 1000 1040 1050.

(** Collaborators that store every audit record and retry job, with one
    known agent whose endpoint answers [reply]. *)
Definition env (reply : Result (JsError.t Z) (HttpResponse.t Z)) : Env.t Z :=
  {| Env.agentsService :=
       fun id => if (id =? "agent1")%string then Some agent else None;
     Env.httpPost := fun _ _ => reply;
     Env.walletApiAdapter := None;
     Env.walletAuditService := fun _ => AuditStored;
     Env.retryJobService := fun _ => true |}.

(** HTTP 200 with body [{ status }]. *)
Definition replied (status : string) : Result (JsError.t Z) (HttpResponse.t Z) :=
  Ok (HttpResponse.mk 200 (VObject [("status", VString status)])).

(** HTTP 200 with body [{ balance: 5 }]: no status field. *)
Definition repliedWithoutStatus : Result (JsError.t Z) (HttpResponse.t Z) :=
  Ok (HttpResponse.mk 200 (VObject [("balance", VNumber 5%Z)])).

(** The client's error for a refused connection. *)
Definition refusal : JsError.t Z :=
  JsError.mk "Error" "connect ECONNREFUSED" (Some "ECONNREFUSED") None.

Definition connectionRefused : Result (JsError.t Z) (HttpResponse.t Z) :=
  Err refusal.

Definition placeBetParams : PlaceBetParams.t Z :=
  PlaceBetParams.mk "agent1" "u1" 5%Z "r1" "T1" None "G1".

Definition settleBetParams : SettleBetParams.t Z :=
  SettleBetParams.mk "agent1" "T1" "u1" 0%Z "r1" 5%Z "G1" None.

Definition refundTransaction : RefundTransaction.t Z :=
  RefundTransaction.mk "T1" "R1" 5%Z 0%Z None "t0" "t1" "r1" "G1" None.

Definition refundBetParams (txns : list (RefundTransaction.t Z))
  : RefundBetParams.t Z :=
  RefundBetParams.mk "agent1" "u1" txns.

(** "T1" and "T2" placed in game "G1" at times 10 and 12. *)
Definition twoBets : Store :=
  run noValidator
    [(10, OpCreatePlacement (place "T1" "G1" "5.00"));
     (12, OpCreatePlacement (place "T2" "G1" "7.00"))]
    emptyStore.

(** Collaborators like [env], with an audit log that rejects every
    write. *)
Definition envWithoutAudit (reply : Result (JsError.t Z) (HttpResponse.t Z))
  : Env.t Z :=
  withServices (env reply) (fun _ => AuditRejected) (fun _ => true).

End Sample.

(** * Properties *)

Unset Implicit Arguments.

(** ** [Number()] on the money strings of the specification *)

Example Number_examples :
  map JS.Number_gt0
    ["10.500"; "0.000"; ""; "abc"; "-5"; " 7 "; ".5"; "5."; "."; "1e3";
     "1e-400"; "0x10"; "0x"; "+Infinity"; "-Infinity"; "1e"; "0.00"; "9.00";
     "1,5"; "00.001"]
  = [true; false; false; false; false; true; true; true; false; true;
     false; true; false; true; false; false; false; true;
     false; true].
Proof. vm_compute. reflexivity. Qed.

Lemma Number_gt0_truthy :
  forall s, JS.truthy_string s && JS.Number_gt0 s = JS.Number_gt0 s.
Proof.
  intros [|c s]; [vm_compute|]; reflexivity.
Qed.

(** ** The repository *)

Lemma findOne_In :
  forall where_ s b, findOne where_ s = Some b ->
    In b (rows s) /\ where_ b = true.
Proof. intros where_ s b H. apply find_some. exact H. Qed.

Lemma findOne_exists :
  forall where_ s r, In r (rows s) -> where_ r = true ->
    exists b, findOne where_ s = Some b.
Proof.
  intros where_ s r Hin Hw. unfold findOne.
  destruct (find where_ (rows s)) as [b|] eqn:E.
  - now exists b.
  - apply (find_none _ _ E) in Hin. congruence.
Qed.

Lemma touch_id : forall now b, Bet.id (Bet.touch now b) = Bet.id b.
Proof. reflexivity. Qed.

Lemma touch_status : forall now b, Bet.status (Bet.touch now b) = Bet.status b.
Proof. reflexivity. Qed.

(** Distinct keys: two rows of the table with one id are one row. *)
Lemma same_id_same_row :
  forall (l : list Bet.t) a b,
    NoDup (map Bet.id l) -> In a l -> In b l -> Bet.id a = Bet.id b -> a = b.
Proof.
  induction l as [|x l IH]; intros a b Hnd Ha Hb Hid; [contradiction|].
  simpl in Hnd. inversion Hnd as [|? ? Hnotin Hnd']; subst.
  destruct Ha as [Ha|Ha], Hb as [Hb|Hb]; subst.
  - reflexivity.
  - exfalso. apply Hnotin. rewrite Hid. now apply in_map.
  - exfalso. apply Hnotin. rewrite <- Hid. now apply in_map.
  - now apply IH.
Qed.

(** Saving a loaded row keeps every key in place. *)
Lemma save_ids :
  forall now b s,
    map Bet.id (rows (snd (save now b s))) = map Bet.id (rows s).
Proof.
  intros now b s. simpl. induction (rows s) as [|r l IH]; simpl; [reflexivity|].
  rewrite IH. destruct (Nat.eqb_spec (Bet.id r) (Bet.id b)) as [E|E].
  - now rewrite touch_id, E.
  - reflexivity.
Qed.

Lemma save_nextId :
  forall now b s, nextId (snd (save now b s)) = nextId s.
Proof. reflexivity. Qed.

Lemma save_In :
  forall now b old s,
    In old (rows s) -> Bet.id b = Bet.id old ->
    In (fst (save now b s)) (rows (snd (save now b s))).
Proof.
  intros now b old s Hin Hid. simpl. apply in_map_iff.
  exists old. split; [|exact Hin].
  rewrite Hid, Nat.eqb_refl. reflexivity.
Qed.

(** Saving the row loaded as [old] relates the table before and after
    row by row, by any reflexive relation that [old] and its saved
    version satisfy. *)
Lemma save_rows_related :
  forall (R : Bet.t -> Bet.t -> Prop) now b old s,
    (forall r, R r r) ->
    NoDup (map Bet.id (rows s)) ->
    In old (rows s) -> Bet.id b = Bet.id old ->
    R old (Bet.touch now b) ->
    Forall2 R (rows s) (rows (snd (save now b s))).
Proof.
  intros R now b old s Hrefl Hnd Hin Hid HR. simpl.
  assert (Hall : forall r, In r (rows s) -> In r (rows s)) by auto.
  revert Hall. generalize (rows s) at 1 3 4 as l.
  induction l as [|r l IH]; intros Hall; simpl; constructor.
  - destruct (Nat.eqb_spec (Bet.id r) (Bet.id b)) as [E|E].
    + assert (r = old) as ->.
      { apply (same_id_same_row (rows s)); auto.
        - apply Hall. now left.
        - congruence. }
      exact HR.
    + apply Hrefl.
  - apply IH. intros x Hx. apply Hall. now right.
Qed.

Lemma wellKeyed_save :
  forall now b s, wellKeyed s -> wellKeyed (snd (save now b s)).
Proof.
  intros now b s [Hnd Hlt]. split.
  - now rewrite save_ids.
  - rewrite save_nextId.
    apply Forall_forall. intros x Hx.
    assert (In (Bet.id x) (map Bet.id (rows s))) as Hid.
    { rewrite <- (save_ids now b s). now apply in_map. }
    apply in_map_iff in Hid. destruct Hid as [y [Hy Hin]].
    rewrite Forall_forall in Hlt. rewrite <- Hy. now apply Hlt.
Qed.

Lemma wellKeyed_insert :
  forall u mkRow s,
    (forall n, Bet.id (mkRow n) = n) ->
    wellKeyed s -> wellKeyed (snd (insert u mkRow s)).
Proof.
  intros u mkRow s Hmk [Hnd Hlt]. unfold insert.
  destruct (u && existsb _ (rows s)); [now split|].
  unfold wellKeyed. simpl. split.
  - rewrite map_app. simpl. rewrite Hmk.
    apply NoDup_app; [exact Hnd| repeat constructor; intros [] | ].
    intros i Hi [Hx|[]]. subst i.
    apply in_map_iff in Hi. destruct Hi as [y [Hy Hin]].
    rewrite Forall_forall in Hlt. apply Hlt in Hin. lia.
  - apply Forall_app. split.
    + eapply Forall_impl; [|exact Hlt]. simpl. intros; lia.
    + constructor; [rewrite Hmk; lia|constructor].
Qed.

(** ** createPlacement *)

Lemma whereByExternalTx_key :
  forall tx g r,
    placementKey tx g r = true ->
    BetService.whereByExternalTx tx (Some g) r = true.
Proof.
  unfold placementKey, BetService.whereByExternalTx. intros tx g r H.
  apply andb_true_iff in H. destruct H as [-> Hg]. simpl.
  now destruct (JS.truthy_string g).
Qed.

Lemma whereByExternalTx_tx :
  forall tx g r,
    BetService.whereByExternalTx tx g r = true ->
    (Bet.externalPlatformTxId r =? tx)%string = true.
Proof.
  unfold BetService.whereByExternalTx. intros tx g r H.
  now apply andb_true_iff in H.
Qed.

(** The where-clause of the placement lookup is at least as wide as the
    placement key: with an empty game code it filters on the id alone. *)
Lemma key_count_of_lookup_miss :
  forall tx g s,
    findOne (BetService.whereByExternalTx tx (Some g)) s = None ->
    filter (placementKey tx g) (rows s) = [].
Proof.
  intros tx g s H. unfold findOne in H.
  induction (rows s) as [|r l IH]; [reflexivity|]. simpl in *.
  destruct (BetService.whereByExternalTx tx (Some g) r) eqn:E; [discriminate|].
  destruct (placementKey tx g r) eqn:K.
  - apply whereByExternalTx_key in K. congruence.
  - now apply IH.
Qed.

Lemma createPlacement_conflict :
  forall deps now p s r,
    validatorAccepts deps (CreateBetParams.gameCode p) ->
    In r (rows s) ->
    placementKey (CreateBetParams.externalPlatformTxId p)
      (CreateBetParams.gameCode p) r = true ->
    BetService.createPlacement deps now p s
    = (Err (ConflictException BetService.ERROR_MESSAGES.BET_EXISTS), s).
Proof.
  intros deps now p s r Hv Hin Hkey.
  unfold BetService.createPlacement, validatorAccepts in *.
  assert (Hval :
    match BetService.gameValidationService deps with
    | Some validateGame => validateGame (CreateBetParams.gameCode p)
    | None => None
    end = None).
  { destruct (BetService.gameValidationService deps); auto. }
  rewrite Hval.
  destruct (findOne_exists _ s r Hin (whereByExternalTx_key _ _ _ Hkey))
    as [b ->].
  reflexivity.
Qed.

(** C1 (as amended).  When the optional game validator, if one is
    configured, accepts the game code: a placement whose
    (externalPlatformTxId, gameCode) pair is already stored fails with
    Conflict and leaves the table as it was; a first call that inserts
    stores a row whose status is the caller's or else Placed, after
    which exactly one row carries the pair and a second call with the
    same pair fails with Conflict without any mutation; and the first
    call does insert when no row carries the transaction id. *)
Theorem createPlacement_is_idempotent :
  forall deps now now' p p' s,
    validatorAccepts deps (CreateBetParams.gameCode p) ->
    CreateBetParams.externalPlatformTxId p'
    = CreateBetParams.externalPlatformTxId p ->
    CreateBetParams.gameCode p' = CreateBetParams.gameCode p ->
    (existsb
       (placementKey (CreateBetParams.externalPlatformTxId p)
          (CreateBetParams.gameCode p)) (rows s) = true ->
     BetService.createPlacement deps now p s
     = (Err (ConflictException BetService.ERROR_MESSAGES.BET_EXISTS), s))
    /\
    (forall row s1,
       BetService.createPlacement deps now p s = (Ok row, s1) ->
       Bet.status row = nullish (CreateBetParams.status p) PLACED /\
       rows s1 = rows s ++ [row] /\
       length
         (filter
            (placementKey (CreateBetParams.externalPlatformTxId p)
               (CreateBetParams.gameCode p)) (rows s1)) = 1 /\
       BetService.createPlacement deps now' p' s1
       = (Err (ConflictException BetService.ERROR_MESSAGES.BET_EXISTS), s1))
    /\
    (existsb
       (fun r => (Bet.externalPlatformTxId r
                  =? CreateBetParams.externalPlatformTxId p)%string)
       (rows s) = false ->
     exists row s1, BetService.createPlacement deps now p s = (Ok row, s1)).
Proof.
  intros deps now now' p p' s Hv Htx Hg.
  assert (Hval :
    match BetService.gameValidationService deps with
    | Some validateGame => validateGame (CreateBetParams.gameCode p)
    | None => None
    end = None).
  { unfold validatorAccepts in Hv.
    destruct (BetService.gameValidationService deps); auto. }
  split; [|split].
  - intros Hex. apply existsb_exists in Hex. destruct Hex as [r [Hin Hkey]].
    now apply createPlacement_conflict with r.
  - intros row s1 Hcall.
    unfold BetService.createPlacement in Hcall. rewrite Hval in Hcall.
    destruct (findOne _ s) as [b|] eqn:Hfind; [discriminate|].
    unfold insert in Hcall.
    destruct (BetService.uniqueTxIndex deps && existsb _ (rows s));
      [discriminate|].
    injection Hcall as Hrow Hs1. subst s1.
    assert (Hkey :
      placementKey (CreateBetParams.externalPlatformTxId p)
        (CreateBetParams.gameCode p) row = true).
    { subst row. unfold placementKey. simpl.
      now rewrite !String.eqb_refl. }
    simpl rows. rewrite Hrow.
    split; [|split; [|split]].
    + now subst row.
    + reflexivity.
    + rewrite filter_app, (key_count_of_lookup_miss _ _ _ Hfind). simpl.
      now rewrite Hkey.
    + apply createPlacement_conflict with row.
      * unfold validatorAccepts in *. now rewrite Hg.
      * simpl. apply in_or_app. right. now left.
      * now rewrite Htx, Hg.
  - intros Hnone.
    unfold BetService.createPlacement. rewrite Hval.
    destruct (findOne _ s) as [b|] eqn:Hfind.
    + exfalso. apply findOne_In in Hfind. destruct Hfind as [Hin Hw].
      apply whereByExternalTx_tx in Hw.
      assert (existsb
                (fun r => (Bet.externalPlatformTxId r
                           =? CreateBetParams.externalPlatformTxId p)%string)
                (rows s) = true) as Hyes
        by (apply existsb_exists; now exists b).
      congruence.
    + unfold insert. simpl. rewrite Hnone, andb_false_r.
      eexists. eexists. reflexivity.
Qed.

(** The scenario of the specification: ("T1", "G1", "5.00") placed on an
    empty table, then placed again. *)
Lemma createPlacement_is_idempotent_witness :
  exists row,
    BetService.createPlacement Sample.noValidator 10
      (Sample.place "T1" "G1" "5.00") emptyStore
    = (Ok row, Sample.placed) /\
    Bet.status row = PLACED /\
    length (filter (placementKey "T1" "G1") (rows Sample.placed)) = 1 /\
    BetService.createPlacement Sample.noValidator 11
      (Sample.place "T1" "G1" "7.00") Sample.placed
    = (Err (ConflictException BetService.ERROR_MESSAGES.BET_EXISTS),
       Sample.placed).
Proof.
  eexists. split; [reflexivity|].
  destruct (createPlacement_is_idempotent Sample.noValidator 10 11
              (Sample.place "T1" "G1" "5.00") (Sample.place "T1" "G1" "7.00")
              emptyStore I eq_refl eq_refl) as [_ [H _]].
  destruct (H _ _ eq_refl) as [Hst [_ [Hcount Hsecond]]].
  split; [exact Hst|]. split; [exact Hcount|exact Hsecond].
Defined.

(** C1, counterexample.  With a validator that rejects the game code, a
    placement whose pair is already stored fails with the validator's
    NotFound, not with Conflict. *)
Lemma createPlacement_validator_runs_first :
  ~ (forall deps now p s,
       existsb
         (placementKey (CreateBetParams.externalPlatformTxId p)
            (CreateBetParams.gameCode p)) (rows s) = true ->
       exists message,
         fst (BetService.createPlacement deps now p s)
         = Err (ConflictException message)).
Proof.
  intros H.
  destruct (H Sample.closedValidator 11 (Sample.place "T1" "G1" "5.00")
              Sample.placed eq_refl) as [message Hm].
  vm_compute in Hm. discriminate Hm.
Qed.

(** ** recordSettlement *)

Lemma alreadySettled_spec :
  forall st, BetService.alreadySettled st = true <-> st = WON \/ st = LOST.
Proof.
  intros st. split.
  - destruct st; simpl; intros H; try discriminate; auto.
  - intros [-> | ->]; reflexivity.
Qed.

Lemma not_alreadySettled :
  forall st, st <> WON -> st <> LOST -> BetService.alreadySettled st = false.
Proof.
  intros st H1 H2.
  destruct st; try reflexivity; [now elim H1 | now elim H2].
Qed.

Lemma settlementStatus_derived :
  forall w, BetService.settlementStatus None w = WON
            \/ BetService.settlementStatus None w = LOST.
Proof.
  intros w. unfold BetService.settlementStatus.
  destruct (_ && _); [now left|now right].
Qed.

(** C2.  When the row found for the transaction id is Won or Lost,
    recordSettlement returns that very row, whatever the parameters,
    and the table is left as it was: nothing is written. *)
Theorem recordSettlement_on_terminal_bet_is_noop :
  forall now params s bet,
    findOne
      (BetService.whereByExternalTx
         (SettlementParams.externalPlatformTxId params) None) s = Some bet ->
    Bet.status bet = WON \/ Bet.status bet = LOST ->
    BetService.recordSettlement now params s = (Ok bet, s).
Proof.
  intros now params s bet Hfind Hst.
  unfold BetService.recordSettlement. rewrite Hfind.
  apply alreadySettled_spec in Hst. now rewrite Hst.
Qed.

(** The scenario of the specification: "T1" won with "10.500"; settling
    it again with "9.00" returns the row as stored. *)
Lemma recordSettlement_on_terminal_bet_is_noop_witness :
  exists bet,
    Bet.status bet = WON /\ Bet.winAmount bet = Some "10.500" /\
    BetService.recordSettlement 30 (Sample.settle "T1" "9.00") Sample.won
    = (Ok bet, Sample.won).
Proof.
  eexists. split; [|split];
    [| | eapply (recordSettlement_on_terminal_bet_is_noop 30
                  (Sample.settle "T1" "9.00") Sample.won);
         [reflexivity | left; reflexivity]];
    reflexivity.
Defined.

(** What recordSettlement does to a row that is neither Won nor Lost:
    the row is saved with the win amount, the actor, the settlement time
    and the resolved status; every other field is the caller's value
    when supplied and the stored one otherwise. *)
Lemma recordSettlement_on_open_bet :
  forall now params s bet,
    findOne
      (BetService.whereByExternalTx
         (SettlementParams.externalPlatformTxId params) None) s = Some bet ->
    BetService.alreadySettled (Bet.status bet) = false ->
    exists settled s',
      BetService.recordSettlement now params s = (Ok settled, s') /\
      In settled (rows s') /\
      rows s'
      = map (fun r => if Bet.id r =? Bet.id bet then settled else r) (rows s) /\
      Bet.id settled = Bet.id bet /\
      Bet.externalPlatformTxId settled = Bet.externalPlatformTxId bet /\
      Bet.winAmount settled = Some (SettlementParams.winAmount params) /\
      Bet.updatedBy settled = Some (SettlementParams.updatedBy params) /\
      Bet.settledAt settled
      = Some (nullish (SettlementParams.settledAt params) now) /\
      Bet.status settled
      = BetService.settlementStatus (SettlementParams.status params)
          (SettlementParams.winAmount params) /\
      settlementMerges params bet settled /\
      Bet.createdAt settled = Bet.createdAt bet /\
      Bet.createdBy settled = Bet.createdBy bet.
Proof.
  intros now params s bet Hfind Hopen.
  unfold BetService.recordSettlement. rewrite Hfind, Hopen.
  apply findOne_In in Hfind. destruct Hfind as [Hin _].
  match goal with
  | |- context [save now ?b s] =>
      pose proof (save_In now b bet s Hin eq_refl) as Hsaved;
      destruct (save now b s) as [settled s'] eqn:Hsave
  end.
  exists settled, s'. split; [reflexivity|].
  split; [exact Hsaved|].
  unfold save in Hsave. injection Hsave as <- <-.
  unfold settlementMerges. simpl.
  destruct (SettlementParams.settledAt params);
    repeat (split; try reflexivity).
Qed.

(** C5.  For a row found by recordSettlement that is neither Won nor
    Lost, the status returned and persisted is the caller's explicit
    status when one is supplied; otherwise it is Won exactly when
    [Number(winAmount) > 0] for the win amount just stored, and Lost
    otherwise: "10.500" gives Won and "0.000" gives Lost. *)
Theorem recordSettlement_resolves_status :
  forall now params s bet,
    findOne
      (BetService.whereByExternalTx
         (SettlementParams.externalPlatformTxId params) None) s = Some bet ->
    Bet.status bet <> WON -> Bet.status bet <> LOST ->
    exists settled s',
      BetService.recordSettlement now params s = (Ok settled, s') /\
      In settled (rows s') /\
      Bet.winAmount settled = Some (SettlementParams.winAmount params) /\
      (forall st, SettlementParams.status params = Some st ->
                  Bet.status settled = st) /\
      (SettlementParams.status params = None ->
       (Bet.status settled = WON <->
        JS.Number_gt0 (SettlementParams.winAmount params) = true) /\
       (Bet.status settled = LOST <->
        JS.Number_gt0 (SettlementParams.winAmount params) = false) /\
       (SettlementParams.winAmount params = "10.500" ->
        Bet.status settled = WON) /\
       (SettlementParams.winAmount params = "0.000" ->
        Bet.status settled = LOST)).
Proof.
  intros now params s bet Hfind Hw Hl.
  destruct (recordSettlement_on_open_bet now params s bet Hfind
              (not_alreadySettled _ Hw Hl))
    as (settled & s' & Hcall & Hin & _ & _ & _ & Hwin & _ & _ & Hst & _).
  exists settled, s'. split; [exact Hcall|]. split; [exact Hin|].
  split; [exact Hwin|]. rewrite Hst. split.
  - intros st ->. reflexivity.
  - intros ->. unfold BetService.settlementStatus.
    rewrite Number_gt0_truthy.
    destruct (JS.Number_gt0 (SettlementParams.winAmount params)) eqn:E.
    + repeat split; intros; try reflexivity; try discriminate.
      match goal with H : _ = "0.000" |- _ => rewrite H in E end.
      vm_compute in E. discriminate.
    + repeat split; intros; try reflexivity; try discriminate.
      match goal with H : _ = "10.500" |- _ => rewrite H in E end.
      vm_compute in E. discriminate.
Qed.

(** "T1" placed, then settled with "0.000" and no explicit status. *)
Lemma recordSettlement_resolves_status_witness :
  exists settled s',
    BetService.recordSettlement 20 (Sample.settle "T1" "0.000") Sample.placed
    = (Ok settled, s') /\
    Bet.status settled = LOST.
Proof.
  destruct (recordSettlement_resolves_status 20 (Sample.settle "T1" "0.000")
              Sample.placed Sample.placedRow eq_refl)
    as (settled & s' & Hcall & _ & _ & _ & Hderived).
  - vm_compute. discriminate.
  - vm_compute. discriminate.
  - exists settled, s'. split; [exact Hcall|].
    destruct (Hderived eq_refl) as (_ & _ & _ & Hzero).
    apply Hzero. reflexivity.
Defined.

(** X1.  In the first declaration of recordSettlement, for a row that
    is neither Won nor Lost, every optional field other than [status]
    that the caller omits keeps its stored value, and [settledAt] is the
    caller's value when supplied and the clock reading otherwise. *)
Lemma recordSettlement_keeps_omitted_fields :
  forall now params s bet,
    findOne
      (BetService.whereByExternalTx
         (SettlementParams.externalPlatformTxId params) None) s = Some bet ->
    BetService.alreadySettled (Bet.status bet) = false ->
    exists settled s',
      BetService.recordSettlement now params s = (Ok settled, s') /\
      (SettlementParams.gameMetadata params = None ->
       Bet.gameMetadata settled = Bet.gameMetadata bet) /\
      (SettlementParams.settlementRefTxId params = None ->
       Bet.settlementRefTxId settled = Bet.settlementRefTxId bet) /\
      (SettlementParams.balanceAfterSettlement params = None ->
       Bet.balanceAfterSettlement settled = Bet.balanceAfterSettlement bet) /\
      (SettlementParams.gameInfo params = None ->
       Bet.gameInfo settled = Bet.gameInfo bet) /\
      (SettlementParams.finalCoeff params = None ->
       Bet.finalCoeff settled = Bet.finalCoeff bet) /\
      (SettlementParams.withdrawCoeff params = None ->
       Bet.withdrawCoeff settled = Bet.withdrawCoeff bet) /\
      (SettlementParams.fairnessData params = None ->
       Bet.fairnessData settled = Bet.fairnessData bet) /\
      (SettlementParams.userId params = None ->
       Bet.userId settled = Bet.userId bet) /\
      (SettlementParams.roundId params = None ->
       Bet.roundId settled = Bet.roundId bet) /\
      (SettlementParams.betAmount params = None ->
       Bet.betAmount settled = Bet.betAmount bet) /\
      (SettlementParams.currency params = None ->
       Bet.currency settled = Bet.currency bet) /\
      (SettlementParams.gameCode params = None ->
       Bet.gameCode settled = Bet.gameCode bet) /\
      (SettlementParams.isPremium params = None ->
       Bet.isPremium settled = Bet.isPremium bet) /\
      (SettlementParams.betPlacedAt params = None ->
       Bet.betPlacedAt settled = Bet.betPlacedAt bet) /\
      (SettlementParams.balanceAfterBet params = None ->
       Bet.balanceAfterBet settled = Bet.balanceAfterBet bet) /\
      (SettlementParams.operatorId params = None ->
       Bet.operatorId settled = Bet.operatorId bet) /\
      (forall d, SettlementParams.settledAt params = Some d ->
                 Bet.settledAt settled = Some d) /\
      (SettlementParams.settledAt params = None ->
       Bet.settledAt settled = Some now).
Proof.
  intros now params s bet Hfind Hopen.
  destruct (recordSettlement_on_open_bet now params s bet Hfind Hopen)
    as (settled & s' & Hcall & _ & _ & _ & _ & _ & _ & Hat & _ & Hmerge & _).
  exists settled, s'. split; [exact Hcall|].
  unfold settlementMerges in Hmerge.
  decompose [and] Hmerge. clear Hmerge.
  repeat match goal with
         | |- _ /\ _ => split
         | |- _ = None -> _ => let E := fresh in intros E; rewrite E in *
         | |- forall d, _ = Some d -> _ =>
             let E := fresh in intros ? E; rewrite E in *
         end; simpl in *; assumption.
Qed.

(** "T1" placed with [gameInfo = "session-1"], then settled by a request
    that supplies the required fields only. *)
Lemma recordSettlement_keeps_omitted_fields_witness :
  exists settled s',
    BetService.recordSettlement 20 (Sample.settle "T1" "0.000") Sample.placed
    = (Ok settled, s') /\
    Bet.gameInfo settled = Some "session-1" /\
    Bet.betAmount settled = "5.00" /\
    Bet.settledAt settled = Some 20.
Proof.
  destruct (recordSettlement_keeps_omitted_fields 20
              (Sample.settle "T1" "0.000") Sample.placed Sample.placedRow
              eq_refl eq_refl)
    as (settled & s' & Hcall & _ & _ & _ & Hinfo & _ & _ & _ & _ & _
        & Hamount & _ & _ & _ & _ & _ & _ & _ & Hat).
  exists settled, s'. split; [exact Hcall|].
  split; [exact (Hinfo eq_refl)|].
  split; [exact (Hamount eq_refl)|exact (Hat eq_refl)].
Defined.

(** X2.  recordSettlement on a transaction id that no row carries fails
    with NotFound and leaves the table as it was. *)
Lemma recordSettlement_unknown_transaction :
  forall now params s,
    findOne
      (BetService.whereByExternalTx
         (SettlementParams.externalPlatformTxId params) None) s = None ->
    BetService.recordSettlement now params s
    = (Err (NotFoundException BetService.ERROR_MESSAGES.SETTLEMENT_NOT_FOUND),
       s).
Proof.
  intros now params s Hfind. unfold BetService.recordSettlement.
  now rewrite Hfind.
Qed.

(** Settling "T9" on the table that holds "T1" only. *)
Lemma recordSettlement_unknown_transaction_witness :
  BetService.recordSettlement 20 (Sample.settle "T9" "1.000") Sample.placed
  = (Err (NotFoundException "Bet not found for settlement"), Sample.placed).
Proof.
  apply (recordSettlement_unknown_transaction 20 (Sample.settle "T9" "1.000")
           Sample.placed).
  reflexivity.
Defined.

(** The second declaration on a row that is neither Won nor Lost: the
    settlement fields take the parameter as it is, supplied or not; only
    [gameMetadata] is guarded. *)
Lemma recordSettlementAlt_on_open_bet :
  forall now params s bet,
    findOne
      (BetService.whereByExternalTx
         (SettlementParamsAlt.externalPlatformTxId params) None) s
    = Some bet ->
    BetService.alreadySettled (Bet.status bet) = false ->
    exists settled s',
      BetServiceAlt.recordSettlement now params s = (Ok settled, s') /\
      Bet.settlementRefTxId settled
      = SettlementParamsAlt.settlementRefTxId params /\
      Bet.balanceAfterSettlement settled
      = SettlementParamsAlt.balanceAfterSettlement params /\
      Bet.gameInfo settled = SettlementParamsAlt.gameInfo params /\
      Bet.finalCoeff settled = SettlementParamsAlt.finalCoeff params /\
      Bet.withdrawCoeff settled = SettlementParamsAlt.withdrawCoeff params /\
      Bet.fairnessData settled = SettlementParamsAlt.fairnessData params /\
      Bet.gameMetadata settled
      = providedOpt (SettlementParamsAlt.gameMetadata params)
          (Bet.gameMetadata bet).
Proof.
  intros now params s bet Hfind Hopen.
  unfold BetServiceAlt.recordSettlement. rewrite Hfind, Hopen.
  unfold save. simpl. eexists. eexists.
  repeat (split; try reflexivity).
Qed.

(** C6, the failing input.  "T1" is stored Placed with
    [gameInfo = "session-1"] and settled by a request that omits
    [gameInfo].  The first declaration of recordSettlement returns the
    row with the stored [gameInfo]; the second declaration returns it
    without one. *)
Theorem recordSettlementAlt_clears_omitted_gameInfo :
  findOne (BetService.whereByExternalTx "T1" None) Sample.placed
  = Some Sample.placedRow /\
  Bet.gameInfo Sample.placedRow = Some "session-1" /\
  SettlementParamsAlt.gameInfo (Sample.settleAlt "T1" "0.000") = None /\
  (exists settled s',
     BetService.recordSettlement 20 (Sample.settle "T1" "0.000") Sample.placed
     = (Ok settled, s') /\
     Bet.gameInfo settled = Some "session-1") /\
  (exists settled s',
     BetServiceAlt.recordSettlement 20 (Sample.settleAlt "T1" "0.000")
       Sample.placed
     = (Ok settled, s') /\
     Bet.gameInfo settled = None).
Proof.
  repeat split; try (eexists; eexists; split; reflexivity).
Qed.

(** The merge of a settlement read field by field: what the caller
    supplies is written, what the caller omits is kept. *)
Lemma settlementMerges_written :
  forall now params bet settled,
    settlementMerges params bet settled ->
    Bet.settledAt settled
    = Some (nullish (SettlementParams.settledAt params) now) ->
    suppliedFieldsWritten params settled.
Proof.
  intros now params bet settled Hmerge Hat.
  unfold settlementMerges in Hmerge. decompose [and] Hmerge. clear Hmerge.
  unfold suppliedFieldsWritten.
  repeat match goal with
         | |- _ /\ _ => split
         | |- forall v, _ = Some v -> _ =>
             let E := fresh in intros ? E; rewrite E in *
         end; simpl in *; assumption.
Qed.

Lemma settlementMerges_kept :
  forall params bet settled,
    settlementMerges params bet settled ->
    omittedFieldsKept params bet settled.
Proof.
  intros params bet settled Hmerge.
  unfold settlementMerges in Hmerge. decompose [and] Hmerge. clear Hmerge.
  unfold omittedFieldsKept.
  repeat match goal with
         | |- _ /\ _ => split
         | |- _ = None -> _ => let E := fresh in intros E; rewrite E in *
         end; simpl in *; assumption.
Qed.

(** C9.  The short-circuit of recordSettlement covers Won and Lost only.
    For a row found in any other status (Placed, PendingSettlement,
    Cancelled, Refunded, SettlementFailed) the call succeeds and
    writes: the row is replaced in the table, with the win amount, the
    actor and the settlement time set and every optional field that the
    caller supplies overwritten by the caller's value; its status is the
    caller's if one is supplied and is otherwise re-derived, Won when
    [Number(winAmount) > 0] and Lost when not, which changes the row. *)
Theorem recordSettlement_settles_every_open_status :
  forall now params s bet,
    findOne
      (BetService.whereByExternalTx
         (SettlementParams.externalPlatformTxId params) None) s = Some bet ->
    In (Bet.status bet)
       [PLACED; PENDING_SETTLEMENT; CANCELLED; REFUNDED; SETTLEMENT_FAILED] ->
    exists settled s',
      BetService.recordSettlement now params s = (Ok settled, s') /\
      In settled (rows s') /\
      rows s'
      = map (fun r => if Bet.id r =? Bet.id bet then settled else r) (rows s) /\
      Bet.winAmount settled = Some (SettlementParams.winAmount params) /\
      Bet.updatedBy settled = Some (SettlementParams.updatedBy params) /\
      Bet.settledAt settled
      = Some (match SettlementParams.settledAt params with
              | Some at_ => at_
              | None => now
              end) /\
      suppliedFieldsWritten params settled /\
      (forall st, SettlementParams.status params = Some st ->
                  Bet.status settled = st) /\
      (SettlementParams.status params = None ->
       (Bet.status settled = WON \/ Bet.status settled = LOST) /\
       (Bet.status settled = WON <->
        JS.Number_gt0 (SettlementParams.winAmount params) = true) /\
       settled <> bet).
Proof.
  intros now params s bet Hfind Hst.
  assert (Hopen : BetService.alreadySettled (Bet.status bet) = false).
  { simpl in Hst. decompose [or] Hst; try contradiction;
      match goal with H : _ = Bet.status bet |- _ => rewrite <- H end;
      reflexivity. }
  destruct (recordSettlement_on_open_bet now params s bet Hfind Hopen)
    as (settled & s' & Hcall & Hin & Hrows & _ & _ & Hwin & Hby & Hat
        & Hstatus & Hmerge & _).
  exists settled, s'. repeat (split; [assumption|]).
  split; [exact (settlementMerges_written now _ _ _ Hmerge Hat)|].
  split; [intros st Hsome; now rewrite Hstatus, Hsome|].
  intros Hnone.
  assert (Hterm : Bet.status settled = WON \/ Bet.status settled = LOST).
  { rewrite Hstatus, Hnone. apply settlementStatus_derived. }
  split; [exact Hterm|]. split.
  - rewrite Hstatus, Hnone. unfold BetService.settlementStatus.
    rewrite Number_gt0_truthy.
    destruct (JS.Number_gt0 (SettlementParams.winAmount params));
      split; intros; try reflexivity; discriminate.
  - intros ->. apply alreadySettled_spec in Hterm. congruence.
Qed.

(** A cancelled "T1", stored with session "session-1" and round "r1",
    is settled by a request that supplies a win of "0.000", the session
    "session-2", the round "r2" and the balance "95.000": the row
    becomes Lost and carries the caller's session, round and balance. *)
Lemma recordSettlement_settles_every_open_status_witness :
  exists settled s',
    BetService.recordSettlement 30
      (Sample.settleWith "T1" "0.000" "session-2" "r2" "95.000")
      Sample.cancelled
    = (Ok settled, s') /\
    rows s' = [settled] /\
    Bet.status settled = LOST /\
    Bet.winAmount settled = Some "0.000" /\
    Bet.gameInfo settled = Some "session-2" /\
    Bet.roundId settled = "r2" /\
    Bet.balanceAfterSettlement settled = Some "95.000".
Proof.
  destruct (recordSettlement_settles_every_open_status 30
              (Sample.settleWith "T1" "0.000" "session-2" "r2" "95.000")
              Sample.cancelled
              (Bet.mk 0 "T1" "u1" "r1" None "5.00" None "USD" CANCELLED None
                 false None None "G1" (Some "session-1") None None 10 20
                 (Some "u1") (Some "admin") "op1" None None None)
              eq_refl (or_intror (or_intror (or_introl eq_refl))))
    as (settled & s' & Hcall & _ & Hrows & Hwin & _ & _ & Hwritten & _
        & Hderived).
  destruct Hwritten
    as (_ & _ & Hbalance & Hinfo & _ & _ & _ & _ & Hround & _).
  destruct (Hderived eq_refl) as ([Hw | Hl] & Hiff & _).
  - apply Hiff in Hw. vm_compute in Hw. discriminate Hw.
  - exists settled, s'. split; [exact Hcall|]. split; [exact Hrows|].
    split; [exact Hl|]. split; [exact Hwin|].
    split; [exact (Hinfo _ eq_refl)|].
    split; [exact (Hround _ eq_refl)|exact (Hbalance _ eq_refl)].
Defined.

(** ** Status transitions over sequences of operations *)

Lemma Forall2_refl_on :
  forall (R : Bet.t -> Bet.t -> Prop) (l : list Bet.t),
    (forall r, R r r) -> Forall2 R l l.
Proof. intros R l H. induction l; constructor; auto. Qed.

Lemma Forall2_trans_on :
  forall (R : Bet.t -> Bet.t -> Prop) (l1 l2 l3 : list Bet.t),
    (forall a b c, R a b -> R b c -> R a c) ->
    Forall2 R l1 l2 -> Forall2 R l2 l3 -> Forall2 R l1 l3.
Proof.
  intros R l1 l2 l3 Ht H12. revert l3.
  induction H12; intros l3 H23; inversion H23; subst; constructor; eauto.
Qed.

Lemma wellKeyed_step :
  forall deps call s, wellKeyed s -> wellKeyed (step deps call s).
Proof.
  intros deps [now op] s Hwk. unfold step.
  destruct op as [p|p|p|tx by_|tx by_|p];
    unfold BetService.createPlacement, BetService.recordSettlement,
      BetService.markPendingSettlement, BetService.markSettlementFailed,
      BetService.updateStatus, BetService.updateBet.
  - destruct (match BetService.gameValidationService deps with
              | Some _ => _ | None => _ end); [exact Hwk|].
    destruct (findOne _ s); [exact Hwk|].
    apply wellKeyed_insert; [reflexivity|exact Hwk].
  - destruct (findOne _ s) as [bet|]; [|exact Hwk].
    destruct (BetService.alreadySettled _); [exact Hwk|].
    match goal with
    | |- context [save now ?b s] =>
        pose proof (wellKeyed_save now b s Hwk);
        destruct (save now b s); assumption
    end.
  - destruct (findOne _ s) as [bet|]; [|exact Hwk].
    match goal with
    | |- context [save now ?b s] =>
        pose proof (wellKeyed_save now b s Hwk);
        destruct (save now b s); assumption
    end.
  - destruct (findOne _ s) as [bet|]; [|exact Hwk].
    match goal with
    | |- context [save now ?b s] =>
        pose proof (wellKeyed_save now b s Hwk);
        destruct (save now b s); assumption
    end.
  - destruct (findOne _ s) as [bet|]; [|exact Hwk].
    match goal with
    | |- context [save now ?b s] =>
        pose proof (wellKeyed_save now b s Hwk);
        destruct (save now b s); assumption
    end.
  - destruct (findOne _ s) as [bet|]; [|exact Hwk].
    match goal with
    | |- context [save now ?b s] =>
        pose proof (wellKeyed_save now b s Hwk);
        destruct (save now b s); assumption
    end.
Qed.

Lemma wellKeyed_run :
  forall deps calls s, wellKeyed s -> wellKeyed (run deps calls s).
Proof.
  intros deps calls. unfold run.
  induction calls as [|c calls IH]; intros s Hwk; simpl; [exact Hwk|].
  apply IH. now apply wellKeyed_step.
Qed.

Lemma wellKeyed_reachable :
  forall deps s, reachable deps s -> wellKeyed s.
Proof.
  intros deps s [calls ->]. apply wellKeyed_run.
  split; simpl; constructor.
Qed.

Lemma step_settlement_keeps_settled :
  forall deps now p s,
    wellKeyed s ->
    Forall2 settledRowKept (rows s)
      (rows (step deps (now, OpRecordSettlement p) s)).
Proof.
  intros deps now p s [Hnd _]. unfold step, BetService.recordSettlement.
  assert (Hrefl : forall r, settledRowKept r r) by (split; auto).
  destruct (findOne _ s) as [bet|] eqn:Hfind;
    [|now apply Forall2_refl_on].
  destruct (BetService.alreadySettled (Bet.status bet)) eqn:Hopen;
    [now apply Forall2_refl_on|].
  apply findOne_In in Hfind. destruct Hfind as [Hin _].
  match goal with
  | |- context [save now ?b s] =>
      pose proof (save_rows_related settledRowKept now b bet s Hrefl Hnd Hin
                    eq_refl) as Hrel;
      destruct (save now b s) as [settled s'] eqn:Hsave
  end.
  apply Hrel. split; [reflexivity|]. congruence.
Qed.

Lemma statusKeptOrSettled_refl : forall r, statusKeptOrSettled r r.
Proof. intros r. split; auto. Qed.

Lemma statusKeptOrSettled_trans :
  forall a b c,
    statusKeptOrSettled a b -> statusKeptOrSettled b c ->
    statusKeptOrSettled a c.
Proof.
  intros a b c [Hab Sab] [Hbc Sbc]. split; [congruence|].
  destruct Sab as [Eab | (Tb & Na)], Sbc as [Ebc | (Tc & Nb)].
  - left. congruence.
  - right. rewrite <- Eab. auto.
  - right. rewrite Ebc. auto.
  - destruct Nb as [Nw Nl]. destruct Tb; contradiction.
Qed.

Lemma step_without_status_settles :
  forall deps now op s,
    wellKeyed s -> statusNotSupplied op = true ->
    Forall2 statusKeptOrSettled (rows s) (rows (step deps (now, op) s)).
Proof.
  intros deps now op s [Hnd _] Hop.
  pose proof statusKeptOrSettled_refl as Hrefl.
  unfold step.
  destruct op as [p|p|p|tx by_|tx by_|p]; simpl in Hop; try discriminate;
    unfold BetService.recordSettlement, BetService.updateBet.
  - destruct (SettlementParams.status p) eqn:Hs; [discriminate|].
    destruct (findOne _ s) as [bet|] eqn:Hfind;
      [|now apply Forall2_refl_on].
    destruct (BetService.alreadySettled (Bet.status bet)) eqn:Hopen;
      [now apply Forall2_refl_on|].
    apply findOne_In in Hfind. destruct Hfind as [Hin _].
    match goal with
    | |- context [save now ?b s] =>
        pose proof (save_rows_related statusKeptOrSettled now b bet s Hrefl
                      Hnd Hin eq_refl) as Hrel;
        destruct (save now b s) as [settled s'] eqn:Hsave
    end.
    apply Hrel. split; [reflexivity|]. right.
    unfold Bet.touch. cbn [Bet.status]. split.
    + apply settlementStatus_derived.
    + split; intros E; rewrite E in Hopen; discriminate Hopen.
  - destruct (UpdateBetParams.status p) eqn:Hs; [discriminate|].
    destruct (findOne _ s) as [bet|] eqn:Hfind;
      [|now apply Forall2_refl_on].
    apply findOne_In in Hfind. destruct Hfind as [Hin _].
    match goal with
    | |- context [save now ?b s] =>
        pose proof (save_rows_related statusKeptOrSettled now b bet s Hrefl
                      Hnd Hin eq_refl) as Hrel;
        destruct (save now b s) as [settled s'] eqn:Hsave
    end.
    apply Hrel. split; [reflexivity|]. left. reflexivity.
Qed.

(** A call that carries a status stores it on the row it finds,
    whatever status the row has. *)
Lemma updateStatus_stores_the_status :
  forall now p s bet,
    findOne
      (BetService.whereByExternalTx
         (UpdateBetStatusParams.externalPlatformTxId p) None) s = Some bet ->
    exists saved s',
      BetService.updateStatus now p s = (Ok saved, s') /\
      In saved (rows s') /\
      Bet.id saved = Bet.id bet /\
      Bet.status saved = UpdateBetStatusParams.status p.
Proof.
  intros now p s bet Hfind. unfold BetService.updateStatus. rewrite Hfind.
  apply findOne_In in Hfind. destruct Hfind as [Hin _].
  match goal with
  | |- context [save now ?b s] =>
      pose proof (save_In now b bet s Hin eq_refl) as Hsaved
  end.
  eexists. eexists. split; [reflexivity|].
  split; [exact Hsaved|]. split; reflexivity.
Qed.

Lemma updateBet_stores_the_status :
  forall now p s bet st,
    findOne
      (BetService.whereByExternalTx
         (UpdateBetParams.externalPlatformTxId p) None) s = Some bet ->
    UpdateBetParams.status p = Some st ->
    exists saved s',
      BetService.updateBet now p s = (Ok saved, s') /\
      In saved (rows s') /\
      Bet.id saved = Bet.id bet /\
      Bet.status saved = st.
Proof.
  intros now p s bet st Hfind Hst. unfold BetService.updateBet.
  rewrite Hfind.
  apply findOne_In in Hfind. destruct Hfind as [Hin _].
  match goal with
  | |- context [save now ?b s] =>
      pose proof (save_In now b bet s Hin eq_refl) as Hsaved
  end.
  eexists. eexists. split; [reflexivity|].
  split; [exact Hsaved|]. split; [reflexivity|].
  cbn [fst save Bet.touch Bet.status]. now rewrite Hst.
Qed.

(** A property of single calls extends to sequences when it is
    transitive. *)
Lemma run_related :
  forall (R : Bet.t -> Bet.t -> Prop) (allowed : LedgerOp -> bool) deps,
    (forall r, R r r) ->
    (forall a b c, R a b -> R b c -> R a c) ->
    (forall now op s, wellKeyed s -> allowed op = true ->
                      Forall2 R (rows s) (rows (step deps (now, op) s))) ->
    forall calls s,
      wellKeyed s ->
      forallb (fun call => allowed (snd call)) calls = true ->
      Forall2 R (rows s) (rows (run deps calls s)).
Proof.
  intros R allowed deps Hrefl Htrans Hstep calls. unfold run.
  induction calls as [|[now op] calls IH]; intros s Hwk Hall;
    cbn [fold_left].
  - now apply Forall2_refl_on.
  - simpl in Hall. apply andb_true_iff in Hall. destruct Hall as [Hop Hall].
    apply Forall2_trans_on with (rows (step deps (now, op) s)); auto.
    apply IH; [now apply wellKeyed_step|exact Hall].
Qed.

(** C7 (as amended).  From any table the service can reach:
    - settlement attempts, in any number and with any parameters, leave
      every row that is Won or Lost exactly as it is;
    - under calls that leave the status to the service (recordSettlement
      and updateBet without [status]), in any number, the status of a
      row changes only from a status other than Won and Lost to Won or
      Lost: no row goes back to Placed or to PendingSettlement, and none
      leaves Won or Lost;
    - every other call writes its status on the row it finds, whatever
      the status of that row: updateStatus and updateBet the status
      they are given, markPendingSettlement PendingSettlement,
      markSettlementFailed SettlementFailed, and recordSettlement the
      status it is given when the row is not Won or Lost. *)
Theorem status_is_moved_back_only_on_request :
  forall deps s calls,
    reachable deps s ->
    (forallb (fun call => isSettlement (snd call)) calls = true ->
     Forall2 settledRowKept (rows s) (rows (run deps calls s)))
    /\
    (forallb (fun call => statusNotSupplied (snd call)) calls = true ->
     Forall2 statusKeptOrSettled (rows s) (rows (run deps calls s)))
    /\
    (forall now tx updatedBy bet,
       findOne (BetService.whereByExternalTx tx None) s = Some bet ->
       (forall st,
          exists saved s',
            BetService.updateStatus now
              (UpdateBetStatusParams.mk tx st updatedBy) s
            = (Ok saved, s') /\
            In saved (rows s') /\ Bet.id saved = Bet.id bet /\
            Bet.status saved = st) /\
       (exists saved s',
          BetService.markPendingSettlement now tx updatedBy s
          = (Ok saved, s') /\
          In saved (rows s') /\ Bet.id saved = Bet.id bet /\
          Bet.status saved = PENDING_SETTLEMENT) /\
       (exists saved s',
          BetService.markSettlementFailed now tx updatedBy s
          = (Ok saved, s') /\
          In saved (rows s') /\ Bet.id saved = Bet.id bet /\
          Bet.status saved = SETTLEMENT_FAILED) /\
       (forall p st,
          UpdateBetParams.externalPlatformTxId p = tx ->
          UpdateBetParams.status p = Some st ->
          exists saved s',
            BetService.updateBet now p s = (Ok saved, s') /\
            In saved (rows s') /\ Bet.id saved = Bet.id bet /\
            Bet.status saved = st) /\
       (forall p st,
          SettlementParams.externalPlatformTxId p = tx ->
          SettlementParams.status p = Some st ->
          Bet.status bet <> WON -> Bet.status bet <> LOST ->
          exists saved s',
            BetService.recordSettlement now p s = (Ok saved, s') /\
            In saved (rows s') /\ Bet.id saved = Bet.id bet /\
            Bet.status saved = st)).
Proof.
  intros deps s calls Hreach.
  pose proof (wellKeyed_reachable deps s Hreach) as Hwk.
  split; [|split].
  - intros Hall. apply run_related with (allowed := isSettlement); auto.
    + split; auto.
    + intros a b c [Hab Hab'] [Hbc Hbc']. split; [congruence|].
      intros Ha. specialize (Hab' Ha). subst b. auto.
    + intros now op s0 Hwk0 Hop. destruct op; try discriminate.
      now apply step_settlement_keeps_settled.
  - intros Hall. apply run_related with (allowed := statusNotSupplied); auto.
    + apply statusKeptOrSettled_refl.
    + apply statusKeptOrSettled_trans.
    + intros now op s0 Hwk0 Hop. now apply step_without_status_settles.
  - intros now tx updatedBy bet Hfind.
    split; [|split; [|split; [|split]]].
    + intros st.
      apply (updateStatus_stores_the_status now
               (UpdateBetStatusParams.mk tx st updatedBy) s bet Hfind).
    + apply (updateStatus_stores_the_status now
               (UpdateBetStatusParams.mk tx PENDING_SETTLEMENT updatedBy)
               s bet Hfind).
    + apply (updateStatus_stores_the_status now
               (UpdateBetStatusParams.mk tx SETTLEMENT_FAILED updatedBy)
               s bet Hfind).
    + intros p st Htx Hst. subst tx.
      now apply updateBet_stores_the_status.
    + intros p st Htx Hst Hw Hl. subst tx.
      destruct (recordSettlement_on_open_bet now p s bet Hfind
                  (not_alreadySettled _ Hw Hl))
        as (settled & s' & Hcall & Hin & _ & Hid & _ & _ & _ & _ & Hstatus
            & _).
      exists settled, s'. repeat (split; [assumption|]).
      now rewrite Hstatus, Hst.
Qed.

(** "T1" won with "10.500".  Two more settlements leave the row
    untouched; a settlement and an update without status leave it Won;
    markPendingSettlement makes it PendingSettlement. *)
Lemma status_is_moved_back_only_on_request_witness :
  Forall2 settledRowKept (rows Sample.won)
    (rows (run Sample.noValidator
             [(30, OpRecordSettlement (Sample.settle "T1" "9.00"));
              (31, OpRecordSettlement (Sample.settle "T1" "0.000"))]
             Sample.won))
  /\
  Forall2 statusKeptOrSettled (rows Sample.won)
    (rows (run Sample.noValidator
             [(30, OpRecordSettlement (Sample.settle "T1" "0.000"));
              (31, OpUpdateBet (Sample.amend "T1" "session-2" None))]
             Sample.won))
  /\
  statuses
    (run Sample.noValidator
       [(30, OpRecordSettlement (Sample.settle "T1" "0.000"));
        (31, OpUpdateBet (Sample.amend "T1" "session-2" None))]
       Sample.won) = [WON]
  /\
  exists saved s',
    BetService.markPendingSettlement 30 "T1" "ops" Sample.won
    = (Ok saved, s') /\
    Bet.status saved = PENDING_SETTLEMENT.
Proof.
  assert (Hreach : reachable Sample.noValidator Sample.won).
  { exists [(10, OpCreatePlacement (Sample.place "T1" "G1" "5.00"));
            (20, OpRecordSettlement (Sample.settle "T1" "10.500"))].
    reflexivity. }
  split; [|split; [|split]].
  - apply (status_is_moved_back_only_on_request Sample.noValidator Sample.won
             [(30, OpRecordSettlement (Sample.settle "T1" "9.00"));
              (31, OpRecordSettlement (Sample.settle "T1" "0.000"))] Hreach).
    reflexivity.
  - apply (status_is_moved_back_only_on_request Sample.noValidator Sample.won
             [(30, OpRecordSettlement (Sample.settle "T1" "0.000"));
              (31, OpUpdateBet (Sample.amend "T1" "session-2" None))] Hreach).
    reflexivity.
  - reflexivity.
  - destruct (status_is_moved_back_only_on_request Sample.noValidator
                Sample.won [] Hreach) as (_ & _ & Hwrites).
    destruct (Hwrites 30 "T1" "ops" _ eq_refl)
      as (_ & (saved & s' & Hcall & _ & _ & Hst) & _).
    exists saved, s'. split; [exact Hcall|exact Hst].
Defined.

(** C7, counterexample.  On the reachable table where "T1" is Won, in
    sequences of the operations the claim names:
    [updateStatus({status: PLACED})] takes the row back to Placed, and
    so does updateBet with that status; markPendingSettlement takes it
    back to PendingSettlement and markSettlementFailed to
    SettlementFailed, and from either a settlement of "0.000" makes the
    bet that was Won a Lost one.  On the table where "T1" is Cancelled,
    recordSettlement with the status Placed takes it back to Placed. *)
Lemma updateStatus_moves_won_bet_back_to_placed :
  ~ (forall deps s calls,
       reachable deps s ->
       forallb (fun call => negb (isPlacement (snd call))) calls = true ->
       Forall2
         (fun b b' => Bet.status b <> PLACED -> Bet.status b' <> PLACED)
         (rows s) (rows (run deps calls s)))
  /\
  statuses Sample.won = [WON] /\
  statuses
    (run Sample.noValidator
       [(30, OpUpdateStatus (UpdateBetStatusParams.mk "T1" PLACED "admin"))]
       Sample.won) = [PLACED] /\
  statuses
    (run Sample.noValidator
       [(30, OpUpdateBet (Sample.amend "T1" "session-2" (Some PLACED)))]
       Sample.won) = [PLACED] /\
  statuses
    (run Sample.noValidator [(30, OpMarkPendingSettlement "T1" "ops")]
       Sample.won) = [PENDING_SETTLEMENT] /\
  statuses
    (run Sample.noValidator
       [(30, OpMarkPendingSettlement "T1" "ops");
        (31, OpRecordSettlement (Sample.settle "T1" "0.000"))]
       Sample.won) = [LOST] /\
  statuses
    (run Sample.noValidator [(30, OpMarkSettlementFailed "T1" "ops")]
       Sample.won) = [SETTLEMENT_FAILED] /\
  statuses
    (run Sample.noValidator
       [(30, OpMarkSettlementFailed "T1" "ops");
        (31, OpRecordSettlement (Sample.settle "T1" "0.000"))]
       Sample.won) = [LOST] /\
  statuses Sample.cancelled = [CANCELLED] /\
  statuses
    (run Sample.noValidator
       [(30, OpRecordSettlement (Sample.settleAs "T1" "0.000" PLACED))]
       Sample.cancelled) = [PLACED].
Proof.
  split; [|repeat split].
  intros H.
  assert (Hreach : reachable Sample.noValidator Sample.won).
  { exists [(10, OpCreatePlacement (Sample.place "T1" "G1" "5.00"));
            (20, OpRecordSettlement (Sample.settle "T1" "10.500"))].
    reflexivity. }
  specialize (H Sample.noValidator Sample.won
                [(30, OpUpdateStatus
                        (UpdateBetStatusParams.mk "T1" PLACED "admin"))]
                Hreach eq_refl).
  vm_compute in H. inversion H as [|? ? ? ? Hrow _]; subst.
  apply Hrow; [discriminate|reflexivity].
Qed.

(** ** The wallet gateway *)

Section GatewayProperties.

Variable rt : Runtime.t.

Lemma mapAgentResponse_malformed :
  forall data,
    hasStringStatus rt data = false ->
    mapAgentResponse rt data
    = Err (Nest.InternalServerErrorException (Runtime.number rt)
             "Malformed agent response").
Proof.
  intros data H. unfold hasStringStatus in H. unfold mapAgentResponse.
  destruct data; try reflexivity.
  destruct (getProp rt "status" fields); try reflexivity. discriminate.
Qed.

Lemma mapAgentResponse_wellformed :
  forall data,
    hasStringStatus rt data = true ->
    exists mapped, mapAgentResponse rt data = Ok mapped.
Proof.
  intros data H. unfold hasStringStatus in H. unfold mapAgentResponse.
  destruct data; try discriminate.
  destruct (getProp rt "status" fields); try discriminate.
  eexists. reflexivity.
Qed.

(** A Nest exception reaching a catch block is classified as an HTTP
    error: it has a [response] property. *)
Lemma classifyError_HttpException :
  forall name message,
    classifyError rt (Nest.HttpException (Runtime.number rt) name message)
    = (HTTP_ERROR, None, VUndefined).
Proof. reflexivity. Qed.

Lemma classifyError_InternalServerError :
  forall message,
    classifyError rt
      (Nest.InternalServerErrorException (Runtime.number rt) message)
    = (HTTP_ERROR, None, VUndefined).
Proof. reflexivity. Qed.

Lemma classifyError_transport :
  forall err, isTransportKind (fst (fst (classifyError rt err))) = true.
Proof.
  intros err. unfold classifyError.
  destruct (JsError.response err); [reflexivity|].
  repeat match goal with |- context [if ?c then _ else _] => destruct c end;
    reflexivity.
Qed.

Lemma auditsOf_app :
  forall (w1 w2 : Trace (Runtime.number rt)),
    auditsOf (w1 ++ w2) = auditsOf w1 ++ auditsOf w2.
Proof. intros. unfold auditsOf. apply flat_map_app. Qed.

Lemma retryJobsOf_app :
  forall (w1 w2 : Trace (Runtime.number rt)),
    retryJobsOf (w1 ++ w2) = retryJobsOf w1 ++ retryJobsOf w2.
Proof. intros. unfold retryJobsOf. apply flat_map_app. Qed.

(** What one audit write adds to the log. *)
Lemma logAudit_tail :
  forall env a w,
    exists tail,
      logAudit rt env a w = w ++ tail /\
      (tail = [] \/ tail = [EAudit (auditCount rt w) a]) /\
      (Env.walletAuditService env a = AuditStored ->
       tail = [EAudit (auditCount rt w) a]).
Proof.
  intros env a w. unfold logAudit.
  destruct (Env.walletAuditService env a).
  - eexists. split; [reflexivity|]. split; [now right|reflexivity].
  - exists []. rewrite app_nil_r. split; [reflexivity|].
    split; [now left|discriminate].
  - exists []. rewrite app_nil_r. split; [reflexivity|].
    split; [now left|discriminate].
Qed.

(** What an audit write with its continuation adds to the log: nothing;
    or a job without an audit id; or the record, then possibly the job
    that names it. *)
Lemma logAuditThen_tail :
  forall env a k w,
    exists tail,
      logAuditThen rt env a k w = w ++ tail /\
      (tail = []
       \/ (exists job, k None = Some job /\ tail = [ERetry job])
       \/ tail = [EAudit (auditCount rt w) a]
       \/ (exists job, k (Some (auditCount rt w)) = Some job /\
                       tail = [EAudit (auditCount rt w) a; ERetry job])) /\
      (Env.walletAuditService env a = AuditStored ->
       auditsOf tail = [(auditCount rt w, a)]) /\
      (Env.walletAuditService env a = AuditStored ->
       (forall job, Env.retryJobService env job = true) ->
       tail = EAudit (auditCount rt w) a
              :: match k (Some (auditCount rt w)) with
                 | Some job => [ERetry job]
                 | None => []
                 end).
Proof.
  intros env a k w. unfold logAuditThen, createRetryJobSafely.
  destruct (Env.walletAuditService env a) eqn:Ha.
  - destruct (k (Some (auditCount rt w))) as [job|] eqn:Hk.
    + destruct (Env.retryJobService env job) eqn:Hr.
      * exists [EAudit (auditCount rt w) a; ERetry job].
        rewrite <- app_assoc. split; [reflexivity|].
        split; [|split; reflexivity]. right. right. right. now exists job.
      * exists [EAudit (auditCount rt w) a].
        split; [reflexivity|]. split; [auto|]. split; [reflexivity|].
        intros _ Hall. rewrite Hall in Hr. discriminate.
    + exists [EAudit (auditCount rt w) a]. split; [reflexivity|].
      split; [auto|split; reflexivity].
  - destruct (k None) as [job|] eqn:Hk.
    + destruct (Env.retryJobService env job) eqn:Hr.
      * exists [ERetry job]. split; [reflexivity|].
        split; [|split; discriminate]. right. left. now exists job.
      * exists []. rewrite app_nil_r. split; [reflexivity|].
        split; [auto|split; discriminate].
    + exists []. rewrite app_nil_r. split; [reflexivity|].
      split; [auto|split; discriminate].
  - exists []. rewrite app_nil_r. split; [reflexivity|].
    split; [auto|split; discriminate].
Qed.

Lemma auditCount_app :
  forall (w1 w2 : Trace (Runtime.number rt)),
    auditCount rt (w1 ++ w2) = auditCount rt w1 + auditCount rt w2.
Proof.
  intros. unfold auditCount. now rewrite filter_app, length_app.
Qed.

Lemma auditCount_post :
  forall (w0 : Trace (Runtime.number rt)) url payload,
    auditCount rt (w0 ++ [EPost url payload]) = auditCount rt w0.
Proof.
  intros. unfold auditCount. rewrite filter_app, length_app. simpl. lia.
Qed.

Lemma auditKinds_app :
  forall (w1 w2 : Trace (Runtime.number rt)),
    auditKinds (w1 ++ w2) = auditKinds w1 ++ auditKinds w2.
Proof. intros. unfold auditKinds. now rewrite auditsOf_app, map_app. Qed.

Lemma mapAgentResponse_Err :
  forall data e,
    mapAgentResponse rt data = Err e ->
    hasStringStatus rt data = false /\
    e = Nest.InternalServerErrorException (Runtime.number rt)
          "Malformed agent response".
Proof.
  intros data e H. unfold mapAgentResponse in H. unfold hasStringStatus.
  destruct data; try (injection H as <-; now split).
  destruct (getProp rt "status" fields);
    try (injection H as <-; now split).
  discriminate.
Qed.

(** *** The common shape of the four calls *)

Variable env : Env.t (Runtime.number rt).
Variable agent : Agent.t.
Variable w : Trace (Runtime.number rt).

Lemma logAudit_as_then :
  forall a w0,
    logAudit rt env a w0 = logAuditThen rt env a (fun _ => None) w0.
Proof.
  intros a w0. unfold logAudit, logAuditThen.
  destruct (Env.walletAuditService env a); reflexivity.
Qed.

Ltac shape_facts :=
  repeat match goal with
         | H : classifyError _ _ = _ |- _ => rewrite H
         | |- failureAudit _ _ _ _ => unfold failureAudit; simpl
         | |- continuation _ _ _ => unfold continuation; simpl
         | |- _ /\ _ => split
         | |- forall _, _ => intro
         | |- exists _, _ => eexists
         | |- _ = _ => reflexivity
         end.

Lemma invoke_shape :
  forall clock requestId call,
    Env.agentsService env (agentOf call) = Some agent ->
    exists payload,
      Shape rt env agent w call payload
        (invoke rt env clock requestId call w) /\
      Envelope.key payload = Agent.cert agent.
Proof.
  intros clock requestId call Hagent.
  destruct call as [agentId userId|params|params|[aid uid [|first rest]]];
    simpl in Hagent;
    unfold invoke, getBalance, placeBet, settleBet, refundBet, resolveAgent;
    cbn [RefundBetParams.agentId RefundBetParams.userId
         RefundBetParams.refundTransactions];
    rewrite Hagent; cbv zeta; unfold tryCatch, post;
    (eexists; split; [|shelve]);
    match goal with
    | |- context [Env.httpPost env ?u ?p] =>
        destruct (Env.httpPost env u p) as [resp|err] eqn:Hpost
    end.
  all: try match goal with
    | |- context [mapAgentResponse rt ?d] =>
        destruct (mapAgentResponse rt d) as [mapped|e] eqn:Hmap;
        [ destruct (WalletResponse.status mapped =? "0000")%string eqn:Hst
        | apply mapAgentResponse_Err in Hmap; destruct Hmap as [Hmal ->] ]
    end.
  all: cbn [negb]; cbv iota.
  all: try solve [eapply ShapeSuccess; eauto; reflexivity].
  all: try match goal with
    | |- context [classifyError rt ?e] =>
        is_var e;
        destruct (classifyError rt e) as [[kind httpStatus] responseData]
          eqn:Hclass
    end.
  all: rewrite ?classifyError_InternalServerError, ?logAudit_as_then.
  all: try solve [eapply ShapeRejected; eauto; shape_facts].
  all: try solve [eapply ShapeMalformed; eauto; shape_facts].
  all: try solve [eapply ShapeTransport; eauto; shape_facts].
  Unshelve. all: reflexivity.
Qed.

End GatewayProperties.

(** *** Consequences of the shape *)

Lemma continuation_names_audit :
  forall rt (call : WalletCall (Runtime.number rt)) k,
    continuation rt call k ->
    forall id job, k id = Some job -> RetryParams.walletAuditId job = id.
Proof.
  intros rt call k Hk id job Hjob. unfold continuation in Hk.
  destruct (retried call).
  - destruct (Hk id) as [job' [Hj [Hid _]]]. congruence.
  - rewrite Hk in Hjob. discriminate.
Qed.

Lemma continuation_not_retried :
  forall rt (call : WalletCall (Runtime.number rt)) k,
    continuation rt call k -> retried call = false -> forall id, k id = None.
Proof.
  intros rt call k Hk Hr. unfold continuation in Hk. now rewrite Hr in Hk.
Qed.

(** A call whose agent is unknown sends nothing and queues nothing. *)
Lemma invoke_unknown_agent :
  forall rt env clock requestId call w,
    Env.agentsService env (agentOf call) = None ->
    exists tail,
      invoke rt env clock requestId call w
      = (Err (Nest.NotFoundException (Runtime.number rt)
                ("Agent '" ++ agentOf call ++ "' not found")%string),
         w ++ tail) /\
      retryJobsOf tail = [] /\ postsOf tail = [] /\
      (tail = [] \/ exists a, tail = [EAudit (auditCount rt w) a]).
Proof.
  intros rt env clock requestId call w Hagent.
  destruct call as [agentId userId|params|params|params]; simpl in Hagent;
    unfold invoke, getBalance, placeBet, settleBet, refundBet, resolveAgent;
    rewrite Hagent; cbv zeta;
    try (exists []; rewrite app_nil_r; repeat split; auto; fail).
  simpl. unfold logAudit.
  match goal with
  | |- context [Env.walletAuditService env ?a] =>
      destruct (Env.walletAuditService env a)
  end.
  - eexists. split; [reflexivity|]. repeat split; eauto.
  - exists []. rewrite app_nil_r. repeat split; auto.
  - exists []. rewrite app_nil_r. repeat split; auto.
Qed.

(** C3, what the code does.  A well-formed response whose status is not
    "0000" makes every call fail with the "Agent rejected ..." error,
    but the [throw] stands inside the [try] whose [catch] audits every
    error: with an audit service that stores, the call leaves two audit
    records, a Failure of kind AGENT_REJECTED and then a Failure of
    kind HTTP_ERROR. *)
Theorem rejected_call_is_audited_twice :
  forall rt env clock requestId call w agent resp mapped,
    Env.agentsService env (agentOf call) = Some agent ->
    (forall url payload, Env.httpPost env url payload = Ok resp) ->
    mapAgentResponse rt (HttpResponse.data resp) = Ok mapped ->
    WalletResponse.status mapped <> "0000" ->
    (forall a, Env.walletAuditService env a = AuditStored) ->
    exists message tail,
      invoke rt env clock requestId call w
      = (Err (Nest.InternalServerErrorException (Runtime.number rt) message),
         w ++ tail) /\
      auditKinds tail
      = [(FAILURE, Some AGENT_REJECTED); (FAILURE, Some HTTP_ERROR)].
Proof.
  intros rt env clock requestId call w agent resp mapped
    Hagent Hpost Hmap Hstatus Hstore.
  destruct (invoke_shape rt env agent w clock requestId call Hagent)
    as [payload [Hshape _]].
  inversion Hshape as
    [ err aC kC Hp _ _ Hout
    | resp' aC kC Hp Hmal _ _ Hout
    | resp' mapped' message aR kR aC kC Hp Hm Hst [HaR1 [HaR2 _]] _
        [HaC1 [HaC2 _]] _ Hout
    | resp' mapped' aS Hp Hm Hst _ _ Hout ];
    rewrite Hpost in Hp; try discriminate; injection Hp as <-.
  - apply (mapAgentResponse_malformed rt) in Hmal. congruence.
  - destruct (logAuditThen_tail rt env aR kR
                (w ++ [EPost (Agent.callbackURL agent) payload]))
      as (t1 & -> & _ & Ht1 & _).
    destruct (logAuditThen_tail rt env aC kC
                ((w ++ [EPost (Agent.callbackURL agent) payload]) ++ t1))
      as (t2 & -> & _ & Ht2 & _).
    exists message, ([EPost (Agent.callbackURL agent) payload] ++ t1 ++ t2).
    split; [now rewrite <- !app_assoc|].
    rewrite !auditKinds_app. unfold auditKinds at 1 2 3.
    rewrite (Ht1 (Hstore aR)), (Ht2 (Hstore aC)). simpl.
    now rewrite HaR1, HaR2, HaC1, HaC2.
  - rewrite Hm in Hmap. injection Hmap as ->.
    apply String.eqb_eq in Hst. contradiction.
Qed.

(** The four calls against an agent that answers [{ status: "1001" }]. *)
Lemma rejected_call_is_audited_twice_witness :
  Forall
    (fun call =>
       exists message tail,
         invoke Sample.runtime (Sample.env (Sample.replied "1001"))
           Sample.clock "req-1" call []
         = (Err (Nest.InternalServerErrorException Z message), tail) /\
         auditKinds tail
         = [(FAILURE, Some AGENT_REJECTED); (FAILURE, Some HTTP_ERROR)])
    [GetBalance "agent1" "u1";
     PlaceBet Sample.placeBetParams;
     SettleBet Sample.settleBetParams;
     RefundBet (Sample.refundBetParams [Sample.refundTransaction])].
Proof.
  repeat constructor;
    match goal with
    | |- exists message tail, invoke _ _ _ _ ?call _ = _ /\ _ =>
        destruct (rejected_call_is_audited_twice Sample.runtime
                    (Sample.env (Sample.replied "1001")) Sample.clock "req-1"
                    call [] Sample.agent
                    (HttpResponse.mk 200 (VObject [("status", VString "1001")]))
                    (WalletResponse.mk 0%Z VNull "1001" VNull
                       (VObject [("status", VString "1001")]))
                    eq_refl (fun _ _ => eq_refl) eq_refl
                    ltac:(discriminate) (fun _ => eq_refl))
          as (message & tail & Hcall & Hkinds);
        exists message, tail; split; [exact Hcall|exact Hkinds]
    end.
Defined.

(** C8 (as amended).  A response whose body has no string-typed
    [status] makes every call fail with the "Malformed agent response"
    error, thrown before the status is compared with "0000": no record
    of kind AGENT_REJECTED and no Success record is written.  The error
    passes through the catch block of the call, which audits it once as
    a Failure under one of the transport kinds. *)
Theorem malformed_response_fails_before_the_sentinel :
  forall rt env clock requestId call w agent resp,
    Env.agentsService env (agentOf call) = Some agent ->
    (forall url payload, Env.httpPost env url payload = Ok resp) ->
    hasStringStatus rt (HttpResponse.data resp) = false ->
    (forall a, Env.walletAuditService env a = AuditStored) ->
    exists tail audit kind,
      invoke rt env clock requestId call w
      = (Err (Nest.InternalServerErrorException (Runtime.number rt)
                "Malformed agent response"),
         w ++ tail) /\
      auditsOf tail = [(auditCount rt w, audit)] /\
      AuditParams.status audit = FAILURE /\
      AuditParams.failureType audit = Some kind /\
      kind <> AGENT_REJECTED /\
      isTransportKind kind = true.
Proof.
  intros rt env clock requestId call w agent resp Hagent Hpost Hmal Hstore.
  destruct (invoke_shape rt env agent w clock requestId call Hagent)
    as [payload [Hshape _]].
  inversion Hshape as
    [ err aC kC Hp _ _ Hout
    | resp' aC kC Hp _ [HaC1 [HaC2 _]] _ Hout
    | resp' mapped' message aR kR aC kC Hp Hm _ _ _ _ _ Hout
    | resp' mapped' aS Hp Hm _ _ _ Hout ];
    rewrite Hpost in Hp; try discriminate; injection Hp as <-;
    try (rewrite (mapAgentResponse_malformed rt _ Hmal) in Hm; discriminate).
  destruct (logAuditThen_tail rt env aC kC
              (w ++ [EPost (Agent.callbackURL agent) payload]))
    as (t & -> & _ & Ht & _).
  exists ([EPost (Agent.callbackURL agent) payload] ++ t), aC, HTTP_ERROR.
  split; [now rewrite <- app_assoc|].
  rewrite auditsOf_app, (Ht (Hstore aC)), auditCount_post. simpl.
  repeat split; auto. discriminate.
Qed.

(** getBalance against an agent that answers [{ balance: 5 }]. *)
Lemma malformed_response_fails_before_the_sentinel_witness :
  exists tail,
    getBalance Sample.runtime (Sample.env Sample.repliedWithoutStatus)
      Sample.clock "req-1" "agent1" "u1" []
    = (Err (Nest.InternalServerErrorException Z "Malformed agent response"),
       tail) /\
    auditKinds tail = [(FAILURE, Some HTTP_ERROR)].
Proof.
  destruct (malformed_response_fails_before_the_sentinel Sample.runtime
              (Sample.env Sample.repliedWithoutStatus) Sample.clock "req-1"
              (GetBalance "agent1" "u1") [] Sample.agent
              (HttpResponse.mk 200 (VObject [("balance", VNumber 5%Z)]))
              eq_refl (fun _ _ => eq_refl) eq_refl (fun _ => eq_refl))
    as (tail & audit & kind & Hcall & _).
  exists tail. split; [exact Hcall|].
  injection Hcall as <-. reflexivity.
Defined.

(** C8, counterexample.  The malformed response of the sample agent is
    recorded by getBalance under a transport kind: its audit record has
    [failureType = HTTP_ERROR]. *)
Lemma malformed_response_is_audited_as_transport_failure :
  ~ (forall id audit kind,
       In (id, audit)
          (auditsOf
             (snd (getBalance Sample.runtime
                     (Sample.env Sample.repliedWithoutStatus) Sample.clock
                     "req-1" "agent1" "u1" []))) ->
       AuditParams.failureType audit = Some kind ->
       isTransportKind kind = false).
Proof.
  intros H.
  specialize (H 0 _ HTTP_ERROR (or_introl eq_refl) eq_refl).
  discriminate H.
Qed.

Lemma jobsFollowAudits_app :
  forall (number : Type) (t1 t2 : Trace number) seen,
    jobsFollowAudits seen t1 ->
    (forall seen', jobsFollowAudits seen' t2) ->
    jobsFollowAudits seen (t1 ++ t2).
Proof.
  intros number t1 t2. induction t1 as [|e t1 IH]; intros seen H1 H2; simpl.
  - apply H2.
  - destruct e as [url payload|id record|job]; simpl in H1.
    + now apply IH.
    + now apply IH.
    + destruct H1 as [Hjob H1]. split; [exact Hjob|now apply IH].
Qed.

(** The tail written by an audit with its continuation keeps every job
    behind the record it names. *)
Lemma logAuditThen_follows :
  forall rt env a k w,
    (forall id job, k id = Some job -> RetryParams.walletAuditId job = id) ->
    exists tail,
      logAuditThen rt env a k w = w ++ tail /\
      forall seen, jobsFollowAudits seen tail.
Proof.
  intros rt env a k w Hk.
  destruct (logAuditThen_tail rt env a k w) as (tail & Heq & Hforms & _).
  exists tail. split; [exact Heq|]. intros seen.
  destruct Hforms as [-> | [[job [Hj ->]] | [-> | [job [Hj ->]]]]]; simpl; auto.
  - rewrite (Hk _ _ Hj). auto.
  - rewrite (Hk _ _ Hj). simpl. auto.
Qed.

Lemma logAuditThen_queues_nothing :
  forall rt env a k w,
    (forall id, k id = None) ->
    retryJobsOf (logAuditThen rt env a k w) = retryJobsOf w.
Proof.
  intros rt env a k w Hk.
  destruct (logAuditThen_tail rt env a k w) as (tail & -> & Hforms & _).
  rewrite retryJobsOf_app.
  destruct Hforms as [-> | [[job [Hj ->]] | [-> | [job [Hj ->]]]]];
    rewrite ?Hk in *; try discriminate; simpl; now rewrite app_nil_r.
Qed.

Lemma retryJobsOf_post :
  forall (number : Type) (w : Trace number) url payload,
    retryJobsOf (w ++ [EPost url payload]) = retryJobsOf w.
Proof.
  intros. unfold retryJobsOf. rewrite flat_map_app. simpl.
  now rewrite app_nil_r.
Qed.

(** C4 (as amended).  (1) When the request itself fails (the HTTP
    client throws) and the audit log and the retry queue accept writes,
    a call leaves exactly one Failure audit record; settleBet, and
    refundBet with at least one transaction, then leave exactly one
    retry job, stored after that record and carrying its id; the other
    calls leave no job.  (2) getBalance, placeBet and a refundBet with
    no transaction never store a retry job, whatever the collaborators
    do.  (3) In every call, a retry job that names an audit record is
    stored after that record. *)
Theorem failed_call_is_audited_then_queued :
  (forall rt env clock requestId call w agent err,
     Env.agentsService env (agentOf call) = Some agent ->
     (forall url payload, Env.httpPost env url payload = Err err) ->
     (forall a, Env.walletAuditService env a = AuditStored) ->
     (forall job, Env.retryJobService env job = true) ->
     exists payload audit,
       AuditParams.status audit = FAILURE /\
       AuditParams.failureType audit
       = Some (fst (fst (classifyError rt err))) /\
       AuditParams.apiAction audit = actionOf call /\
       if retried call
       then exists job,
              invoke rt env clock requestId call w
              = (Err err,
                 w ++ [EPost (Agent.callbackURL agent) payload;
                       EAudit (auditCount rt w) audit;
                       ERetry job]) /\
              RetryParams.walletAuditId job = Some (auditCount rt w) /\
              RetryParams.apiAction job = actionOf call
       else invoke rt env clock requestId call w
            = (Err err,
               w ++ [EPost (Agent.callbackURL agent) payload;
                     EAudit (auditCount rt w) audit]))
  /\
  (forall rt env clock requestId call w,
     retried call = false ->
     retryJobsOf (snd (invoke rt env clock requestId call w))
     = retryJobsOf w)
  /\
  (forall rt env clock requestId call w,
     exists tail,
       snd (invoke rt env clock requestId call w) = w ++ tail /\
       jobsFollowAudits (map fst (auditsOf w)) tail).
Proof.
  split; [|split].
  - intros rt env clock requestId call w agent err Hagent Hpost Hstore Hretry.
    destruct (invoke_shape rt env agent w clock requestId call Hagent)
      as [payload [Hshape _]].
    inversion Hshape as
      [ err' aC kC Hp [HaC1 [HaC2 [HaC3 _]]] HkC Hout
      | resp' aC kC Hp _ _ _ Hout
      | resp' mapped' message aR kR aC kC Hp _ _ _ _ _ _ Hout
      | resp' mapped' aS Hp _ _ _ _ Hout ];
      rewrite Hpost in Hp; try discriminate; injection Hp as <-.
    exists payload, aC. repeat (split; [assumption|]).
    destruct (logAuditThen_tail rt env aC kC
                (w ++ [EPost (Agent.callbackURL agent) payload]))
      as (t & -> & _ & _ & Ht).
    rewrite (Ht (Hstore aC) Hretry), auditCount_post, <- app_assoc.
    unfold continuation in HkC. destruct (retried call).
    + destruct (HkC (Some (auditCount rt w))) as (job & -> & Hid & Hact & _).
      exists job. repeat split; assumption.
    + rewrite HkC. reflexivity.
  - intros rt env clock requestId call w Hnot.
    destruct (Env.agentsService env (agentOf call)) as [agent|] eqn:Hagent.
    + destruct (invoke_shape rt env agent w clock requestId call Hagent)
        as [payload [Hshape _]].
      inversion Hshape as
        [ err aC kC _ _ HkC Hout
        | resp aC kC _ _ _ HkC Hout
        | resp mapped message aR kR aC kC _ _ _ _ HkR _ HkC Hout
        | resp mapped aS _ _ _ _ _ Hout ]; simpl;
        rewrite ?logAudit_as_then;
        repeat (rewrite logAuditThen_queues_nothing
                  by (intros;
                      first [ reflexivity
                            | eapply continuation_not_retried; eauto ]));
        apply retryJobsOf_post.
    + destruct (invoke_unknown_agent rt env clock requestId call w Hagent)
        as (tail & -> & Hjobs & _). simpl.
      now rewrite retryJobsOf_app, Hjobs, app_nil_r.
  - intros rt env clock requestId call w.
    destruct (Env.agentsService env (agentOf call)) as [agent|] eqn:Hagent.
    + destruct (invoke_shape rt env agent w clock requestId call Hagent)
        as [payload [Hshape _]].
      inversion Hshape as
        [ err aC kC _ _ HkC Hout
        | resp aC kC _ _ _ HkC Hout
        | resp mapped message aR kR aC kC _ _ _ _ HkR _ HkC Hout
        | resp mapped aS _ _ _ _ _ Hout ]; simpl.
      * destruct (logAuditThen_follows rt env aC kC
                    (w ++ [EPost (Agent.callbackURL agent) payload])
                    (continuation_names_audit rt call kC HkC))
          as (t & -> & Ht).
        exists ([EPost (Agent.callbackURL agent) payload] ++ t).
        split; [now rewrite <- app_assoc|]. simpl. apply Ht.
      * destruct (logAuditThen_follows rt env aC kC
                    (w ++ [EPost (Agent.callbackURL agent) payload])
                    (continuation_names_audit rt call kC HkC))
          as (t & -> & Ht).
        exists ([EPost (Agent.callbackURL agent) payload] ++ t).
        split; [now rewrite <- app_assoc|]. simpl. apply Ht.
      * destruct (logAuditThen_follows rt env aR kR
                    (w ++ [EPost (Agent.callbackURL agent) payload])
                    (continuation_names_audit rt call kR HkR))
          as (t1 & -> & Ht1).
        destruct (logAuditThen_follows rt env aC kC
                    ((w ++ [EPost (Agent.callbackURL agent) payload]) ++ t1)
                    (continuation_names_audit rt call kC HkC))
          as (t2 & -> & Ht2).
        exists ([EPost (Agent.callbackURL agent) payload] ++ t1 ++ t2).
        split; [now rewrite <- !app_assoc|]. simpl.
        apply jobsFollowAudits_app; auto.
      * rewrite logAudit_as_then.
        destruct (logAuditThen_follows rt env aS (fun _ => None)
                    (w ++ [EPost (Agent.callbackURL agent) payload]))
          as (t & -> & Ht); [discriminate|].
        exists ([EPost (Agent.callbackURL agent) payload] ++ t).
        split; [now rewrite <- app_assoc|]. simpl. apply Ht.
    + destruct (invoke_unknown_agent rt env clock requestId call w Hagent)
        as (tail & -> & _ & _ & Hforms).
      exists tail. split; [reflexivity|].
      destruct Hforms as [-> | [a ->]]; simpl; auto.
Qed.

(** settleBet against an agent whose endpoint refuses the connection. *)
Lemma failed_call_is_audited_then_queued_witness :
  exists payload audit job,
    settleBet Sample.runtime (Sample.env Sample.connectionRefused)
      Sample.clock "req-1" Sample.settleBetParams []
    = (Err Sample.refusal,
       [EPost "https://agent1/cb" payload; EAudit 0 audit; ERetry job]) /\
    AuditParams.failureType audit = Some NETWORK_ERROR /\
    RetryParams.walletAuditId job = Some 0.
Proof.
  destruct failed_call_is_audited_then_queued as [H _].
  destruct (H Sample.runtime (Sample.env Sample.connectionRefused)
              Sample.clock "req-1" (SettleBet Sample.settleBetParams) []
              Sample.agent Sample.refusal eq_refl (fun _ _ => eq_refl)
              (fun _ => eq_refl) (fun _ => eq_refl))
    as (payload & audit & _ & Hkind & _ & Hq).
  simpl in Hq. destruct Hq as (job & Hcall & Hid & _).
  exists payload, audit, job.
  split; [exact Hcall|]. split; [exact Hkind|exact Hid].
Defined.

(** C4, counterexample.  refundBet with an empty batch against an agent
    whose endpoint refuses the connection: the failure is audited as a
    NETWORK_ERROR and no retry job is stored. *)
Lemma refundBet_empty_batch_failure_is_not_queued :
  auditKinds
    (snd (refundBet Sample.runtime (Sample.env Sample.connectionRefused)
            Sample.clock "req-1" (Sample.refundBetParams []) []))
  = [(FAILURE, Some NETWORK_ERROR)] /\
  ~ (length
       (retryJobsOf
          (snd (refundBet Sample.runtime (Sample.env Sample.connectionRefused)
                  Sample.clock "req-1" (Sample.refundBetParams []) [])))
     = 1).
Proof. split; [reflexivity|]. vm_compute. discriminate. Qed.

(** C10.  refundBet with an empty list of transactions, for a known
    agent: the first effect is the request to the agent's endpoint,
    carrying the serialised [{ action: "cancelBet", txns: [] }] under
    the agent's key; nothing else is sent and no retry job is ever
    stored; every audit record written has both aggregated amounts at 0
    and no platformTxId; and when the call fails and the audit log
    stores, a Failure record is written. *)
Theorem refundBet_with_empty_batch :
  forall rt env clock requestId agentId userId w agent,
    Env.agentsService env agentId = Some agent ->
    exists tail,
      snd (refundBet rt env clock requestId
             (RefundBetParams.mk agentId userId []) w)
      = w ++ EPost (Agent.callbackURL agent)
               (Envelope.mk (Agent.cert agent)
                  (Runtime.JSON_stringify rt
                     (VObject [("action", VString "cancelBet");
                               ("txns", VArray [])])))
             :: tail /\
      postsOf tail = [] /\
      retryJobsOf tail = [] /\
      (forall id audit,
         In (id, audit) (auditsOf tail) ->
         AuditParams.betAmount audit = Some (Runtime.zero rt) /\
         AuditParams.winAmount audit = Some (Runtime.zero rt) /\
         AuditParams.platformTxId audit = None) /\
      (isErr (fst (refundBet rt env clock requestId
                     (RefundBetParams.mk agentId userId []) w)) = true ->
       (forall a, Env.walletAuditService env a = AuditStored) ->
       exists id audit,
         In (id, audit) (auditsOf tail) /\
         AuditParams.status audit = FAILURE).
Proof.
  intros rt env clock requestId agentId userId w agent Hagent.
  unfold refundBet, resolveAgent.
  cbn [RefundBetParams.agentId RefundBetParams.userId
       RefundBetParams.refundTransactions].
  rewrite Hagent. cbv zeta. cbn [hd_error map].
  unfold tryCatch, post.
  match goal with
  | |- context [Env.httpPost env ?u ?p] =>
      destruct (Env.httpPost env u p) as [resp|err]
  end.
  1: destruct (mapAgentResponse rt (HttpResponse.data resp)) as [mapped|e];
     [destruct (WalletResponse.status mapped =? "0000")%string|].
  all: cbn [negb]; cbv iota;
    rewrite ?classifyError_InternalServerError;
    try match goal with
        | |- context [classifyError ?r ?e] =>
            is_var e; destruct (classifyError r e) as [[kind hs] rd]
        end;
    unfold logAuditThen, logAudit;
    repeat match goal with
           | |- context [Env.walletAuditService ?v ?a] =>
               let E := fresh "Haudit" in
               destruct (Env.walletAuditService v a) eqn:E
           end;
    cbn [fst snd];
    (eexists; split; [rewrite <- ?app_assoc; reflexivity|]);
    (split; [reflexivity|]); (split; [reflexivity|]);
    (split;
     [ intros id audit Hin; simpl in Hin;
       repeat match goal with
              | H : _ \/ _ |- _ => destruct H
              | H : False |- _ => contradiction
              | H : (_, _) = (_, _) |- _ => injection H as <- <-
              end;
       repeat split; reflexivity
     | intros Hfail Hstore;
       first
         [ discriminate Hfail
         | exfalso;
           match goal with
           | H : Env.walletAuditService _ ?a = _ |- _ =>
               rewrite (Hstore a) in H; discriminate H
           end
         | eexists; eexists; split; [left; reflexivity|reflexivity] ] ]).
Qed.

(** refundBet of no transaction against an agent whose endpoint refuses
    the connection. *)
Lemma refundBet_with_empty_batch_witness :
  exists tail,
    snd (refundBet Sample.runtime (Sample.env Sample.connectionRefused)
           Sample.clock "req-1" (Sample.refundBetParams []) [])
    = EPost "https://agent1/cb"
        (Envelope.mk "cert1"
           (Sample.stringify
              (VObject [("action", VString "cancelBet");
                        ("txns", VArray [])])))
      :: tail /\
    retryJobsOf tail = [] /\
    auditKinds tail = [(FAILURE, Some NETWORK_ERROR)].
Proof.
  destruct (refundBet_with_empty_batch Sample.runtime
              (Sample.env Sample.connectionRefused) Sample.clock "req-1"
              "agent1" "u1" [] Sample.agent eq_refl)
    as (tail & Hlog & _ & Hjobs & _).
  exists tail. split; [exact Hlog|]. split; [exact Hjobs|].
  injection Hlog as <-. reflexivity.
Defined.

(** * Further properties of the bet ledger *)

(** ** Lookups by transaction id *)

Lemma find_app :
  forall (A : Type) (p : A -> bool) (l1 l2 : list A),
    find p (l1 ++ l2)
    = match find p l1 with Some x => Some x | None => find p l2 end.
Proof.
  intros A p l1 l2. induction l1 as [|x l1 IH]; simpl; [reflexivity|].
  now destruct (p x).
Qed.

Lemma find_ext_on :
  forall (A : Type) (p q : A -> bool) (l : list A),
    (forall x, In x l -> p x = q x) -> find p l = find q l.
Proof.
  intros A p q l H. induction l as [|x l IH]; simpl; [reflexivity|].
  rewrite (H x (or_introl eq_refl)).
  destruct (q x); [reflexivity|]. apply IH. intros y Hy. apply H. now right.
Qed.

Lemma find_narrower_miss :
  forall (A : Type) (p q : A -> bool) (l : list A),
    (forall x, q x = true -> p x = true) ->
    find p l = None -> find q l = None.
Proof.
  intros A p q l H. induction l as [|x l IH]; simpl; [reflexivity|].
  destruct (p x) eqn:P; [discriminate|]. intros Hl.
  destruct (q x) eqn:Q; [apply H in Q; congruence|auto].
Qed.

(** What a placement that succeeds has done. *)
Lemma createPlacement_inserted :
  forall deps now p s row s1,
    BetService.createPlacement deps now p s = (Ok row, s1) ->
    findOne
      (BetService.whereByExternalTx (CreateBetParams.externalPlatformTxId p)
         (Some (CreateBetParams.gameCode p))) s = None /\
    (BetService.uniqueTxIndex deps = true ->
     existsb
       (fun r => (Bet.externalPlatformTxId r
                  =? CreateBetParams.externalPlatformTxId p)%string)
       (rows s) = false) /\
    rows s1 = rows s ++ [row] /\
    nextId s1 = S (nextId s) /\
    Bet.id row = nextId s /\
    Bet.externalPlatformTxId row = CreateBetParams.externalPlatformTxId p /\
    Bet.gameCode row = CreateBetParams.gameCode p /\
    Bet.roundId row = CreateBetParams.roundId p /\
    Bet.userId row = CreateBetParams.userId p /\
    Bet.betPlacedAt row = CreateBetParams.betPlacedAt p /\
    Bet.status row = nullish (CreateBetParams.status p) PLACED /\
    Bet.createdAt row = now.
Proof.
  intros deps now p s row s1 Hcall.
  unfold BetService.createPlacement in Hcall.
  destruct (match BetService.gameValidationService deps with
            | Some _ => _ | None => _ end); [discriminate|].
  destruct (findOne _ s) as [b|] eqn:Hfind; [discriminate|].
  unfold insert in Hcall.
  destruct (BetService.uniqueTxIndex deps) eqn:Hu; simpl in Hcall.
  - destruct (existsb _ (rows s)) eqn:Hex; [discriminate|].
    injection Hcall as <- <-. simpl. repeat split; auto.
  - injection Hcall as <- <-. simpl. repeat split; auto. discriminate.
Qed.

(** X3.  A bet that createPlacement has stored is the one the lookups by
    transaction id return from then on: with its game code, by
    getByExternalTxId and by findBetByPlatformTxId, and without a game
    code when the storage layer enforces the unique index; lookups of
    any other transaction id answer as before. *)
Theorem placed_bet_is_found_by_its_transaction_id :
  forall deps now p s row s1,
    BetService.createPlacement deps now p s = (Ok row, s1) ->
    BetService.getByExternalTxId (CreateBetParams.externalPlatformTxId p)
      (Some (CreateBetParams.gameCode p)) s1 = Some row /\
    BetService.findBetByPlatformTxId (CreateBetParams.gameCode p)
      (CreateBetParams.externalPlatformTxId p) s1 = Some row /\
    (BetService.uniqueTxIndex deps = true ->
     BetService.getByExternalTxId (CreateBetParams.externalPlatformTxId p)
       None s1 = Some row) /\
    (forall tx gameCode,
       tx <> CreateBetParams.externalPlatformTxId p ->
       BetService.getByExternalTxId tx gameCode s1
       = BetService.getByExternalTxId tx gameCode s).
Proof.
  intros deps now p s row s1 Hcall.
  destruct (createPlacement_inserted _ _ _ _ _ _ Hcall)
    as (Hmiss & Huniq & Hrows & _ & _ & Htx & Hg & _).
  unfold BetService.getByExternalTxId, BetService.findBetByPlatformTxId,
    findOne in *.
  rewrite Hrows, !find_app.
  split; [|split; [|split]].
  - rewrite Hmiss. simpl. unfold BetService.whereByExternalTx.
    rewrite Htx, Hg, !String.eqb_refl. simpl.
    now destruct (JS.truthy_string _).
  - rewrite (find_narrower_miss _
               (BetService.whereByExternalTx
                  (CreateBetParams.externalPlatformTxId p)
                  (Some (CreateBetParams.gameCode p))) _ (rows s)).
    + simpl. now rewrite Htx, Hg, !String.eqb_refl.
    + intros r Hr. apply whereByExternalTx_key. unfold placementKey.
      now rewrite andb_comm.
    + exact Hmiss.
  - intros Hu. specialize (Huniq Hu).
    assert (find (BetService.whereByExternalTx
                    (CreateBetParams.externalPlatformTxId p) None) (rows s)
            = None) as ->.
    { destruct (find (BetService.whereByExternalTx _ None) (rows s))
        as [b|] eqn:E; [|reflexivity].
      apply find_some in E. destruct E as [Hin Hw].
      apply whereByExternalTx_tx in Hw.
      assert (existsb
                (fun r => (Bet.externalPlatformTxId r
                           =? CreateBetParams.externalPlatformTxId p)%string)
                (rows s) = true) by (apply existsb_exists; now exists b).
      congruence. }
    simpl. unfold BetService.whereByExternalTx.
    now rewrite Htx, String.eqb_refl.
  - intros tx gameCode Hne. rewrite find_app.
    destruct (find (BetService.whereByExternalTx tx gameCode) (rows s));
      [reflexivity|]. simpl.
    unfold BetService.whereByExternalTx. rewrite Htx.
    destruct (String.eqb_spec (CreateBetParams.externalPlatformTxId p) tx);
      [congruence|reflexivity].
Qed.

(** "T2" placed at time 12 on the table that holds "T1". *)
Lemma placed_bet_is_found_by_its_transaction_id_witness :
  exists row,
    BetService.createPlacement Sample.noValidator 12
      (Sample.place "T2" "G1" "7.00") Sample.placed
    = (Ok row, Sample.twoBets) /\
    BetService.getByExternalTxId "T2" (Some "G1") Sample.twoBets = Some row /\
    BetService.findBetByPlatformTxId "G1" "T2" Sample.twoBets = Some row /\
    BetService.getByExternalTxId "T2" None Sample.twoBets = Some row /\
    BetService.getByExternalTxId "T1" None Sample.twoBets
    = BetService.getByExternalTxId "T1" None Sample.placed.
Proof.
  eexists. split; [reflexivity|].
  destruct (placed_bet_is_found_by_its_transaction_id Sample.noValidator 12
              (Sample.place "T2" "G1" "7.00") Sample.placed _ Sample.twoBets
              eq_refl) as (H1 & H2 & H3 & H4).
  split; [exact H1|]. split; [exact H2|]. split; [exact (H3 eq_refl)|].
  apply H4. discriminate.
Defined.

(** ** What the calls keep of the table *)

Lemma sameIdentity_refl : forall r, sameIdentity r r.
Proof. intros r. repeat split. Qed.

Lemma sameIdentity_trans :
  forall a b c, sameIdentity a b -> sameIdentity b c -> sameIdentity a c.
Proof.
  intros a b c (H1 & H2 & H3 & H4) (K1 & K2 & K3 & K4).
  repeat split; congruence.
Qed.

(** A call other than a placement leaves the table as it is, or saves
    one row: the row found for its transaction id, with its identity. *)
Lemma step_update_shape :
  forall deps now op s,
    isPlacement op = false ->
    step deps (now, op) s = s \/
    exists bet b',
      findOne (BetService.whereByExternalTx (txOf op) None) s = Some bet /\
      sameIdentity bet b' /\
      step deps (now, op) s = snd (save now b' s).
Proof.
  intros deps now op s Hop. unfold step.
  destruct op as [p|p|p|tx by_|tx by_|p]; simpl in Hop; try discriminate;
    unfold BetService.recordSettlement, BetService.markPendingSettlement,
      BetService.markSettlementFailed, BetService.updateStatus,
      BetService.updateBet; cbn [txOf UpdateBetStatusParams.externalPlatformTxId];
    (destruct (findOne _ s) as [bet|] eqn:Hfind; [|now left]);
    try (destruct (BetService.alreadySettled (Bet.status bet));
         [now left|]);
    match goal with
    | |- context [save now ?b s] =>
        right; exists bet, b; split; [reflexivity|];
        split; [repeat split|reflexivity]
    end.
Qed.

Lemma createPlacement_cases :
  forall deps now p s,
    snd (BetService.createPlacement deps now p s) = s \/
    exists row s1, BetService.createPlacement deps now p s = (Ok row, s1).
Proof.
  intros deps now p s. unfold BetService.createPlacement.
  destruct (match BetService.gameValidationService deps with
            | Some _ => _ | None => _ end); [now left|].
  destruct (findOne _ s); [now left|].
  unfold insert. destruct (_ && _); [now left|].
  right. eexists. eexists. reflexivity.
Qed.

Lemma keptThenAdded_refl :
  forall (R : Bet.t -> Bet.t -> Prop) l,
    (forall r, R r r) -> keptThenAdded R l l.
Proof.
  intros R l H. exists l, []. rewrite app_nil_r. split; [reflexivity|].
  now apply Forall2_refl_on.
Qed.

Lemma keptThenAdded_all :
  forall (R : Bet.t -> Bet.t -> Prop) l l',
    Forall2 R l l' -> keptThenAdded R l l'.
Proof.
  intros R l l' H. exists l', []. now rewrite app_nil_r.
Qed.

Lemma keptThenAdded_trans :
  forall (R : Bet.t -> Bet.t -> Prop) l1 l2 l3,
    (forall a b c, R a b -> R b c -> R a c) ->
    keptThenAdded R l1 l2 -> keptThenAdded R l2 l3 -> keptThenAdded R l1 l3.
Proof.
  intros R l1 l2 l3 Ht (k1 & a1 & -> & H1) (k2 & a2 & -> & H2).
  apply Forall2_app_inv_l in H2. destruct H2 as (k2a & k2b & Ha & Hb & ->).
  exists k2a, (k2b ++ a2). rewrite app_assoc. split; [reflexivity|].
  now apply Forall2_trans_on with k1.
Qed.

(** A property of single calls that allows for rows being added extends
    to sequences when it is transitive. *)
Lemma run_keptThenAdded :
  forall (R : Bet.t -> Bet.t -> Prop) (allowed : LedgerOp -> bool) deps,
    (forall r, R r r) ->
    (forall a b c, R a b -> R b c -> R a c) ->
    (forall now op s, wellKeyed s -> allowed op = true ->
                      keptThenAdded R (rows s) (rows (step deps (now, op) s))) ->
    forall calls s,
      wellKeyed s ->
      forallb (fun call => allowed (snd call)) calls = true ->
      keptThenAdded R (rows s) (rows (run deps calls s)).
Proof.
  intros R allowed deps Hrefl Htrans Hstep calls. unfold run.
  induction calls as [|[now op] calls IH]; intros s Hwk Hall;
    cbn [fold_left].
  - now apply keptThenAdded_refl.
  - simpl in Hall. apply andb_true_iff in Hall. destruct Hall as [Hop Hall].
    apply keptThenAdded_trans with (rows (step deps (now, op) s)); auto.
    apply IH; [now apply wellKeyed_step|exact Hall].
Qed.

(** A placement keeps every row and may add one. *)
Lemma step_placement_appends :
  forall (R : Bet.t -> Bet.t -> Prop) deps now p s,
    (forall r, R r r) ->
    keptThenAdded R (rows s) (rows (step deps (now, OpCreatePlacement p) s)).
Proof.
  intros R deps now p s Hrefl. unfold step.
  destruct (createPlacement_cases deps now p s) as [-> | (row & s1 & Hcall)].
  - now apply keptThenAdded_refl.
  - rewrite Hcall. simpl.
    destruct (createPlacement_inserted _ _ _ _ _ _ Hcall)
      as (_ & _ & -> & _).
    exists (rows s), [row]. split; [reflexivity|].
    now apply Forall2_refl_on.
Qed.

Lemma step_update_identity :
  forall deps now op s,
    wellKeyed s -> isPlacement op = false ->
    Forall2 sameIdentity (rows s) (rows (step deps (now, op) s)).
Proof.
  intros deps now op s [Hnd _] Hop.
  destruct (step_update_shape deps now op s Hop)
    as [-> | (bet & b' & Hfind & Hid & ->)].
  - apply Forall2_refl_on, sameIdentity_refl.
  - apply findOne_In in Hfind. destruct Hfind as [Hin _].
    apply save_rows_related with bet; auto using sameIdentity_refl;
      now destruct Hid.
Qed.

Lemma step_identity :
  forall deps now op s,
    wellKeyed s ->
    keptThenAdded sameIdentity (rows s) (rows (step deps (now, op) s)).
Proof.
  intros deps now op s Hwk.
  destruct (isPlacement op) eqn:Hop.
  - destruct op; try discriminate.
    apply step_placement_appends, sameIdentity_refl.
  - now apply keptThenAdded_all, step_update_identity.
Qed.

(** X4.  The placement, settlement and update calls never delete or
    move a bet, and never change its id, its transaction id or the
    record of its creation: after any sequence of such calls on a table
    the service has reached, the rows of that table are still there, in
    their order and with those columns as they were, followed by the
    rows placed since. *)
Theorem calls_keep_every_bet_and_its_identity :
  forall deps s calls,
    reachable deps s ->
    keptThenAdded sameIdentity (rows s) (rows (run deps calls s)).
Proof.
  intros deps s calls Hreach.
  apply run_keptThenAdded with (allowed := fun _ => true).
  - exact sameIdentity_refl.
  - exact sameIdentity_trans.
  - intros now op s0 Hwk _. now apply step_identity.
  - now apply wellKeyed_reachable with deps.
  - clear. induction calls; simpl; auto.
Qed.

(** From the table that holds "T1": a settlement, a placement of "T2"
    and an update of "T1" keep the row of "T1" in place with its
    identity. *)
Lemma calls_keep_every_bet_and_its_identity_witness :
  keptThenAdded sameIdentity (rows Sample.placed)
    (rows (run Sample.noValidator
             [(20, OpRecordSettlement (Sample.settle "T1" "10.500"));
              (21, OpCreatePlacement (Sample.place "T2" "G1" "7.00"));
              (22, OpMarkSettlementFailed "T1" "ops")]
             Sample.placed)).
Proof.
  apply (calls_keep_every_bet_and_its_identity Sample.noValidator
           Sample.placed).
  exists [(10, OpCreatePlacement (Sample.place "T1" "G1" "5.00"))].
  reflexivity.
Defined.

Lemma otherTransactionKept_refl :
  forall tx r, otherTransactionKept tx r r.
Proof. intros tx r. repeat split. Qed.

Lemma otherTransactionKept_trans :
  forall tx a b c,
    otherTransactionKept tx a b -> otherTransactionKept tx b c ->
    otherTransactionKept tx a c.
Proof.
  intros tx a b c (H1 & H2 & H3) (K1 & K2 & K3).
  split; [congruence|]. split; [congruence|].
  intros Hne. rewrite <- (H3 Hne). apply K3. now rewrite H2.
Qed.

Lemma step_other_transactions :
  forall tx deps now op s,
    wellKeyed s -> placesOrUpdates tx op = true ->
    keptThenAdded (otherTransactionKept tx) (rows s)
      (rows (step deps (now, op) s)).
Proof.
  intros tx deps now op s [Hnd _] Hop. unfold placesOrUpdates in Hop.
  destruct (isPlacement op) eqn:Hp.
  - destruct op; try discriminate.
    apply step_placement_appends, otherTransactionKept_refl.
  - simpl in Hop. apply String.eqb_eq in Hop.
    apply keptThenAdded_all.
    destruct (step_update_shape deps now op s Hp)
      as [-> | (bet & b' & Hfind & (Hid & Htx & _) & ->)].
    + apply Forall2_refl_on, otherTransactionKept_refl.
    + apply findOne_In in Hfind. destruct Hfind as [Hin Hw].
      apply whereByExternalTx_tx, String.eqb_eq in Hw.
      apply save_rows_related with bet;
        auto using otherTransactionKept_refl.
      split; [exact Hid|]. split; [exact Htx|]. congruence.
Qed.

(** X5.  The calls that name a transaction id touch the bet of that
    transaction only: over any sequence of placements and of updates of
    transaction [tx] (recordSettlement, updateStatus, updateBet,
    markPendingSettlement, markSettlementFailed), every row of another
    transaction stays exactly as it was. *)
Theorem updates_leave_other_transactions_alone :
  forall tx deps s calls,
    reachable deps s ->
    forallb (fun call => placesOrUpdates tx (snd call)) calls = true ->
    keptThenAdded (otherTransactionKept tx) (rows s) (rows (run deps calls s)).
Proof.
  intros tx deps s calls Hreach Hall.
  apply run_keptThenAdded with (allowed := placesOrUpdates tx).
  - apply otherTransactionKept_refl.
  - apply otherTransactionKept_trans.
  - intros now op s0 Hwk Hop. now apply step_other_transactions.
  - now apply wellKeyed_reachable with deps.
  - exact Hall.
Qed.

(** On the table that holds "T1" and "T2": settling "T1" and marking
    it failed leave the row of "T2" as it was. *)
Lemma updates_leave_other_transactions_alone_witness :
  keptThenAdded (otherTransactionKept "T1") (rows Sample.twoBets)
    (rows (run Sample.noValidator
             [(20, OpRecordSettlement (Sample.settle "T1" "10.500"));
              (21, OpMarkSettlementFailed "T1" "ops")]
             Sample.twoBets)).
Proof.
  apply (updates_leave_other_transactions_alone "T1" Sample.noValidator
           Sample.twoBets).
  - exists [(10, OpCreatePlacement (Sample.place "T1" "G1" "5.00"));
            (12, OpCreatePlacement (Sample.place "T2" "G1" "7.00"))].
    reflexivity.
  - reflexivity.
Defined.

(** ** Transaction ids under the unique index *)

Lemma Forall2_sameIdentity_tx :
  forall l l',
    Forall2 sameIdentity l l' ->
    map Bet.externalPlatformTxId l' = map Bet.externalPlatformTxId l.
Proof.
  induction 1 as [|a b l l' (_ & Htx & _) _ IH]; simpl; [reflexivity|].
  now rewrite Htx, IH.
Qed.

Lemma txDistinct_step :
  forall deps call s,
    BetService.uniqueTxIndex deps = true ->
    wellKeyed s -> txDistinct s -> txDistinct (step deps call s).
Proof.
  intros deps [now op] s Hu Hwk Htx. unfold txDistinct in *.
  destruct (isPlacement op) eqn:Hop.
  - destruct op as [p| | | | |]; try discriminate. unfold step.
    destruct (createPlacement_cases deps now p s) as [-> | (row & s1 & Hcall)];
      [exact Htx|].
    rewrite Hcall. simpl.
    destruct (createPlacement_inserted _ _ _ _ _ _ Hcall)
      as (_ & Hnew & -> & _ & _ & Hrow & _).
    specialize (Hnew Hu). rewrite map_app. simpl.
    apply NoDup_app; [exact Htx|repeat constructor; intros []|].
    intros tx Hin [<-|[]].
    apply in_map_iff in Hin. destruct Hin as (r & Hr & Hin).
    assert (existsb
              (fun r => (Bet.externalPlatformTxId r
                         =? CreateBetParams.externalPlatformTxId p)%string)
              (rows s) = true) as Hyes.
    { apply existsb_exists. exists r. split; [exact Hin|].
      apply String.eqb_eq. congruence. }
    congruence.
  - now rewrite (Forall2_sameIdentity_tx _ _
                   (step_update_identity deps now op s Hwk Hop)).
Qed.

Lemma txDistinct_reachable :
  forall deps s,
    BetService.uniqueTxIndex deps = true -> reachable deps s -> txDistinct s.
Proof.
  intros deps s Hu [calls ->].
  assert (H : forall calls s0,
             wellKeyed s0 -> txDistinct s0 ->
             txDistinct (run deps calls s0)).
  { clear calls. unfold run.
    induction calls as [|c calls IH]; intros s0 Hwk Htx; simpl; [exact Htx|].
    apply IH; [now apply wellKeyed_step|now apply txDistinct_step]. }
  apply H; [split; simpl; constructor|constructor].
Qed.

(** Under distinct transaction ids, a row found by a where-clause that
    fixes the transaction id is the row found by the id alone. *)
Lemma txDistinct_lookup :
  forall s tx (where_ : Bet.t -> bool) b,
    txDistinct s ->
    (forall r, where_ r = true -> Bet.externalPlatformTxId r = tx) ->
    findOne where_ s = Some b ->
    findOne (BetService.whereByExternalTx tx None) s = Some b.
Proof.
  intros s tx where_ b Hd Hw Hfind. unfold findOne, txDistinct in *.
  apply find_some in Hfind. destruct Hfind as [Hin Hb]. apply Hw in Hb.
  induction (rows s) as [|x l IH]; [contradiction|].
  simpl in Hd. inversion Hd as [|? ? Hnotin Hd']; subst.
  simpl. unfold BetService.whereByExternalTx at 1.
  destruct (String.eqb_spec (Bet.externalPlatformTxId x)
              (Bet.externalPlatformTxId b)) as [E|E]; simpl.
  - destruct Hin as [->|Hin]; [reflexivity|].
    exfalso. apply Hnotin. rewrite E. now apply in_map.
  - destruct Hin as [->|Hin]; [congruence|]. now apply IH.
Qed.

Lemma truthy_string_nonempty :
  forall g, JS.truthy_string g = true <-> g <> "".
Proof.
  intros [|c g]; simpl; split; intros H; try discriminate; auto;
    now elim H.
Qed.

(** X6.  The lookups by transaction id agree.  For a non-empty game
    code getByExternalTxId and findBetByPlatformTxId return the same
    row; an empty game code is ignored by getByExternalTxId (it answers
    as without one).  On a table the service has reached with the unique
    index on the transaction id enforced, no two rows carry one
    transaction id, so a row found with a game code is the row found by
    the transaction id alone. *)
Theorem lookups_by_transaction_id_agree :
  forall deps s tx gameCode,
    (gameCode <> "" ->
     BetService.getByExternalTxId tx (Some gameCode) s
     = BetService.findBetByPlatformTxId gameCode tx s) /\
    BetService.getByExternalTxId tx (Some "") s
    = BetService.getByExternalTxId tx None s /\
    (BetService.uniqueTxIndex deps = true -> reachable deps s ->
     txDistinct s /\
     forall b,
       BetService.getByExternalTxId tx (Some gameCode) s = Some b \/
       BetService.findBetByPlatformTxId gameCode tx s = Some b ->
       BetService.getByExternalTxId tx None s = Some b).
Proof.
  intros deps s tx gameCode.
  unfold BetService.getByExternalTxId, BetService.findBetByPlatformTxId.
  split; [|split].
  - intros Hg. apply truthy_string_nonempty in Hg.
    unfold findOne. apply find_ext_on. intros r _.
    unfold BetService.whereByExternalTx. rewrite Hg. apply andb_comm.
  - reflexivity.
  - intros Hu Hreach.
    pose proof (txDistinct_reachable deps s Hu Hreach) as Hd.
    split; [exact Hd|].
    intros b [H|H]; revert H; apply txDistinct_lookup; auto.
    + intros r Hr. now apply whereByExternalTx_tx, String.eqb_eq in Hr.
    + intros r Hr. apply andb_true_iff in Hr. destruct Hr as [_ Hr].
      now apply String.eqb_eq in Hr.
Qed.

(** On the table that holds "T1" and "T2", both of game "G1". *)
Lemma lookups_by_transaction_id_agree_witness :
  BetService.getByExternalTxId "T2" (Some "G1") Sample.twoBets
  = BetService.findBetByPlatformTxId "G1" "T2" Sample.twoBets /\
  txDistinct Sample.twoBets /\
  exists b,
    BetService.findBetByPlatformTxId "G1" "T2" Sample.twoBets = Some b /\
    BetService.getByExternalTxId "T2" None Sample.twoBets = Some b.
Proof.
  destruct (lookups_by_transaction_id_agree Sample.noValidator Sample.twoBets
              "T2" "G1") as (Hsame & _ & Hone).
  split; [apply Hsame; discriminate|].
  assert (Hreach : reachable Sample.noValidator Sample.twoBets).
  { exists [(10, OpCreatePlacement (Sample.place "T1" "G1" "5.00"));
            (12, OpCreatePlacement (Sample.place "T2" "G1" "7.00"))].
    reflexivity. }
  destruct (Hone eq_refl Hreach) as [Hdistinct Hfound].
  split; [exact Hdistinct|].
  eexists. split; [reflexivity|]. apply Hfound. right. reflexivity.
Defined.

(** ** Settlement absorbs what follows it *)

Lemma find_after_save :
  forall (where_ : Bet.t -> bool) now b bet s,
    findOne where_ s = Some bet ->
    Bet.id b = Bet.id bet ->
    where_ (Bet.touch now b) = true ->
    findOne where_ (snd (save now b s)) = Some (Bet.touch now b).
Proof.
  intros where_ now b bet s Hfind Hid Hw. unfold findOne in *. simpl.
  induction (rows s) as [|x l IH]; [discriminate|]. simpl in *.
  destruct (Nat.eqb_spec (Bet.id x) (Bet.id b)) as [E|E].
  - now rewrite Hw.
  - destruct (where_ x) eqn:Hx.
    + injection Hfind as ->. congruence.
    + now apply IH.
Qed.

(** X7.  A settlement that leaves the status to the service makes the
    bet terminal: when recordSettlement succeeds for a request without
    [status], the row it returns is Won or Lost, and every later
    recordSettlement for that transaction id, whatever its parameters
    and whenever it comes, returns that same row and writes nothing. *)
Theorem settlement_absorbs_later_settlements :
  forall now now' params params' s row s1,
    SettlementParams.status params = None ->
    SettlementParams.externalPlatformTxId params'
    = SettlementParams.externalPlatformTxId params ->
    BetService.recordSettlement now params s = (Ok row, s1) ->
    (Bet.status row = WON \/ Bet.status row = LOST) /\
    BetService.recordSettlement now' params' s1 = (Ok row, s1).
Proof.
  intros now now' params params' s row s1 Hst Htx Hcall.
  unfold BetService.recordSettlement in Hcall.
  destruct (findOne _ s) as [bet|] eqn:Hfind; [|discriminate].
  destruct (BetService.alreadySettled (Bet.status bet)) eqn:Hopen.
  - injection Hcall as <- <-.
    split; [now apply alreadySettled_spec|].
    unfold BetService.recordSettlement. now rewrite Htx, Hfind, Hopen.
  - match type of Hcall with
    | context [save now ?b s] => set (b' := b) in *
    end.
    pose proof (find_after_save _ now b' bet s Hfind eq_refl) as Hnext.
    unfold save in Hcall. cbv beta iota zeta in Hcall.
    injection Hcall as <- <-.
    assert (Hterm : Bet.status (Bet.touch now b') = WON
                    \/ Bet.status (Bet.touch now b') = LOST).
    { unfold b'. cbn [Bet.touch Bet.status]. rewrite Hst.
      apply settlementStatus_derived. }
    split; [exact Hterm|].
    unfold BetService.recordSettlement. rewrite Htx.
    change (mkStore _ _) with (snd (save now b' s)).
    rewrite Hnext.
    + apply alreadySettled_spec in Hterm. now rewrite Hterm.
    + apply findOne_In in Hfind. exact (proj2 Hfind).
Qed.

(** "T1" settled with "10.500" at time 20, then settled again with
    "0.000" at time 30. *)
Lemma settlement_absorbs_later_settlements_witness :
  exists row,
    BetService.recordSettlement 20 (Sample.settle "T1" "10.500") Sample.placed
    = (Ok row, Sample.won) /\
    Bet.status row = WON /\
    BetService.recordSettlement 30 (Sample.settle "T1" "0.000") Sample.won
    = (Ok row, Sample.won).
Proof.
  eexists. split; [reflexivity|].
  destruct (settlement_absorbs_later_settlements 20 30
              (Sample.settle "T1" "10.500") (Sample.settle "T1" "0.000")
              Sample.placed _ Sample.won eq_refl eq_refl eq_refl)
    as [_ Hagain].
  split; [reflexivity|exact Hagain].
Defined.

(** X8.  The second declaration of recordSettlement takes no [status]
    from the caller: whenever it succeeds the row it returns is Won or
    Lost, and so is the row that the table then holds for the
    transaction id, which has the id, the status, the win amount, the
    settlement time and the actor of the row returned.  Every later
    settlement for that transaction id returns the row as the table
    holds it and writes nothing. *)
Theorem recordSettlementAlt_always_ends_settled :
  forall now now' params params' s row s1,
    SettlementParamsAlt.externalPlatformTxId params'
    = SettlementParamsAlt.externalPlatformTxId params ->
    BetServiceAlt.recordSettlement now params s = (Ok row, s1) ->
    (Bet.status row = WON \/ Bet.status row = LOST) /\
    exists stored,
      findOne
        (BetService.whereByExternalTx
           (SettlementParamsAlt.externalPlatformTxId params) None) s1
      = Some stored /\
      Bet.id stored = Bet.id row /\
      Bet.status stored = Bet.status row /\
      Bet.winAmount stored = Bet.winAmount row /\
      Bet.settledAt stored = Bet.settledAt row /\
      Bet.updatedBy stored = Bet.updatedBy row /\
      BetServiceAlt.recordSettlement now' params' s1 = (Ok stored, s1).
Proof.
  intros now now' params params' s row s1 Htx Hcall.
  unfold BetServiceAlt.recordSettlement in Hcall.
  destruct (findOne _ s) as [bet|] eqn:Hfind; [|discriminate].
  destruct (BetService.alreadySettled (Bet.status bet)) eqn:Hopen.
  - injection Hcall as <- <-.
    split; [now apply alreadySettled_spec|].
    exists bet. repeat (split; [first [exact Hfind | reflexivity]|]).
    unfold BetServiceAlt.recordSettlement. now rewrite Htx, Hfind, Hopen.
  - match type of Hcall with
    | context [save now ?b s] => set (persisted := b) in *
    end.
    pose proof (find_after_save _ now persisted bet s Hfind eq_refl) as Hnext.
    unfold save in Hcall. cbv beta iota zeta in Hcall.
    injection Hcall as <- <-.
    assert (Hterm : Bet.status (Bet.touch now persisted) = WON
                    \/ Bet.status (Bet.touch now persisted) = LOST).
    { unfold persisted. cbn [Bet.touch Bet.status].
      apply settlementStatus_derived. }
    split; [exact Hterm|].
    exists (Bet.touch now persisted).
    change (mkStore _ _) with (snd (save now persisted s)).
    assert (Hstored :
      findOne
        (BetService.whereByExternalTx
           (SettlementParamsAlt.externalPlatformTxId params) None)
        (snd (save now persisted s))
      = Some (Bet.touch now persisted)).
    { apply Hnext. apply findOne_In in Hfind. exact (proj2 Hfind). }
    split; [exact Hstored|].
    repeat (split; [reflexivity|]).
    unfold BetServiceAlt.recordSettlement. rewrite Htx, Hstored.
    apply alreadySettled_spec in Hterm. now rewrite Hterm.
Qed.

(** "T1", placed with the session "session-1", is settled through the
    second declaration by a request that omits the session: the row
    returned is Lost and has no session, the row in the table is Lost
    and has kept it, and a later settlement with "10.500" returns the
    row of the table. *)
Lemma recordSettlementAlt_always_ends_settled_witness :
  exists row s1 stored,
    BetServiceAlt.recordSettlement 20 (Sample.settleAlt "T1" "0.000")
      Sample.placed
    = (Ok row, s1) /\
    Bet.status row = LOST /\ Bet.gameInfo row = None /\
    rows s1 = [stored] /\
    Bet.status stored = LOST /\ Bet.gameInfo stored = Some "session-1" /\
    BetServiceAlt.recordSettlement 30 (Sample.settleAlt "T1" "10.500") s1
    = (Ok stored, s1).
Proof.
  destruct (BetServiceAlt.recordSettlement 20 (Sample.settleAlt "T1" "0.000")
              Sample.placed) as [[row|e] s1] eqn:Hcall;
    [|vm_compute in Hcall; discriminate Hcall].
  destruct (recordSettlementAlt_always_ends_settled 20 30
              (Sample.settleAlt "T1" "0.000") (Sample.settleAlt "T1" "10.500")
              Sample.placed row s1 eq_refl Hcall)
    as (_ & stored & Hfind & _ & _ & _ & _ & _ & Hagain).
  exists row, s1, stored. split; [reflexivity|].
  vm_compute in Hcall. injection Hcall as <- <-.
  vm_compute in Hfind. injection Hfind as <-.
  repeat (split; [reflexivity|]). exact Hagain.
Defined.

(** X9.  An update that names a transaction id no row carries fails with
    NotFound ("Bet not found") and leaves the table as it was; this
    holds for updateStatus, updateBet, markPendingSettlement and
    markSettlementFailed alike, and no row is created for the id. *)
Theorem update_of_unknown_transaction_is_rejected :
  forall now tx s,
    BetService.getByExternalTxId tx None s = None ->
    (forall status updatedBy,
       BetService.updateStatus now
         (UpdateBetStatusParams.mk tx status updatedBy) s
       = (Err (NotFoundException "Bet not found"), s)) /\
    (forall params,
       UpdateBetParams.externalPlatformTxId params = tx ->
       BetService.updateBet now params s
       = (Err (NotFoundException "Bet not found"), s)) /\
    (forall updatedBy,
       BetService.markPendingSettlement now tx updatedBy s
       = (Err (NotFoundException "Bet not found"), s)) /\
    (forall updatedBy,
       BetService.markSettlementFailed now tx updatedBy s
       = (Err (NotFoundException "Bet not found"), s)).
Proof.
  intros now tx s Hmiss. unfold BetService.getByExternalTxId in Hmiss.
  unfold BetService.markPendingSettlement, BetService.markSettlementFailed,
    BetService.updateStatus, BetService.updateBet; simpl.
  repeat split; intros; subst; now rewrite Hmiss.
Qed.

(** Updates of "T9" on the table that holds "T1" only. *)
Lemma update_of_unknown_transaction_is_rejected_witness :
  BetService.updateStatus 20 (UpdateBetStatusParams.mk "T9" WON "admin")
    Sample.placed
  = (Err (NotFoundException "Bet not found"), Sample.placed) /\
  BetService.markPendingSettlement 20 "T9" "admin" Sample.placed
  = (Err (NotFoundException "Bet not found"), Sample.placed).
Proof.
  destruct (update_of_unknown_transaction_is_rejected 20 "T9" Sample.placed
              eq_refl) as (H1 & _ & H3 & _).
  split; [apply H1|apply H3].
Defined.

(** ** Maintenance: deleting and ageing bets *)


Lemma filter_none :
  forall (A : Type) (p : A -> bool) (l : list A),
    (forall x, In x l -> p x = false) -> filter p l = [].
Proof.
  intros A p l H. induction l as [|x l IH]; simpl; [reflexivity|].
  rewrite (H x (or_introl eq_refl)). apply IH. intros y Hy. apply H. now right.
Qed.

Lemma filter_all :
  forall (A : Type) (p : A -> bool) (l : list A),
    (forall x, In x l -> p x = true) -> filter p l = l.
Proof.
  intros A p l H. induction l as [|x l IH]; simpl; [reflexivity|].
  rewrite (H x (or_introl eq_refl)). f_equal. apply IH.
  intros y Hy. apply H. now right.
Qed.

Lemma filter_length_split :
  forall (A : Type) (p : A -> bool) (l : list A),
    length (filter p l) + length (filter (fun x => negb (p x)) l) = length l.
Proof.
  intros A p l. induction l as [|x l IH]; simpl; [reflexivity|].
  destruct (p x); simpl; lia.
Qed.

Lemma find_filter_kept :
  forall (A : Type) (p keep : A -> bool) (l : list A) b,
    find p l = Some b -> keep b = true -> find p (filter keep l) = Some b.
Proof.
  intros A p keep l b. induction l as [|x l IH]; simpl; [discriminate|].
  destruct (p x) eqn:P.
  - intros [= ->] Hk. rewrite Hk. simpl. now rewrite P.
  - intros Hf Hk. destruct (keep x); simpl; [rewrite P|]; auto.
Qed.

Lemma BetStatus_eqb_eq :
  forall a b, BetStatus_eqb a b = true <-> a = b.
Proof. intros [] []; simpl; split; intros H; congruence. Qed.

(** X10.  deletePlacedBets removes the bets whose status is Placed and
    nothing else: the rows that remain are the other rows, unchanged and
    in their order; the number returned is the number of rows removed; a
    bet that has left Placed is still found by its transaction id; and a
    second call removes nothing and returns 0. *)
Theorem deletePlacedBets_removes_placed_bets_only :
  forall s,
    let (count, s') := BetService.deletePlacedBets s in
    rows s'
    = filter (fun b => negb (BetStatus_eqb (Bet.status b) PLACED)) (rows s) /\
    (forall b, In b (rows s') <-> In b (rows s) /\ Bet.status b <> PLACED) /\
    count + length (rows s') = length (rows s) /\
    (forall tx gameCode b,
       BetService.getByExternalTxId tx gameCode s = Some b ->
       Bet.status b <> PLACED ->
       BetService.getByExternalTxId tx gameCode s' = Some b) /\
    BetService.deletePlacedBets s' = (0, s').
Proof.
  intros s. unfold BetService.deletePlacedBets, Repo.delete. simpl.
  split; [reflexivity|]. split; [|split; [|split]].
  - intros b. rewrite filter_In, negb_true_iff.
    rewrite <- (BetStatus_eqb_eq (Bet.status b) PLACED).
    destruct (BetStatus_eqb _ _); intuition congruence.
  - apply filter_length_split.
  - intros tx gameCode b Hfind Hst.
    unfold BetService.getByExternalTxId, findOne in *. simpl.
    apply find_filter_kept; [exact Hfind|].
    apply negb_true_iff. destruct (BetStatus_eqb _ _) eqn:E; [|reflexivity].
    now apply BetStatus_eqb_eq in E.
  - rewrite (filter_none _ (fun b => BetStatus_eqb (Bet.status b) PLACED)).
    + f_equal. f_equal. apply filter_all. intros x Hx.
      now apply filter_In in Hx.
    + intros x Hx. apply filter_In in Hx. destruct Hx as [_ Hx].
      now apply negb_true_iff.
Qed.

Lemma findOldPlacedBets_In :
  forall now olderThanMs s b,
    In b (BetService.findOldPlacedBets now olderThanMs s) <->
    In b (rows s) /\ Bet.status b = PLACED /\
    (Z.of_nat (placedSince b) < Z.of_nat now - olderThanMs)%Z.
Proof.
  intros now olderThanMs s b. unfold BetService.findOldPlacedBets.
  rewrite filter_In, andb_true_iff, BetStatus_eqb_eq. unfold placedSince.
  destruct (Bet.betPlacedAt b) as [d|]; simpl;
    rewrite ?orb_false_r, Z.ltb_lt; tauto.
Qed.

(** X11.  findOldPlacedBets returns exactly the stored bets that are
    still Placed and were placed before [now - olderThanMs], the time of
    placing being [betPlacedAt] and, only for a bet without one,
    [createdAt].  Asking for older bets returns fewer; a threshold
    before the epoch returns none; and after deletePlacedBets there is
    none to return. *)
Theorem findOldPlacedBets_returns_the_stale_placed_bets :
  forall now olderThanMs s,
    (forall b,
       In b (BetService.findOldPlacedBets now olderThanMs s) <->
       In b (rows s) /\ Bet.status b = PLACED /\
       (Z.of_nat (placedSince b) < Z.of_nat now - olderThanMs)%Z) /\
    (forall older,
       (olderThanMs <= older)%Z ->
       incl (BetService.findOldPlacedBets now older s)
         (BetService.findOldPlacedBets now olderThanMs s)) /\
    ((Z.of_nat now <= olderThanMs)%Z ->
     BetService.findOldPlacedBets now olderThanMs s = []) /\
    BetService.findOldPlacedBets now olderThanMs
      (snd (BetService.deletePlacedBets s)) = [].
Proof.
  intros now olderThanMs s. split; [|split; [|split]].
  - intros b. apply findOldPlacedBets_In.
  - intros older Hle b Hb. apply findOldPlacedBets_In in Hb.
    apply findOldPlacedBets_In. intuition lia.
  - intros Hle.
    destruct (BetService.findOldPlacedBets now olderThanMs s) as [|b l] eqn:E;
      [reflexivity|].
    assert (In b (BetService.findOldPlacedBets now olderThanMs s)) as Hb
      by (rewrite E; now left).
    apply findOldPlacedBets_In in Hb. lia.
  - destruct (BetService.findOldPlacedBets now olderThanMs _) as [|b l] eqn:E;
      [reflexivity|].
    assert (In b (BetService.findOldPlacedBets now olderThanMs
                    (snd (BetService.deletePlacedBets s)))) as Hb
      by (rewrite E; now left).
    apply findOldPlacedBets_In in Hb. destruct Hb as (Hin & Hst & _).
    unfold BetService.deletePlacedBets, Repo.delete in Hin. simpl in Hin.
    apply filter_In in Hin. destruct Hin as [_ Hin].
    rewrite Hst in Hin. discriminate.
Qed.

Lemma deleteBefore_rows :
  forall d1 d2 (l : list Bet.t),
    filter (fun r => negb (Bet.createdAt r <? d2))
      (filter (fun r => negb (Bet.createdAt r <? d1)) l)
    = filter (fun r => negb (Bet.createdAt r <? Nat.max d1 d2)) l.
Proof.
  intros d1 d2 l. induction l as [|x l IH]; simpl; [reflexivity|].
  destruct (Nat.ltb_spec (Bet.createdAt x) d1),
           (Nat.ltb_spec (Bet.createdAt x) (Nat.max d1 d2)); simpl;
    try lia; try (destruct (Nat.ltb_spec (Bet.createdAt x) d2); simpl);
    try lia; now rewrite IH.
Qed.

Lemma deleteBefore_count :
  forall d1 d2 (l : list Bet.t),
    length (filter (fun r => Bet.createdAt r <? d1) l)
    + length (filter (fun r => Bet.createdAt r <? d2)
                (filter (fun r => negb (Bet.createdAt r <? d1)) l))
    = length (filter (fun r => Bet.createdAt r <? Nat.max d1 d2) l).
Proof.
  intros d1 d2 l. induction l as [|x l IH]; simpl; [reflexivity|].
  destruct (Nat.ltb_spec (Bet.createdAt x) d1),
           (Nat.ltb_spec (Bet.createdAt x) (Nat.max d1 d2)); simpl;
    try lia; try (destruct (Nat.ltb_spec (Bet.createdAt x) d2); simpl);
    try lia.
Qed.

(** X12.  deleteBetsBeforeDate removes the bets created before the
    date, whatever their status, and keeps the others unchanged and in
    their order; the number returned is the number of rows removed.
    Two deletions in a row amount to one deletion up to the later of the
    two dates, their counts adding up; a second deletion up to an
    earlier date removes nothing. *)
Theorem deleteBetsBeforeDate_composes :
  forall d1 d2 s,
    let (n1, s1) := BetService.deleteBetsBeforeDate d1 s in
    let (n2, s2) := BetService.deleteBetsBeforeDate d2 s1 in
    (forall b, In b (rows s1) <-> In b (rows s) /\ d1 <= Bet.createdAt b) /\
    n1 + length (rows s1) = length (rows s) /\
    BetService.deleteBetsBeforeDate (Nat.max d1 d2) s = (n1 + n2, s2) /\
    (d2 <= d1 -> n2 = 0 /\ s2 = s1).
Proof.
  intros d1 d2 s. unfold BetService.deleteBetsBeforeDate, Repo.delete. simpl.
  split; [|split; [|split]].
  - intros b. rewrite filter_In, negb_true_iff, Nat.ltb_ge. tauto.
  - apply filter_length_split.
  - now rewrite deleteBefore_rows, deleteBefore_count.
  - intros Hle. split.
    + apply length_zero_iff_nil, filter_none. intros x Hx.
      apply filter_In in Hx. destruct Hx as [_ Hx].
      apply negb_true_iff, Nat.ltb_ge in Hx. apply Nat.ltb_ge. lia.
    + f_equal. apply filter_all. intros x Hx.
      apply filter_In in Hx. destruct Hx as [_ Hx].
      apply negb_true_iff, Nat.ltb_ge in Hx.
      apply negb_true_iff, Nat.ltb_ge. lia.
Qed.

(** ** Lists of bets *)

Lemma insertNewestFirst_In :
  forall b l x, In x (Repo.insertNewestFirst b l) <-> x = b \/ In x l.
Proof.
  intros b l x. induction l as [|y l IH]; simpl; [intuition|].
  destruct (Bet.createdAt y <=? Bet.createdAt b); simpl; [intuition|].
  rewrite IH. intuition.
Qed.

Lemma newestFirst_In :
  forall l x, In x (Repo.newestFirst l) <-> In x l.
Proof.
  intros l x. induction l as [|y l IH]; simpl; [tauto|].
  rewrite insertNewestFirst_In, IH. intuition.
Qed.



Lemma insertNewestFirst_sorted :
  forall b l,
    StronglySorted notOlder l ->
    StronglySorted notOlder (Repo.insertNewestFirst b l).
Proof.
  intros b l H. induction H as [|y l Hl IH Hy]; simpl.
  - repeat constructor.
  - destruct (Nat.leb_spec (Bet.createdAt y) (Bet.createdAt b)) as [E|E].
    + constructor; [now constructor|].
      constructor; [exact E|].
      eapply Forall_impl; [|exact Hy]. unfold notOlder. intros; lia.
    + constructor; [exact IH|].
      apply Forall_forall. intros x Hx. apply insertNewestFirst_In in Hx.
      destruct Hx as [->|Hx]; [unfold notOlder; lia|].
      rewrite Forall_forall in Hy. now apply Hy.
Qed.

Lemma newestFirst_sorted :
  forall l, StronglySorted notOlder (Repo.newestFirst l).
Proof.
  induction l as [|y l IH]; simpl; [constructor|].
  now apply insertNewestFirst_sorted.
Qed.

Lemma firstn_In :
  forall (A : Type) n (l : list A) x, In x (firstn n l) -> In x l.
Proof.
  intros A n l x. revert n. induction l as [|y l IH]; intros [|n]; simpl;
    try tauto.
  intros [->|H]; [now left|right; eauto].
Qed.

Lemma StronglySorted_firstn :
  forall n l, StronglySorted notOlder l -> StronglySorted notOlder (firstn n l).
Proof.
  intros n l H. revert n. induction H as [|y l Hl IH Hy]; intros [|n]; simpl;
    try constructor; auto.
  apply Forall_forall. intros x Hx. rewrite Forall_forall in Hy.
  apply Hy. revert Hx. apply firstn_In.
Qed.

(** In a list sorted newest first, a row cut off by [firstn] is no newer
    than any row kept, and the cut is full. *)
Lemma StronglySorted_cut :
  forall n l b,
    StronglySorted notOlder l -> In b l -> ~ In b (firstn n l) ->
    length (firstn n l) = n /\
    forall r, In r (firstn n l) -> notOlder r b.
Proof.
  intros n l b H. revert n. induction H as [|y l Hl IH Hy]; intros n Hin Hout;
    [contradiction|].
  destruct n as [|n]; simpl in *; [split; [reflexivity|contradiction]|].
  destruct Hin as [->|Hin]; [exfalso; auto|].
  destruct (IH n Hin) as [Hlen Hall]; [intuition|].
  split; [now rewrite Hlen|].
  intros r [<-|Hr]; [|now apply Hall].
  rewrite Forall_forall in Hy. now apply Hy.
Qed.

Lemma findNewest_spec :
  forall where_ take s,
    length (Repo.findNewest where_ take s) <= take /\
    (forall b, In b (Repo.findNewest where_ take s) ->
               In b (rows s) /\ where_ b = true) /\
    StronglySorted notOlder (Repo.findNewest where_ take s) /\
    (forall b, In b (rows s) -> where_ b = true ->
               ~ In b (Repo.findNewest where_ take s) ->
               length (Repo.findNewest where_ take s) = take /\
               forall r, In r (Repo.findNewest where_ take s) -> notOlder r b).
Proof.
  intros where_ take s. unfold Repo.findNewest.
  split; [apply firstn_le_length|]. split; [|split].
  - intros b Hb. apply firstn_In in Hb.
    rewrite newestFirst_In, filter_In in Hb. exact Hb.
  - apply StronglySorted_firstn, newestFirst_sorted.
  - intros b Hin Hw. apply StronglySorted_cut; [apply newestFirst_sorted|].
    rewrite newestFirst_In, filter_In. now split.
Qed.

Lemma whereUser_spec :
  forall userId gameCode b,
    BetService.whereUser userId gameCode b = true <->
    Bet.userId b = userId /\
    (forall g, gameCode = Some g -> g <> "" -> Bet.gameCode b = g).
Proof.
  intros userId gameCode b. unfold BetService.whereUser.
  rewrite andb_true_iff, String.eqb_eq.
  destruct gameCode as [[|c g]|]; simpl.
  - intuition congruence.
  - rewrite String.eqb_eq. split.
    + intros [Hu Hg]. split; [exact Hu|]. intros g' [= <-] _. exact Hg.
    + intros [Hu Hg]. split; [exact Hu|]. apply Hg; [reflexivity|discriminate].
  - intuition congruence.
Qed.

(** X13.  listUserBets returns at most [limit] bets (100 when no limit
    is passed), all of them stored bets of the user (and of the game,
    when a non-empty game code is passed), the newest first; a bet of
    the user that is left out is left out only because the limit is
    reached, and is no newer than any bet returned. *)
Theorem listUserBets_returns_the_newest_bets_of_the_user :
  forall userId gameCode limit s,
    let result := BetService.listUserBets userId gameCode limit s in
    length result <= BetService.rowLimit limit /\
    (forall b, In b result ->
       In b (rows s) /\ Bet.userId b = userId /\
       (forall g, gameCode = Some g -> g <> "" -> Bet.gameCode b = g)) /\
    StronglySorted (fun a b => Bet.createdAt b <= Bet.createdAt a) result /\
    (forall b,
       In b (rows s) -> Bet.userId b = userId ->
       (forall g, gameCode = Some g -> g <> "" -> Bet.gameCode b = g) ->
       ~ In b result ->
       length result = BetService.rowLimit limit /\
       forall r, In r result -> Bet.createdAt b <= Bet.createdAt r).
Proof.
  intros userId gameCode limit s result. subst result.
  unfold BetService.listUserBets.
  destruct (findNewest_spec (BetService.whereUser userId gameCode)
              (BetService.rowLimit limit) s) as (Hlen & Hin & Hsorted & Hcut).
  split; [exact Hlen|]. split; [|split; [exact Hsorted|]].
  - intros b Hb. destruct (Hin b Hb) as [Hrow Hw].
    apply whereUser_spec in Hw. tauto.
  - intros b Hrow Hu Hg. apply Hcut; [exact Hrow|].
    apply whereUser_spec. now split.
Qed.





Lemma Permutation_filter_on :
  forall (f : Bet.t -> bool) (l l' : list Bet.t),
    Permutation l l' -> Permutation (filter f l) (filter f l').
Proof.
  intros f l l' H.
  induction H as [|x l l' H IH|x y l|l l' l'' H1 IH1 H2 IH2]; simpl.
  - constructor.
  - destruct (f x); [now constructor|exact IH].
  - destruct (f x), (f y); try apply Permutation_refl. constructor.
  - now apply Permutation_trans with (filter f l').
Qed.

Lemma listByRound_arranged :
  forall scan gameCode roundId s,
    arrangement scan ->
    Permutation (BetService.listByRound scan gameCode roundId s)
      (filter (BetService.whereRound gameCode roundId) (rows s)).
Proof.
  intros scan gameCode roundId s Hscan.
  unfold BetService.listByRound, Repo.find.
  apply Permutation_filter_on, Hscan.
Qed.

(** X15.  A bet that createPlacement has stored joins the bets of its
    round, whatever the order in which the database returns rows:
    listByRound for its game and round then holds the new bet besides
    the bets it held before, and for every other round it holds the
    bets it held before; findBetByRoundId answers with a bet that
    listByRound lists, and with none only when listByRound lists none,
    so after the placement it finds a bet of the round. *)
Theorem placed_bet_joins_the_list_of_its_round :
  forall deps now p s row s1 scan scan',
    arrangement scan -> arrangement scan' ->
    BetService.createPlacement deps now p s = (Ok row, s1) ->
    Permutation
      (BetService.listByRound scan' (CreateBetParams.gameCode p)
         (CreateBetParams.roundId p) s1)
      (row :: BetService.listByRound scan (CreateBetParams.gameCode p)
                (CreateBetParams.roundId p) s) /\
    (forall gameCode roundId,
       gameCode <> CreateBetParams.gameCode p \/
       roundId <> CreateBetParams.roundId p ->
       Permutation (BetService.listByRound scan' gameCode roundId s1)
         (BetService.listByRound scan gameCode roundId s)) /\
    (forall gameCode roundId,
       match BetService.findBetByRoundId scan gameCode roundId s1 with
       | Some found =>
           In found (BetService.listByRound scan' gameCode roundId s1) /\
           Bet.gameCode found = gameCode /\ Bet.roundId found = roundId
       | None => BetService.listByRound scan' gameCode roundId s1 = []
       end) /\
    (exists found,
       BetService.findBetByRoundId scan (CreateBetParams.gameCode p)
         (CreateBetParams.roundId p) s1 = Some found).
Proof.
  intros deps now p s row s1 scan scan' Hscan Hscan' Hcall.
  destruct (createPlacement_inserted _ _ _ _ _ _ Hcall)
    as (_ & _ & Hrows & _ & _ & _ & Hg & Hr & _).
  assert (Hrow : BetService.whereRound (CreateBetParams.gameCode p)
                   (CreateBetParams.roundId p) row = true).
  { unfold BetService.whereRound. now rewrite Hg, Hr, !String.eqb_refl. }
  assert (Hlater :
    forall gameCode roundId,
      Permutation (BetService.listByRound scan' gameCode roundId s1)
        (filter (BetService.whereRound gameCode roundId) [row]
         ++ BetService.listByRound scan gameCode roundId s)).
  { intros gameCode roundId.
    eapply Permutation_trans; [now apply listByRound_arranged|].
    rewrite Hrows, filter_app.
    eapply Permutation_trans; [apply Permutation_app_comm|].
    apply Permutation_app_head, Permutation_sym.
    now apply listByRound_arranged. }
  split; [|split; [|split]].
  - specialize (Hlater (CreateBetParams.gameCode p) (CreateBetParams.roundId p)).
    simpl in Hlater. now rewrite Hrow in Hlater.
  - intros gameCode roundId Hne. specialize (Hlater gameCode roundId).
    simpl in Hlater. unfold BetService.whereRound at 1 in Hlater.
    rewrite Hg, Hr in Hlater.
    destruct (String.eqb_spec (CreateBetParams.gameCode p) gameCode),
             (String.eqb_spec (CreateBetParams.roundId p) roundId);
      simpl in Hlater; try exact Hlater.
    destruct Hne; congruence.
  - intros gameCode roundId.
    unfold BetService.findBetByRoundId, Repo.findAny.
    destruct (find _ (scan (rows s1))) as [found|] eqn:E.
    + apply find_some in E. destruct E as [Hin Hw]. split.
      * unfold BetService.listByRound, Repo.find. apply filter_In.
        split; [|exact Hw].
        apply Permutation_in with (rows s1);
          [apply Permutation_sym, Hscan'|].
        apply Permutation_in with (scan (rows s1)); [apply Hscan|exact Hin].
      * unfold BetService.whereRound in Hw.
        apply andb_true_iff in Hw. destruct Hw as [H1 H2].
        now apply String.eqb_eq in H1, H2.
    + unfold BetService.listByRound, Repo.find.
      destruct (filter _ (scan' (rows s1))) as [|b l] eqn:F; [reflexivity|].
      assert (Hb : In b (filter (BetService.whereRound gameCode roundId)
                           (scan' (rows s1)))) by (rewrite F; now left).
      apply filter_In in Hb. destruct Hb as [Hin Hw].
      rewrite (find_none _ _ E b) in Hw; [discriminate|].
      apply Permutation_in with (rows s1);
        [apply Permutation_sym, Hscan|].
      apply Permutation_in with (scan' (rows s1)); [apply Hscan'|exact Hin].
  - unfold BetService.findBetByRoundId, Repo.findAny.
    destruct (find _ (scan (rows s1))) as [found|] eqn:E;
      [now exists found|].
    rewrite (find_none _ _ E row) in Hrow; [discriminate|].
    apply Permutation_in with (rows s1); [apply Permutation_sym, Hscan|].
    rewrite Hrows. apply in_or_app. right. now left.
Qed.

(** "T2" placed in round "r1" of game "G1", which holds "T1"; the
    database returns the rows in table order for one query and in the
    opposite order for the other. *)
Lemma placed_bet_joins_the_list_of_its_round_witness :
  exists row,
    BetService.createPlacement Sample.noValidator 12
      (Sample.place "T2" "G1" "7.00") Sample.placed
    = (Ok row, Sample.twoBets) /\
    BetService.listByRound (fun l => l) "G1" "r1" Sample.placed
    = [Sample.placedRow] /\
    Permutation
      (BetService.listByRound (@rev Bet.t) "G1" "r1" Sample.twoBets)
      [row; Sample.placedRow] /\
    BetService.findBetByRoundId (fun l => l) "G1" "r1" Sample.twoBets
    = Some Sample.placedRow /\
    BetService.findBetByRoundId (@rev Bet.t) "G1" "r1" Sample.twoBets
    = Some row.
Proof.
  eexists. split; [reflexivity|]. split; [reflexivity|].
  destruct (placed_bet_joins_the_list_of_its_round Sample.noValidator 12
              (Sample.place "T2" "G1" "7.00") Sample.placed _ Sample.twoBets
              (fun l => l) (@rev Bet.t)
              (fun l => Permutation_refl l)
              (fun l => Permutation_sym (Permutation_rev l))
              eq_refl) as (H1 & _).
  split; [exact H1|]. split; reflexivity.
Defined.

(** The queries on the table that holds "T1" (created at 10) and "T2"
    (created at 12), both Placed bets of user "u1". *)
Example queries_on_the_sample_table :
  map Bet.externalPlatformTxId
    (BetService.listUserBets "u1" None None Sample.twoBets) = ["T2"; "T1"] /\
  map Bet.externalPlatformTxId
    (BetService.listUserBets "u1" (Some "G1") (Some 1%positive)
       Sample.twoBets) = ["T2"] /\
  BetService.listUserBets "u2" None None Sample.twoBets = [] /\
  map Bet.externalPlatformTxId
    (BetService.listUserBetsByTimeRange "u1" 11 20 None None Sample.twoBets)
  = ["T2"] /\
  map Bet.externalPlatformTxId
    (BetService.findOldPlacedBets 100 89 Sample.twoBets) = ["T1"] /\
  map Bet.externalPlatformTxId
    (BetService.findOldPlacedBets 100 50
       (run Sample.noValidator
          [(20, OpRecordSettlement (Sample.settle "T1" "10.500"))]
          Sample.twoBets)) = ["T2"] /\
  fst (BetService.deleteBetsBeforeDate 11 Sample.twoBets) = 1 /\
  map Bet.externalPlatformTxId
    (rows (snd (BetService.deleteBetsBeforeDate 11 Sample.twoBets)))
  = ["T2"] /\
  fst (BetService.deletePlacedBets Sample.won) = 0 /\
  fst (BetService.deletePlacedBets Sample.twoBets) = 2.
Proof. repeat split. Qed.

(** X25.  The duplicate check of createPlacement is by transaction id
    and game code, the unique index by transaction id alone.  So a
    placement whose transaction id is stored under another game passes
    the check and fails in the storage layer where the index is
    enforced: the caller gets the storage error, not Conflict, and the
    table is left as it was.  Where the index is not enforced the same
    placement is stored as a second row of that transaction id. *)
Theorem createPlacement_same_id_in_another_game :
  forall deps now p s other,
    validatorAccepts deps (CreateBetParams.gameCode p) ->
    CreateBetParams.gameCode p <> "" ->
    In other (rows s) ->
    Bet.externalPlatformTxId other = CreateBetParams.externalPlatformTxId p ->
    (forall r, In r (rows s) ->
       Bet.externalPlatformTxId r = CreateBetParams.externalPlatformTxId p ->
       Bet.gameCode r <> CreateBetParams.gameCode p) ->
    if BetService.uniqueTxIndex deps
    then exists message,
           BetService.createPlacement deps now p s
           = (Err (QueryFailedError message), s)
    else exists row s1,
           BetService.createPlacement deps now p s = (Ok row, s1) /\
           rows s1 = rows s ++ [row] /\
           Bet.externalPlatformTxId row = Bet.externalPlatformTxId other.
Proof.
  intros deps now p s other Hv Hg Hin Htx Hother.
  assert (Hval :
    match BetService.gameValidationService deps with
    | Some validateGame => validateGame (CreateBetParams.gameCode p)
    | None => None
    end = None).
  { unfold validatorAccepts in Hv.
    destruct (BetService.gameValidationService deps); auto. }
  assert (Hmiss :
    findOne
      (BetService.whereByExternalTx (CreateBetParams.externalPlatformTxId p)
         (Some (CreateBetParams.gameCode p))) s = None).
  { destruct (findOne _ s) as [b|] eqn:E; [|reflexivity].
    apply findOne_In in E. destruct E as [Hb Hw].
    unfold BetService.whereByExternalTx in Hw.
    apply truthy_string_nonempty in Hg. rewrite Hg in Hw.
    apply andb_true_iff in Hw. destruct Hw as [H1 H2].
    apply String.eqb_eq in H1, H2. now elim (Hother b Hb H1). }
  assert (Hdup :
    existsb
      (fun r => (Bet.externalPlatformTxId r
                 =? CreateBetParams.externalPlatformTxId p)%string)
      (rows s) = true).
  { apply existsb_exists. exists other. split; [exact Hin|].
    now apply String.eqb_eq. }
  unfold BetService.createPlacement. rewrite Hval, Hmiss. unfold insert.
  destruct (BetService.uniqueTxIndex deps); simpl.
  - rewrite Hdup. eexists. reflexivity.
  - eexists. eexists. split; [reflexivity|]. simpl. split; [reflexivity|].
    now rewrite Htx.
Qed.

(** "T1" is stored under game "G1"; it is placed again under "G2". *)
Lemma createPlacement_same_id_in_another_game_witness :
  exists message,
    BetService.createPlacement Sample.noValidator 12
      (Sample.place "T1" "G2" "5.00") Sample.placed
    = (Err (QueryFailedError message), Sample.placed).
Proof.
  apply (createPlacement_same_id_in_another_game Sample.noValidator 12
           (Sample.place "T1" "G2" "5.00") Sample.placed Sample.placedRow).
  - exact I.
  - discriminate.
  - now left.
  - reflexivity.
  - intros r [<-|[]] _. discriminate.
Defined.

(** X26.  updateStatus is updateBet with [status] as the only optional
    field supplied: both return the same result and leave the same
    table, for every table and status. *)
Theorem updateStatus_is_updateBet_of_the_status :
  forall now tx status updatedBy s,
    BetService.updateStatus now (UpdateBetStatusParams.mk tx status updatedBy) s
    = BetService.updateBet now
        {| UpdateBetParams.externalPlatformTxId := tx;
           UpdateBetParams.updatedBy := updatedBy;
           UpdateBetParams.userId := None;
           UpdateBetParams.roundId := None;
           UpdateBetParams.gameMetadata := None;
           UpdateBetParams.betAmount := None;
           UpdateBetParams.winAmount := None;
           UpdateBetParams.currency := None;
           UpdateBetParams.status := Some status;
           UpdateBetParams.settlementRefTxId := None;
           UpdateBetParams.isPremium := None;
           UpdateBetParams.betPlacedAt := None;
           UpdateBetParams.settledAt := None;
           UpdateBetParams.gameCode := None;
           UpdateBetParams.gameInfo := None;
           UpdateBetParams.balanceAfterBet := None;
           UpdateBetParams.balanceAfterSettlement := None;
           UpdateBetParams.operatorId := None;
           UpdateBetParams.finalCoeff := None;
           UpdateBetParams.withdrawCoeff := None;
           UpdateBetParams.fairnessData := None |} s.
Proof.
  intros now tx status updatedBy s.
  unfold BetService.updateStatus, BetService.updateBet. simpl.
  now destruct (findOne _ s).
Qed.

(** ** From placement to settlement *)

Lemma find_after_replace :
  forall (where_ : Bet.t -> bool) (l : list Bet.t) bet saved,
    find where_ l = Some bet ->
    Bet.id saved = Bet.id bet ->
    where_ saved = true ->
    find where_
      (map (fun r => if Bet.id r =? Bet.id bet then saved else r) l)
    = Some saved.
Proof.
  intros where_ l bet saved Hfind Hid Hw.
  induction l as [|x l IH]; [discriminate|]. simpl in *.
  destruct (Nat.eqb_spec (Bet.id x) (Bet.id bet)) as [E|E].
  - now rewrite Hw.
  - destruct (where_ x) eqn:Hx.
    + injection Hfind as ->. congruence.
    + now apply IH.
Qed.

(** X30.  A bet that createPlacement has stored can be settled by its
    transaction id.  With the unique index enforced and a placement
    whose status is not Won or Lost, a recordSettlement for that
    transaction id succeeds on the table the placement left: it settles
    the placed row (same id; the win amount is the caller's; every
    optional field has the caller's value when the caller supplies one
    and the placement's when not; the status is the caller's, or Won or
    Lost when the caller gives none), adds or removes no row, and the
    settled row is what getByExternalTxId returns on the table the
    settlement leaves. *)
Theorem placed_bet_is_settled_by_its_transaction_id :
  forall deps now now' p params s row s1,
    BetService.uniqueTxIndex deps = true ->
    BetService.createPlacement deps now p s = (Ok row, s1) ->
    BetService.alreadySettled (nullish (CreateBetParams.status p) PLACED)
    = false ->
    SettlementParams.externalPlatformTxId params
    = CreateBetParams.externalPlatformTxId p ->
    exists settled s2,
      BetService.recordSettlement now' params s1 = (Ok settled, s2) /\
      Bet.id settled = Bet.id row /\
      Bet.winAmount settled = Some (SettlementParams.winAmount params) /\
      (forall st, SettlementParams.status params = Some st ->
                  Bet.status settled = st) /\
      (SettlementParams.status params = None ->
       Bet.status settled = WON \/ Bet.status settled = LOST) /\
      suppliedFieldsWritten params settled /\
      omittedFieldsKept params row settled /\
      length (rows s2) = length (rows s1) /\
      BetService.getByExternalTxId (CreateBetParams.externalPlatformTxId p)
        None s2 = Some settled.
Proof.
  intros deps now now' p params s row s1 Hu Hcall Hopen Htx.
  destruct (createPlacement_inserted _ _ _ _ _ _ Hcall)
    as (_ & Hnew & Hrows & _ & _ & Hrowtx & _ & _ & _ & _ & Hst & _).
  specialize (Hnew Hu).
  assert (Hfind :
    findOne
      (BetService.whereByExternalTx
         (SettlementParams.externalPlatformTxId params) None) s1
    = Some row).
  { unfold findOne. rewrite Htx, Hrows, find_app.
    assert (find (BetService.whereByExternalTx
                    (CreateBetParams.externalPlatformTxId p) None) (rows s)
            = None) as ->.
    { destruct (find _ (rows s)) as [b|] eqn:E; [|reflexivity].
      apply find_some in E. destruct E as [Hin Hw].
      apply whereByExternalTx_tx in Hw.
      assert (existsb
                (fun r => (Bet.externalPlatformTxId r
                           =? CreateBetParams.externalPlatformTxId p)%string)
                (rows s) = true) by (apply existsb_exists; now exists b).
      congruence. }
    simpl. unfold BetService.whereByExternalTx.
    now rewrite Hrowtx, String.eqb_refl. }
  rewrite <- Hst in Hopen.
  destruct (recordSettlement_on_open_bet now' params s1 row Hfind Hopen)
    as (settled & s2 & Hsettle & _ & Hrows2 & Hid & Hstx & Hwin & _ & Hat
        & Hstatus & Hmerge & _).
  exists settled, s2. repeat (split; [assumption|]).
  split; [intros st Hsome; now rewrite Hstatus, Hsome|].
  split; [intros Hnone; rewrite Hstatus, Hnone;
          apply settlementStatus_derived|].
  split; [exact (settlementMerges_written now' _ _ _ Hmerge Hat)|].
  split; [exact (settlementMerges_kept _ _ _ Hmerge)|].
  split; [now rewrite Hrows2, length_map|].
  unfold BetService.getByExternalTxId, findOne. rewrite Hrows2.
  apply find_after_replace.
  - rewrite <- Htx. exact Hfind.
  - exact Hid.
  - unfold BetService.whereByExternalTx.
    now rewrite Hstx, Hrowtx, String.eqb_refl.
Qed.

(** "T2" is placed with "7.00" in round "r1" under the session
    "session-1", on the table that holds "T1", and settled by a request
    that supplies a win of "3.000", the session "session-2", the round
    "r2" and the balance "95.000": the settled row is Won, has the
    caller's session, round and balance and the placement's bet amount,
    and is the row found for "T2". *)
Lemma placed_bet_is_settled_by_its_transaction_id_witness :
  exists settled s2,
    BetService.recordSettlement 20
      (Sample.settleWith "T2" "3.000" "session-2" "r2" "95.000")
      Sample.twoBets
    = (Ok settled, s2) /\
    Bet.winAmount settled = Some "3.000" /\
    Bet.gameInfo settled = Some "session-2" /\
    Bet.roundId settled = "r2" /\
    Bet.balanceAfterSettlement settled = Some "95.000" /\
    Bet.betAmount settled = "7.00" /\
    BetService.getByExternalTxId "T2" None s2 = Some settled.
Proof.
  destruct (placed_bet_is_settled_by_its_transaction_id Sample.noValidator
              12 20 (Sample.place "T2" "G1" "7.00")
              (Sample.settleWith "T2" "3.000" "session-2" "r2" "95.000")
              Sample.placed _ Sample.twoBets
              eq_refl eq_refl eq_refl eq_refl)
    as (settled & s2 & Hcall & _ & Hwin & _ & _ & Hwritten & Hkept & _
        & Hfound).
  destruct Hwritten
    as (_ & _ & Hbalance & Hinfo & _ & _ & _ & _ & Hround & _).
  destruct Hkept as (_ & _ & _ & _ & _ & _ & _ & _ & _ & Hamount & _).
  exists settled, s2. split; [exact Hcall|]. split; [exact Hwin|].
  split; [exact (Hinfo _ eq_refl)|]. split; [exact (Hround _ eq_refl)|].
  split; [exact (Hbalance _ eq_refl)|].
  split; [exact (Hamount eq_refl)|exact Hfound].
Defined.

(** ** [Number()] on decimal amounts *)

Lemma take_digits_digits :
  forall ds rest acc cnt,
    Forall (fun c => JS.is_digit c = true) ds ->
    match rest with [] => True | c :: _ => JS.is_digit c = false end ->
    JS.take_digits (ds ++ rest) acc cnt
    = (digitsValue ds acc, cnt + length ds, rest).
Proof.
  induction ds as [|d ds IH]; intros rest acc cnt Hds Hrest;
    cbn [app JS.take_digits length].
  - rewrite Nat.add_0_r. destruct rest as [|c r]; [reflexivity|].
    cbn [JS.take_digits]. now rewrite Hrest.
  - inversion Hds as [|? ? Hd Hds']; subst. rewrite Hd.
    rewrite IH by assumption. unfold digitsValue. cbn [fold_left].
    now rewrite Nat.add_succ_r.
Qed.

Lemma digit_val_zero :
  forall c, JS.is_digit c = true ->
    (JS.digit_val c = 0%N <-> c = "0"%char).
Proof.
  intros c Hc. unfold JS.is_digit, JS.digit_val, JS.code in *.
  apply andb_true_iff in Hc. destruct Hc as [H1 H2].
  apply Nat.leb_le in H1, H2. split.
  - intros H. assert (nat_of_ascii c = 48) as E by lia.
    rewrite <- (ascii_nat_embedding c), E. reflexivity.
  - intros ->. reflexivity.
Qed.

Lemma digitsValue_positive :
  forall ds acc,
    Forall (fun c => JS.is_digit c = true) ds ->
    (0 <? digitsValue ds acc)%N
    = (0 <? acc)%N || existsb (fun c => negb (c =? "0")%char) ds.
Proof.
  induction ds as [|d ds IH]; intros acc Hds; simpl.
  - now rewrite orb_false_r.
  - inversion Hds as [|? ? Hd Hds']; subst.
    unfold digitsValue in *. simpl. rewrite IH by assumption.
    rewrite orb_assoc. f_equal.
    destruct (Ascii.eqb_spec d "0"%char) as [E|E]; simpl.
    + apply (digit_val_zero d Hd) in E. rewrite E, orb_false_r.
      destruct acc; reflexivity.
    + assert (JS.digit_val d <> 0%N) as Hnz
        by (intros H; now apply (digit_val_zero d Hd) in H).
      rewrite orb_true_r. apply N.ltb_lt. lia.
Qed.

Lemma plainChar_not_space :
  forall c, plainChar c -> JS.is_space c = false.
Proof.
  intros c [H | [-> | ->]]; try reflexivity.
  unfold JS.is_digit, JS.is_space, JS.code in *.
  apply andb_true_iff in H. destruct H as [H1 H2].
  apply Nat.leb_le in H1, H2.
  apply orb_false_iff. split.
  - apply andb_false_iff. right. apply Nat.leb_gt. lia.
  - apply Nat.eqb_neq. lia.
Qed.

Lemma drop_spaces_plain :
  forall l, Forall plainChar l -> JS.drop_spaces l = l.
Proof.
  intros [|c l] H; [reflexivity|]. simpl.
  inversion H; subst. now rewrite plainChar_not_space.
Qed.

Lemma trim_plain :
  forall l, Forall plainChar l -> JS.trim l = l.
Proof.
  intros l H. unfold JS.trim.
  rewrite (drop_spaces_plain l H).
  rewrite drop_spaces_plain by now apply Forall_rev.
  apply rev_involutive.
Qed.

Lemma parse_nondecimal_plain :
  forall l,
    Forall (fun c => JS.is_digit c = true \/ c = "."%char) (tl l) ->
    JS.parse_nondecimal l = None.
Proof.
  intros [|z [|p [|d ds]]] H; try reflexivity. simpl in H.
  inversion H as [|? ? Hp _]; subst. unfold JS.parse_nondecimal.
  destruct (JS.code z =? 48); [|reflexivity].
  assert (JS.code p < 58) as Hlt.
  { destruct Hp as [Hp | ->]; [|vm_compute; lia].
    unfold JS.is_digit in Hp. apply andb_true_iff in Hp.
    destruct Hp as [_ Hp]. apply Nat.leb_le in Hp. lia. }
  repeat match goal with
         | |- context [JS.code p =? ?n] =>
             destruct (Nat.eqb_spec (JS.code p) n); [lia|]
         end.
  reflexivity.
Qed.

Lemma decimal_parse :
  forall negative whole fraction,
    whole <> [] ->
    Forall (fun c => JS.is_digit c = true) whole ->
    Forall (fun c => JS.is_digit c = true) fraction ->
    JS.parse_unsigned negative (whole ++ "."%char :: fraction)
    = JS.NumDecimal negative (digitsValue fraction (digitsValue whole 0%N))
        (- Z.of_nat (length fraction))%Z.
Proof.
  intros negative whole fraction Hne Hw Hf. unfold JS.parse_unsigned.
  destruct (list_eq_dec ascii_dec _ _) as [E|_].
  - exfalso. destruct whole as [|c whole]; [now elim Hne|].
    inversion Hw as [|? ? Hc _]; subst. simpl in E.
    injection E as -> _. discriminate Hc.
  - rewrite take_digits_digits by (auto; reflexivity).
    cbv beta iota.
    change (JS.code "."%char =? 46) with true. cbv iota.
    rewrite <- (app_nil_r fraction) at 1.
    rewrite take_digits_digits by (auto; exact I).
    cbv beta iota. simpl (0 + _).
    destruct whole as [|c whole]; [now elim Hne|]. simpl.
    reflexivity.
Qed.

Lemma decimal_rounds_nonzero :
  forall m n,
    n <= 323 ->
    JS.rounds_nonzero m (- Z.of_nat n) = (0 <? m)%N.
Proof.
  intros m n Hn. unfold JS.rounds_nonzero.
  destruct (N.ltb_spec 0 m) as [Hm|Hm]; [|reflexivity]. simpl.
  destruct (Z.leb_spec 0 (- Z.of_nat n)) as [_|Hneg]; [reflexivity|].
  apply Z.ltb_lt. rewrite Z.opp_involutive.
  apply Z.le_lt_trans with (10 ^ 323)%Z.
  - apply Z.pow_le_mono_r; lia.
  - apply Z.lt_le_trans with (1 * 2 ^ 1075)%Z; [vm_compute; reflexivity|].
    apply Z.mul_le_mono_nonneg_r; [vm_compute; discriminate|lia].
Qed.

Lemma digit_code :
  forall c, JS.is_digit c = true -> 48 <= JS.code c <= 57.
Proof.
  intros c H. unfold JS.is_digit in H. apply andb_true_iff in H.
  destruct H as [H1 H2]. apply Nat.leb_le in H1, H2. lia.
Qed.

Lemma decimal_StringToNumber :
  forall c ws fraction,
    JS.is_digit c = true ->
    Forall (fun c => JS.is_digit c = true) ws ->
    Forall (fun c => JS.is_digit c = true) fraction ->
    JS.StringToNumber (decimalAmount (c :: ws) fraction)
    = JS.NumDecimal false
        (digitsValue fraction (digitsValue (c :: ws) 0%N))
        (- Z.of_nat (length fraction))%Z /\
    JS.StringToNumber ("-" ++ decimalAmount (c :: ws) fraction)
    = JS.NumDecimal true
        (digitsValue fraction (digitsValue (c :: ws) 0%N))
        (- Z.of_nat (length fraction))%Z.
Proof.
  intros c ws fraction Hc Hw Hf.
  assert (Hall : Forall (fun c => JS.is_digit c = true \/ c = "."%char)
                   (c :: ws ++ "."%char :: fraction)).
  { constructor; [now left|]. apply Forall_app. split.
    - eapply Forall_impl; [|exact Hw]. intros x Hx. now left.
    - constructor; [now right|].
      eapply Forall_impl; [|exact Hf]. intros x Hx. now left. }
  assert (Hplain : Forall plainChar (c :: ws ++ "."%char :: fraction)).
  { eapply Forall_impl; [|exact Hall]. intros x [Hx | ->];
      [now left|right; now left]. }
  pose proof (digit_code c Hc) as Hcode.
  unfold JS.StringToNumber, decimalAmount. split.
  - rewrite list_ascii_of_string_of_list_ascii.
    cbn [app]. rewrite (trim_plain _ Hplain).
    rewrite parse_nondecimal_plain by (cbn [tl]; now inversion Hall).
    destruct (Nat.eqb_spec (JS.code c) 43); [lia|].
    destruct (Nat.eqb_spec (JS.code c) 45); [lia|].
    change (c :: ws ++ "."%char :: fraction)
      with ((c :: ws) ++ "."%char :: fraction).
    apply decimal_parse; [discriminate|now constructor|exact Hf].
  - change ("-" ++ string_of_list_ascii ((c :: ws) ++ "."%char :: fraction))%string
      with (string_of_list_ascii
              ("-"%char :: c :: ws ++ "."%char :: fraction)).
    rewrite list_ascii_of_string_of_list_ascii.
    rewrite trim_plain by (constructor; [right; now right|exact Hplain]).
    rewrite parse_nondecimal_plain by exact Hall.
    change (JS.code "-"%char =? 43) with false.
    change (JS.code "-"%char =? 45) with true. cbv iota.
    change (c :: ws ++ "."%char :: fraction)
      with ((c :: ws) ++ "."%char :: fraction).
    apply decimal_parse; [discriminate|now constructor|exact Hf].
Qed.

(** X29.  For a win amount written as the decimal column writes it
    (digits, a point, and at most 323 digits after it; the column has
    3), a settlement without [status] derives Won exactly when some
    digit of the amount is not 0, and Lost for an amount of zeros; the
    same amount with a minus sign derives Lost. *)
Theorem settlement_of_a_decimal_amount :
  forall whole fraction,
    whole <> [] ->
    Forall (fun c => JS.is_digit c = true) whole ->
    Forall (fun c => JS.is_digit c = true) fraction ->
    length fraction <= 323 ->
    BetService.settlementStatus None (decimalAmount whole fraction)
    = (if existsb (fun c => negb (c =? "0")%char) (whole ++ fraction)
       then WON else LOST) /\
    BetService.settlementStatus None ("-" ++ decimalAmount whole fraction)
    = LOST.
Proof.
  intros whole fraction Hne Hw Hf Hlen.
  destruct whole as [|c ws]; [now elim Hne|].
  inversion Hw as [|? ? Hc Hws]; subst.
  destruct (decimal_StringToNumber c ws fraction Hc Hws Hf) as [Hpos Hneg].
  unfold BetService.settlementStatus, JS.Number_gt0.
  rewrite Hpos, Hneg. split.
  - replace (JS.truthy_string (decimalAmount (c :: ws) fraction)) with true
      by reflexivity.
    cbn [negb andb]. rewrite (decimal_rounds_nonzero _ _ Hlen).
    rewrite digitsValue_positive by exact Hf.
    rewrite digitsValue_positive by exact Hw.
    now rewrite existsb_app.
  - cbn [negb andb]. now rewrite andb_false_r.
Qed.

(** The amounts of the specification: "10.500" and "0.000". *)
Lemma settlement_of_a_decimal_amount_witness :
  BetService.settlementStatus None "10.500" = WON /\
  BetService.settlementStatus None "0.000" = LOST /\
  BetService.settlementStatus None "-10.500" = LOST.
Proof.
  assert (Hdigits : forall l,
            forallb JS.is_digit l = true ->
            Forall (fun c => JS.is_digit c = true) l).
  { intros l H. apply Forall_forall. intros c Hc.
    rewrite forallb_forall in H. now apply H. }
  split; [|split].
  - exact (proj1 (settlement_of_a_decimal_amount
                    (list_ascii_of_string "10") (list_ascii_of_string "500")
                    ltac:(discriminate) (Hdigits (list_ascii_of_string "10") eq_refl)
                    (Hdigits (list_ascii_of_string "500") eq_refl)
                    ltac:(simpl; lia))).
  - exact (proj1 (settlement_of_a_decimal_amount
                    (list_ascii_of_string "0") (list_ascii_of_string "000")
                    ltac:(discriminate) (Hdigits (list_ascii_of_string "0") eq_refl)
                    (Hdigits (list_ascii_of_string "000") eq_refl)
                    ltac:(simpl; lia))).
  - exact (proj2 (settlement_of_a_decimal_amount
                    (list_ascii_of_string "10") (list_ascii_of_string "500")
                    ltac:(discriminate) (Hdigits (list_ascii_of_string "10") eq_refl)
                    (Hdigits (list_ascii_of_string "500") eq_refl)
                    ltac:(simpl; lia))).
Defined.

(** * Further properties of the wallet gateway *)

(** ** Outcomes of a call *)

Lemma postsOf_app :
  forall (number : Type) (w1 w2 : Trace number),
    postsOf (w1 ++ w2) = postsOf w1 ++ postsOf w2.
Proof. intros. unfold postsOf. apply flat_map_app. Qed.

Lemma postsOf_logAuditThen :
  forall rt env a k w,
    postsOf (logAuditThen rt env a k w) = postsOf w.
Proof.
  intros rt env a k w.
  destruct (logAuditThen_tail rt env a k w) as (tail & -> & Htail & _).
  rewrite postsOf_app.
  destruct Htail as [-> | [(job & _ & ->) | [-> | (job & _ & ->)]]];
    simpl; apply app_nil_r.
Qed.

Lemma postsOf_logAudit :
  forall rt env a w, postsOf (logAudit rt env a w) = postsOf w.
Proof.
  intros. rewrite logAudit_as_then. apply postsOf_logAuditThen.
Qed.

Lemma retryJobsOf_logAudit :
  forall rt env a w, retryJobsOf (logAudit rt env a w) = retryJobsOf w.
Proof.
  intros rt env a w. destruct (logAudit_tail rt env a w) as (tail & -> & Ht & _).
  rewrite retryJobsOf_app. destruct Ht as [-> | ->]; simpl; apply app_nil_r.
Qed.

Lemma mapAgentResponse_raw :
  forall rt data mapped,
    mapAgentResponse rt data = Ok mapped ->
    WalletResponse.raw mapped = data /\
    exists fields,
      data = VObject fields /\
      getProp rt "status" fields = VString (WalletResponse.status mapped).
Proof.
  intros rt data mapped H. unfold mapAgentResponse in H.
  destruct data as [| | | | |items|fields]; try discriminate.
  destruct (getProp rt "status" fields) eqn:E; try discriminate.
  injection H as <-. simpl. split; [reflexivity|]. now exists fields.
Qed.

(** X16.  A call that the agent accepts (a well-formed reply whose
    status is "0000") returns the mapped reply, whose [raw] is the body
    received; it has sent one request under the agent's key, written at
    most one audit record, a Success without failure kind and exactly
    one when the audit log stores it, and queued no retry job. *)
Theorem accepted_call_is_audited_once_as_success :
  forall rt env clock requestId call w agent resp mapped,
    Env.agentsService env (agentOf call) = Some agent ->
    (forall url payload, Env.httpPost env url payload = Ok resp) ->
    mapAgentResponse rt (HttpResponse.data resp) = Ok mapped ->
    WalletResponse.status mapped = "0000" ->
    exists payload audit tail,
      invoke rt env clock requestId call w
      = (Ok mapped, (w ++ [EPost (Agent.callbackURL agent) payload]) ++ tail) /\
      Envelope.key payload = Agent.cert agent /\
      WalletResponse.raw mapped = HttpResponse.data resp /\
      (tail = [] \/ tail = [EAudit (auditCount rt w) audit]) /\
      (Env.walletAuditService env audit = AuditStored ->
       tail = [EAudit (auditCount rt w) audit]) /\
      AuditParams.status audit = SUCCESS /\
      AuditParams.failureType audit = None.
Proof.
  intros rt env clock requestId call w agent resp mapped
    Hagent Hpost Hmap Hstatus.
  destruct (invoke_shape rt env agent w clock requestId call Hagent)
    as [payload [Hshape Hkey]].
  inversion Hshape as
    [ err aC kC Hp _ _ Hout
    | resp' aC kC Hp Hmal _ _ Hout
    | resp' mapped' message aR kR aC kC Hp Hm Hst _ _ _ _ Hout
    | resp' mapped' aS Hp Hm Hst HaS1 HaS2 Hout ];
    rewrite Hpost in Hp; try discriminate; injection Hp as <-.
  - apply (mapAgentResponse_malformed rt) in Hmal. congruence.
  - rewrite Hm in Hmap. injection Hmap as ->.
    rewrite Hstatus in Hst. discriminate.
  - rewrite Hm in Hmap. injection Hmap as ->.
    destruct (logAudit_tail rt env aS
                (w ++ [EPost (Agent.callbackURL agent) payload]))
      as (tail & -> & Hcases & Hstored).
    rewrite auditCount_post in Hcases, Hstored.
    exists payload, aS, tail. repeat split; auto.
    now apply mapAgentResponse_raw in Hm.
Qed.

(** getBalance against an agent that answers [{ status: "0000" }]. *)
Lemma accepted_call_is_audited_once_as_success_witness :
  exists mapped payload audit,
    getBalance Sample.runtime (Sample.env (Sample.replied "0000"))
      Sample.clock "req-1" "agent1" "u1" []
    = (Ok mapped, [EPost "https://agent1/cb" payload; EAudit 0 audit]) /\
    WalletResponse.status mapped = "0000" /\
    AuditParams.status audit = SUCCESS.
Proof.
  destruct (accepted_call_is_audited_once_as_success Sample.runtime
              (Sample.env (Sample.replied "0000")) Sample.clock "req-1"
              (GetBalance "agent1" "u1") [] Sample.agent
              (HttpResponse.mk 200 (VObject [("status", VString "0000")]))
              (WalletResponse.mk 0%Z VNull "0000" VNull
                 (VObject [("status", VString "0000")]))
              eq_refl (fun _ _ => eq_refl) eq_refl eq_refl)
    as (payload & audit & tail & Hcall & _ & _ & _ & Hstored & Hst & _).
  rewrite (Hstored eq_refl) in Hcall.
  eexists. exists payload, audit.
  split; [exact Hcall|]. split; [reflexivity|exact Hst].
Defined.

(** X17.  A call for an agent that the directory does not know fails
    with NotFound ("Agent '<id>' not found") before any request is
    sent, and queues nothing.  getBalance, settleBet and refundBet leave
    no audit record of it; placeBet, which resolves the agent inside
    its try block, records one Failure, of kind HTTP_ERROR and without
    request URL or payload. *)
Theorem unknown_agent_is_rejected_before_any_request :
  forall rt env clock requestId call w,
    Env.agentsService env (agentOf call) = None ->
    exists tail,
      invoke rt env clock requestId call w
      = (Err (Nest.NotFoundException (Runtime.number rt)
                ("Agent '" ++ agentOf call ++ "' not found")%string),
         w ++ tail) /\
      postsOf tail = [] /\ retryJobsOf tail = [] /\
      match call with
      | PlaceBet params =>
          exists audit,
            (tail = [] \/ tail = [EAudit (auditCount rt w) audit]) /\
            (Env.walletAuditService env audit = AuditStored ->
             tail = [EAudit (auditCount rt w) audit]) /\
            AuditParams.status audit = FAILURE /\
            AuditParams.failureType audit = Some HTTP_ERROR /\
            AuditParams.apiAction audit = PLACE_BET /\
            AuditParams.requestUrl audit = None /\
            AuditParams.requestPayload audit = None /\
            AuditParams.responseTime audit = 0%Z
      | _ => tail = []
      end.
Proof.
  intros rt env clock requestId call w Hagent.
  destruct call as [agentId userId|params|params|params]; simpl in Hagent;
    unfold invoke, getBalance, placeBet, settleBet, refundBet, resolveAgent;
    rewrite Hagent; cbv zeta;
    try (exists []; rewrite app_nil_r; repeat split; auto; fail).
  match goal with
  | |- context [classifyError rt ?e] =>
      change (classifyError rt e)
        with (HTTP_ERROR, @None nat, @VUndefined (Runtime.number rt))
  end.
  cbv beta iota.
  match goal with
  | |- context [logAudit rt env ?a w] =>
      destruct (logAudit_tail rt env a w) as (tail & -> & Hcases & Hstored);
      exists tail; split; [reflexivity|];
      split; [destruct Hcases as [-> | ->]; reflexivity|];
      split; [destruct Hcases as [-> | ->]; reflexivity|];
      exists a; repeat split; auto
  end.
Qed.

(** settleBet and placeBet for an agent that the directory does not
    know. *)
Lemma unknown_agent_is_rejected_before_any_request_witness :
  settleBet Sample.runtime (Sample.env (Sample.replied "0000")) Sample.clock
    "req-1"
    (SettleBetParams.mk "nobody" "T1" "u1" 0%Z "r1" 5%Z "G1" None) []
  = (Err (Nest.NotFoundException Z "Agent 'nobody' not found"), []) /\
  exists audit,
    placeBet Sample.runtime (Sample.env (Sample.replied "0000")) Sample.clock
      "req-1" (PlaceBetParams.mk "nobody" "u1" 5%Z "r1" "T1" None "G1") []
    = (Err (Nest.NotFoundException Z "Agent 'nobody' not found"),
       [EAudit 0 audit]) /\
    AuditParams.failureType audit = Some HTTP_ERROR /\
    AuditParams.requestUrl audit = None.
Proof.
  split.
  - destruct (unknown_agent_is_rejected_before_any_request Sample.runtime
                (Sample.env (Sample.replied "0000")) Sample.clock "req-1"
                (SettleBet
                   (SettleBetParams.mk "nobody" "T1" "u1" 0%Z "r1" 5%Z "G1"
                      None)) [] eq_refl)
      as (tail & Hcall & _ & _ & Htail).
    simpl in Htail. rewrite Htail in Hcall. exact Hcall.
  - destruct (unknown_agent_is_rejected_before_any_request Sample.runtime
                (Sample.env (Sample.replied "0000")) Sample.clock "req-1"
                (PlaceBet
                   (PlaceBetParams.mk "nobody" "u1" 5%Z "r1" "T1" None "G1"))
                [] eq_refl)
      as (tail & Hcall & _ & _ & audit & _ & Hstored & _ & Hkind & _ & Hurl
          & _).
    rewrite (Hstored eq_refl) in Hcall.
    exists audit. split; [exact Hcall|]. split; [exact Hkind|exact Hurl].
Defined.

Lemma logAuditThen_adds_no_request :
  forall rt env a k w,
    exists tail,
      logAuditThen rt env a k w = w ++ tail /\ postsOf tail = [].
Proof.
  intros rt env a k w.
  destruct (logAuditThen_tail rt env a k w) as (tail & Ht & Hcases & _).
  exists tail. split; [exact Ht|].
  destruct Hcases as [-> | [(job & _ & ->) | [-> | (job & _ & ->)]]];
    reflexivity.
Qed.

(** What a call to a known agent leaves in the log, whatever its end:
    the request, then what the audit writes and their continuations
    add. *)
Lemma invoke_posts_once :
  forall rt env clock requestId call w agent,
    Env.agentsService env (agentOf call) = Some agent ->
    exists payload tail,
      snd (invoke rt env clock requestId call w)
      = (w ++ [EPost (Agent.callbackURL agent) payload]) ++ tail /\
      Envelope.key payload = Agent.cert agent /\
      postsOf tail = [].
Proof.
  intros rt env clock requestId call w agent Hagent.
  destruct (invoke_shape rt env agent w clock requestId call Hagent)
    as [payload [Hshape Hkey]].
  exists payload.
  inversion Hshape as
    [ err aC kC _ _ _ Hout
    | resp aC kC _ _ _ _ Hout
    | resp mapped message aR kR aC kC _ _ _ _ _ _ _ Hout
    | resp mapped aS _ _ _ _ _ Hout ]; cbn [snd];
    rewrite ?logAudit_as_then.
  - destruct (logAuditThen_adds_no_request rt env aC kC
                (w ++ [EPost (Agent.callbackURL agent) payload]))
      as (t & -> & Ht).
    now exists t.
  - destruct (logAuditThen_adds_no_request rt env aC kC
                (w ++ [EPost (Agent.callbackURL agent) payload]))
      as (t & -> & Ht).
    now exists t.
  - destruct (logAuditThen_adds_no_request rt env aR kR
                (w ++ [EPost (Agent.callbackURL agent) payload]))
      as (t1 & -> & Ht1).
    destruct (logAuditThen_adds_no_request rt env aC kC
                ((w ++ [EPost (Agent.callbackURL agent) payload]) ++ t1))
      as (t2 & -> & Ht2).
    exists (t1 ++ t2). split; [now rewrite app_assoc|]. split; [exact Hkey|].
    now rewrite postsOf_app, Ht1, Ht2.
  - destruct (logAuditThen_adds_no_request rt env aS (fun _ => None)
                (w ++ [EPost (Agent.callbackURL agent) payload]))
      as (t & -> & Ht).
    now exists t.
Qed.

(** X18.  The gateway sends exactly one request per call to a known
    agent, to the agent's callback URL and under the agent's key,
    whether the call ends in success, rejection, a malformed reply or a
    transport failure: a failed request is never sent again by the call
    itself.  For an unknown agent it sends none. *)
Theorem each_call_sends_one_request :
  forall rt env clock requestId call w,
    match Env.agentsService env (agentOf call) with
    | Some agent =>
        exists payload,
          postsOf (snd (invoke rt env clock requestId call w))
          = postsOf w ++ [(Agent.callbackURL agent, payload)] /\
          Envelope.key payload = Agent.cert agent
    | None =>
        postsOf (snd (invoke rt env clock requestId call w)) = postsOf w
    end.
Proof.
  intros rt env clock requestId call w.
  destruct (Env.agentsService env (agentOf call)) as [agent|] eqn:Hagent.
  - destruct (invoke_posts_once rt env clock requestId call w agent Hagent)
      as (payload & tail & -> & Hkey & Htail).
    exists payload. split; [|exact Hkey].
    rewrite !postsOf_app, Htail. simpl. now rewrite app_nil_r.
  - destruct (invoke_unknown_agent rt env clock requestId call w Hagent)
      as (tail & -> & _ & Htail & _).
    cbn [snd]. rewrite postsOf_app, Htail. apply app_nil_r.
Qed.

(** X19.  When the audit log rejects every write, a call leaves no
    audit record and no retry job, whatever its outcome: the retry job
    of a failed settleBet or refundBet is created only in the
    continuation of the audit write, which does not run. *)
Theorem no_retry_job_without_the_audit_write :
  forall rt env clock requestId call w,
    (forall a, Env.walletAuditService env a = AuditRejected) ->
    auditsOf (snd (invoke rt env clock requestId call w)) = auditsOf w /\
    retryJobsOf (snd (invoke rt env clock requestId call w)) = retryJobsOf w.
Proof.
  intros rt env clock requestId call w Hrej.
  assert (Hthen : forall a k w0, logAuditThen rt env a k w0 = w0).
  { intros a k w0. unfold logAuditThen. now rewrite Hrej. }
  assert (Hlog : forall a w0, logAudit rt env a w0 = w0).
  { intros a w0. unfold logAudit. now rewrite Hrej. }
  destruct (Env.agentsService env (agentOf call)) as [agent|] eqn:Hagent.
  - destruct (invoke_shape rt env agent w clock requestId call Hagent)
      as [payload [Hshape _]].
    inversion Hshape; cbn [snd]; rewrite ?Hthen, ?Hlog;
      rewrite auditsOf_app, retryJobsOf_app; simpl;
      now rewrite !app_nil_r.
  - destruct (invoke_unknown_agent rt env clock requestId call w Hagent)
      as (tail & Hcall & Hjobs & _ & Hcases).
    rewrite Hcall. cbn [snd].
    rewrite auditsOf_app, retryJobsOf_app, Hjobs, app_nil_r.
    split; [|reflexivity].
    destruct Hcases as [-> | (a & ->)]; [apply app_nil_r|].
    exfalso.
    (* the record would have been stored by an audit service that rejects *)
    destruct call as [agentId userId|params|params|params];
      simpl in Hagent;
      unfold invoke, getBalance, placeBet, settleBet, refundBet, resolveAgent
        in Hcall;
      rewrite Hagent in Hcall; cbv zeta in Hcall;
      try (injection Hcall as Hw;
           rewrite <- (app_nil_r w) in Hw at 1;
           apply app_inv_head in Hw; discriminate).
    match type of Hcall with
    | context [classifyError rt ?e] =>
        change (classifyError rt e)
          with (HTTP_ERROR, @None nat, @VUndefined (Runtime.number rt))
          in Hcall
    end.
    cbv beta iota in Hcall. rewrite Hlog in Hcall.
    injection Hcall as Hw.
    rewrite <- (app_nil_r w) in Hw at 1.
    apply app_inv_head in Hw. discriminate.
Qed.

(** settleBet against an endpoint that refuses the connection, with an
    audit log that rejects every write: the failure leaves neither an
    audit record nor a retry job. *)
Lemma no_retry_job_without_the_audit_write_witness :
  auditsOf
    (snd (settleBet Sample.runtime
            (Sample.envWithoutAudit Sample.connectionRefused) Sample.clock
            "req-1" Sample.settleBetParams [])) = [] /\
  retryJobsOf
    (snd (settleBet Sample.runtime
            (Sample.envWithoutAudit Sample.connectionRefused) Sample.clock
            "req-1" Sample.settleBetParams [])) = [].
Proof.
  exact (no_retry_job_without_the_audit_write Sample.runtime
           (Sample.envWithoutAudit Sample.connectionRefused) Sample.clock
           "req-1" (SettleBet Sample.settleBetParams) [] (fun _ => eq_refl)).
Defined.

(** X20.  The audit log and the retry queue are written in the
    background and cannot change a call: with any other audit log and
    retry queue, stored or failing, the call returns the same result or
    throws the same error, and sends the same request. *)
Theorem audit_and_retry_services_do_not_change_the_outcome :
  forall rt env clock requestId call w audit retry,
    fst (invoke rt (withServices env audit retry) clock requestId call w)
    = fst (invoke rt env clock requestId call w) /\
    postsOf (snd (invoke rt (withServices env audit retry) clock requestId
                    call w))
    = postsOf (snd (invoke rt env clock requestId call w)).
Proof.
  intros rt env clock requestId call w audit retry.
  destruct call as [agentId userId|params|params|params];
    unfold invoke, getBalance, placeBet, settleBet, refundBet, resolveAgent,
      gamePayloadsFor;
    cbn [withServices Env.agentsService Env.httpPost Env.walletApiAdapter];
    match goal with
    | |- context [Env.agentsService env ?a] =>
        destruct (Env.agentsService env a) as [agent|]
    end;
    cbv zeta; unfold tryCatch, post;
    cbn [withServices Env.agentsService Env.httpPost Env.walletApiAdapter];
    try match goal with
    | |- context [Env.httpPost env ?u ?p] =>
        destruct (Env.httpPost env u p) as [resp|err]
    end;
    try match goal with
    | |- context [mapAgentResponse rt ?d] =>
        destruct (mapAgentResponse rt d) as [mapped|e];
        [ destruct (WalletResponse.status mapped =? "0000")%string |]
    end;
    cbn [negb]; cbv iota;
    repeat match goal with
    | |- context [classifyError rt ?e] =>
        destruct (classifyError rt e) as [[kind httpStatus] responseData]
    end;
    cbn [fst snd];
    rewrite ?postsOf_logAudit, ?postsOf_logAuditThen;
    split; reflexivity.
Qed.

(** *** Object literals *)

Section Objects.

Variable rt : Runtime.t.

Lemma getProp_setProp_same :
  forall k v o, getProp rt k (setProp rt k v o) = v.
Proof.
  intros k v o. unfold getProp.
  induction o as [|[k' v'] o IH]; simpl.
  - now rewrite String.eqb_refl.
  - destruct (String.eqb_spec k' k) as [E|E]; simpl.
    + now rewrite String.eqb_refl.
    + destruct (String.eqb_spec k' k); [contradiction|exact IH].
Qed.

Lemma getProp_setProp_other :
  forall k k' v o, k' <> k -> getProp rt k (setProp rt k' v o) = getProp rt k o.
Proof.
  intros k k' v o Hne. unfold getProp.
  induction o as [|[k0 v0] o IH]; simpl.
  - now destruct (String.eqb_spec k' k).
  - destruct (String.eqb_spec k0 k') as [E|E]; simpl.
    + subst k0. now destruct (String.eqb_spec k' k).
    + destruct (String.eqb_spec k0 k); [reflexivity|exact IH].
Qed.

(** In an object literal a property takes the value of its last
    definition: one among the trailing properties [post] if there is
    one, and otherwise what the leading ones gave it. *)
Lemma getProp_objectLiteral_app :
  forall k pre post,
    getProp rt k (objectLiteral rt (pre ++ post))
    = match find (fun kv => (fst kv =? k)%string) (rev post) with
      | Some kv => snd kv
      | None => getProp rt k (objectLiteral rt pre)
      end.
Proof.
  intros k pre post. induction post as [|[k' v'] post IH] using rev_ind.
  - now rewrite app_nil_r.
  - rewrite rev_app_distr, app_assoc. simpl.
    unfold objectLiteral in *. rewrite fold_left_app. simpl.
    destruct (String.eqb_spec k' k) as [->|E].
    + apply getProp_setProp_same.
    + rewrite getProp_setProp_other by exact E. exact IH.
Qed.

End Objects.

Lemma Forall2_map_r :
  forall (A B : Type) (R : A -> B -> Prop) (f : A -> B) (l : list A),
    (forall x, In x l -> R x (f x)) -> Forall2 R l (map f l).
Proof.
  intros A B R f l H. induction l as [|x l IH]; simpl; constructor.
  - apply H. now left.
  - apply IH. intros y Hy. apply H. now right.
Qed.

Lemma postsOf_post :
  forall (number : Type) (w : Trace number) url payload,
    postsOf (w ++ [EPost url payload]) = postsOf w ++ [(url, payload)].
Proof. intros. now rewrite postsOf_app. Qed.

Ltac split_call :=
  cbv zeta; unfold tryCatch, post;
  try match goal with
  | |- context [Env.httpPost ?env ?u ?p] =>
      destruct (Env.httpPost env u p) as [resp|err]
  end;
  try match goal with
  | |- context [mapAgentResponse ?rt ?d] =>
      destruct (mapAgentResponse rt d) as [mapped|e];
      [ destruct (WalletResponse.status mapped =? "0000")%string |]
  end;
  cbn [negb]; cbv iota;
  repeat match goal with
  | |- context [classifyError ?rt ?e] =>
      destruct (classifyError rt e) as [[kind httpStatus] responseData]
  end;
  cbn [fst snd];
  rewrite ?postsOf_logAudit, ?postsOf_logAuditThen.

(** X21.  The request that placeBet sends is the serialised
    [{ action: "bet", txns: [txn] }] under the agent's key, and in
    [txn] the amount, the round, the bet time, [betType: null] and
    [isPremium: false] are the call's own, whatever the game adapter
    supplies: the adapter's payloads are spread before them.  Without
    an adapter the transaction id, the user, the game code and the
    currency (the caller's, or "USD" when it is omitted or empty) are
    the call's own as well. *)
Theorem placeBet_request_carries_the_callers_amount :
  forall rt env clock requestId params w agent,
    Env.agentsService env (PlaceBetParams.agentId params) = Some agent ->
    exists txn,
      postsOf (snd (placeBet rt env clock requestId params w))
      = postsOf w ++
        [(Agent.callbackURL agent,
          Envelope.mk (Agent.cert agent)
            (Runtime.JSON_stringify rt
               (VObject [("action", VString "bet");
                         ("txns", VArray [VObject txn])])))] /\
      getProp rt "betAmount" txn = VNumber (PlaceBetParams.amount params) /\
      getProp rt "roundId" txn = VString (PlaceBetParams.roundId params) /\
      getProp rt "betTime" txn = VString (Clock.isoNow clock) /\
      getProp rt "betType" txn = VNull /\
      getProp rt "isPremium" txn = VBool false /\
      (Env.walletApiAdapter env = None ->
       getProp rt "platformTxId" txn
       = VString (PlaceBetParams.platformTxId params) /\
       getProp rt "userId" txn = VString (PlaceBetParams.userId params) /\
       getProp rt "gameCode" txn = VString (PlaceBetParams.gameCode params) /\
       getProp rt "currency" txn
       = VString match PlaceBetParams.currency params with
                 | Some c => if JS.truthy_string c then c else "USD"
                 | None => "USD"
                 end).
Proof.
  intros rt env clock requestId params w agent Hagent.
  eexists. split.
  - unfold placeBet, resolveAgent. rewrite Hagent. split_call.
    all: rewrite postsOf_post; reflexivity.
  - rewrite app_assoc.
    repeat split; try (rewrite getProp_objectLiteral_app; reflexivity).
    all: unfold gamePayloadsFor; rewrite H; reflexivity.
Qed.

(** The request of the sample placeBet. *)
Lemma placeBet_request_carries_the_callers_amount_witness :
  exists txn,
    postsOf
      (snd (placeBet Sample.runtime (Sample.env (Sample.replied "0000"))
              Sample.clock "req-1" Sample.placeBetParams []))
    = [("https://agent1/cb",
        Envelope.mk "cert1"
          (Sample.stringify
             (VObject [("action", VString "bet");
                       ("txns", VArray [VObject txn])])))] /\
    getProp Sample.runtime "betAmount" txn = VNumber 5%Z /\
    getProp Sample.runtime "currency" txn = VString "USD".
Proof.
  destruct (placeBet_request_carries_the_callers_amount Sample.runtime
              (Sample.env (Sample.replied "0000")) Sample.clock "req-1"
              Sample.placeBetParams [] Sample.agent eq_refl)
    as (txn & Hpost & Hamount & _ & _ & _ & _ & Hown).
  exists txn. split; [exact Hpost|]. split; [exact Hamount|].
  exact (proj2 (proj2 (proj2 (Hown eq_refl)))).
Defined.

(** X22.  The request that settleBet sends is the serialised
    [{ action: "settle", txns: [txn] }] under the agent's key, and in
    [txn] the bet amount, the win amount, the round and the bet time are
    the call's own, whatever the game adapter supplies; a truthy
    [gameSession] is sent as [gameInfo], as it is when it is a string
    and serialised otherwise. *)
Theorem settleBet_request_carries_the_callers_amounts :
  forall rt env clock requestId params w agent,
    Env.agentsService env (SettleBetParams.agentId params) = Some agent ->
    exists txn,
      postsOf (snd (settleBet rt env clock requestId params w))
      = postsOf w ++
        [(Agent.callbackURL agent,
          Envelope.mk (Agent.cert agent)
            (Runtime.JSON_stringify rt
               (VObject [("action", VString "settle");
                         ("txns", VArray [VObject txn])])))] /\
      getProp rt "betAmount" txn = VNumber (SettleBetParams.betAmount params) /\
      getProp rt "winAmount" txn = VNumber (SettleBetParams.winAmount params) /\
      getProp rt "roundId" txn = VString (SettleBetParams.roundId params) /\
      getProp rt "betTime" txn = VString (Clock.isoNow clock) /\
      getProp rt "refPlatformTxId" txn = VNull /\
      (forall session,
         SettleBetParams.gameSession params = Some session ->
         truthy rt session = true ->
         getProp rt "gameInfo" txn = VString (asText rt session)).
Proof.
  intros rt env clock requestId params w agent Hagent.
  eexists. split.
  - unfold settleBet, resolveAgent. rewrite Hagent. split_call.
    all: rewrite postsOf_post; reflexivity.
  - assert (Hkeep : forall k v o,
              k <> "gameInfo" ->
              getProp rt k
                match SettleBetParams.gameSession params with
                | Some session =>
                    if truthy rt session
                    then setProp rt "gameInfo" (VString (asText rt session)) o
                    else o
                | None => o
                end = v <-> getProp rt k o = v).
    { intros k v o Hk. destruct (SettleBetParams.gameSession params) as [x|];
        [destruct (truthy rt x)|]; try tauto.
      rewrite getProp_setProp_other; [tauto|congruence]. }
    repeat split;
      try (apply Hkeep; [discriminate|];
           rewrite app_assoc, getProp_objectLiteral_app; reflexivity).
    intros session -> ->. apply getProp_setProp_same.
Qed.

(** The request of the sample settleBet. *)
Lemma settleBet_request_carries_the_callers_amounts_witness :
  exists txn,
    postsOf
      (snd (settleBet Sample.runtime (Sample.env (Sample.replied "0000"))
              Sample.clock "req-1" Sample.settleBetParams []))
    = [("https://agent1/cb",
        Envelope.mk "cert1"
          (Sample.stringify
             (VObject [("action", VString "settle");
                       ("txns", VArray [VObject txn])])))] /\
    getProp Sample.runtime "betAmount" txn = VNumber 5%Z /\
    getProp Sample.runtime "winAmount" txn = VNumber 0%Z.
Proof.
  destruct (settleBet_request_carries_the_callers_amounts Sample.runtime
              (Sample.env (Sample.replied "0000")) Sample.clock "req-1"
              Sample.settleBetParams [] Sample.agent eq_refl)
    as (txn & Hpost & Hbet & Hwin & _).
  exists txn. split; [exact Hpost|]. split; [exact Hbet|exact Hwin].
Defined.

(** X23.  The request that refundBet sends is the serialised
    [{ action: "cancelBet", txns }] under the agent's key, with one
    entry per refund transaction, in their order; each entry carries
    that transaction's ids, amounts and round and the user of the call
    (no adapter payload is spread into it).  The game fields of every
    entry are those of the first transaction's game: without an
    adapter, each entry's [gameCode] is the first transaction's. *)
Theorem refundBet_request_lists_every_transaction :
  forall rt env clock requestId params w agent,
    Env.agentsService env (RefundBetParams.agentId params) = Some agent ->
    exists txns,
      postsOf (snd (refundBet rt env clock requestId params w))
      = postsOf w ++
        [(Agent.callbackURL agent,
          Envelope.mk (Agent.cert agent)
            (Runtime.JSON_stringify rt
               (VObject [("action", VString "cancelBet");
                         ("txns", VArray txns)])))] /\
      Forall2
        (fun t txn =>
           exists o,
             txn = VObject o /\
             getProp rt "platformTxId" o
             = VString (RefundTransaction.platformTxId t) /\
             getProp rt "refundPlatformTxId" o
             = VString (RefundTransaction.refundPlatformTxId t) /\
             getProp rt "userId" o = VString (RefundBetParams.userId params) /\
             getProp rt "betAmount" o
             = VNumber (RefundTransaction.betAmount t) /\
             getProp rt "winAmount" o
             = VNumber (RefundTransaction.winAmount t) /\
             getProp rt "roundId" o = VString (RefundTransaction.roundId t) /\
             (Env.walletApiAdapter env = None ->
              getProp rt "gameCode" o
              = VString
                  match hd_error (RefundBetParams.refundTransactions params)
                  with
                  | Some first => RefundTransaction.gameCode first
                  | None => ""
                  end))
        (RefundBetParams.refundTransactions params) txns.
Proof.
  intros rt env clock requestId params w agent Hagent.
  eexists. split.
  - unfold refundBet, resolveAgent. rewrite Hagent. split_call.
    all: rewrite postsOf_post; reflexivity.
  - apply Forall2_map_r. intros t _. eexists. split; [reflexivity|].
    destruct (RefundTransaction.gameInfo t) as [info|];
      [destruct (truthy rt info)|];
      rewrite ?getProp_setProp_other by discriminate;
      repeat split; try reflexivity;
      intros Hnone; unfold gamePayloadsFor; rewrite Hnone;
      now destruct (JS.truthy_string _).
Qed.

(** The request of a refund of two transactions. *)
Lemma refundBet_request_lists_every_transaction_witness :
  exists txns,
    postsOf
      (snd (refundBet Sample.runtime (Sample.env (Sample.replied "0000"))
              Sample.clock "req-1"
              (Sample.refundBetParams
                 [Sample.refundTransaction; Sample.refundTransaction]) []))
    = [("https://agent1/cb",
        Envelope.mk "cert1"
          (Sample.stringify
             (VObject [("action", VString "cancelBet");
                       ("txns", VArray txns)])))] /\
    length txns = 2.
Proof.
  destruct (refundBet_request_lists_every_transaction Sample.runtime
              (Sample.env (Sample.replied "0000")) Sample.clock "req-1"
              (Sample.refundBetParams
                 [Sample.refundTransaction; Sample.refundTransaction]) []
              Sample.agent eq_refl)
    as (txns & Hpost & Hall).
  exists txns. split; [exact Hpost|].
  symmetry. exact (Forall2_length Hall).
Defined.

(** X24.  A refund of several transactions that fails in transport is
    recorded under its first transaction: with an audit log that stores
    and a retry queue that accepts, the one audit record and the one
    retry job carry the first transaction's [platformTxId] and
    [roundId], and as amounts the totals over the whole batch; the job
    names the audit record and the error rethrown is the client's. *)
Theorem failed_refund_is_recorded_under_its_first_transaction :
  forall rt env clock requestId agentId userId first rest w agent err,
    Env.agentsService env agentId = Some agent ->
    (forall url payload, Env.httpPost env url payload = Err err) ->
    (forall a, Env.walletAuditService env a = AuditStored) ->
    (forall job, Env.retryJobService env job = true) ->
    exists payload audit job,
      refundBet rt env clock requestId
        (RefundBetParams.mk agentId userId (first :: rest)) w
      = (Err err,
         w ++ [EPost (Agent.callbackURL agent) payload;
               EAudit (auditCount rt w) audit; ERetry job]) /\
      AuditParams.platformTxId audit
      = Some (RefundTransaction.platformTxId first) /\
      AuditParams.roundId audit = Some (RefundTransaction.roundId first) /\
      AuditParams.betAmount audit
      = Some (total rt (@RefundTransaction.betAmount _) (first :: rest)) /\
      AuditParams.winAmount audit
      = Some (total rt (@RefundTransaction.winAmount _) (first :: rest)) /\
      RetryParams.platformTxId job = RefundTransaction.platformTxId first /\
      RetryParams.roundId job = Some (RefundTransaction.roundId first) /\
      RetryParams.betAmount job
      = Some (total rt (@RefundTransaction.betAmount _) (first :: rest)) /\
      RetryParams.winAmount job
      = Some (total rt (@RefundTransaction.winAmount _) (first :: rest)) /\
      RetryParams.walletAuditId job = Some (auditCount rt w).
Proof.
  intros rt env clock requestId agentId userId first rest w agent err
    Hagent Hpost Hstore Hqueue.
  unfold refundBet, resolveAgent.
  cbn [RefundBetParams.agentId RefundBetParams.userId
       RefundBetParams.refundTransactions].
  rewrite Hagent. cbv zeta. unfold tryCatch, post. rewrite Hpost.
  destruct (classifyError rt err) as [[kind httpStatus] responseData].
  match goal with
  | |- context [logAuditThen rt env ?a ?k ?w0] =>
      destruct (logAuditThen_tail rt env a k w0) as (tail & -> & _ & _ & Ht);
      rewrite (Ht (Hstore a) Hqueue); rewrite auditCount_post;
      cbn [hd_error];
      eexists; exists a; eexists;
      split; [rewrite <- app_assoc; reflexivity|]
  end.
  repeat split.
Qed.

(** A refund of two transactions against an endpoint that refuses the
    connection. *)
Lemma failed_refund_is_recorded_under_its_first_transaction_witness :
  exists payload audit job,
    refundBet Sample.runtime (Sample.env Sample.connectionRefused)
      Sample.clock "req-1"
      (Sample.refundBetParams
         [Sample.refundTransaction;
          RefundTransaction.mk "T2" "R2" 7%Z 0%Z None "t0" "t1" "r2" "G1"
            None]) []
    = (Err Sample.refusal,
       [EPost "https://agent1/cb" payload; EAudit 0 audit; ERetry job]) /\
    AuditParams.platformTxId audit = Some "T1" /\
    AuditParams.betAmount audit = Some 12%Z /\
    RetryParams.platformTxId job = "T1" /\
    RetryParams.walletAuditId job = Some 0.
Proof.
  destruct (failed_refund_is_recorded_under_its_first_transaction
              Sample.runtime (Sample.env Sample.connectionRefused)
              Sample.clock "req-1" "agent1" "u1" Sample.refundTransaction
              [RefundTransaction.mk "T2" "R2" 7%Z 0%Z None "t0" "t1" "r2"
                 "G1" None] [] Sample.agent Sample.refusal
              eq_refl (fun _ _ => eq_refl) (fun _ => eq_refl)
              (fun _ => eq_refl))
    as (payload & audit & job & Hcall & Htx & _ & Hbet & _ & Hjtx & _ & _ & _
        & Hid).
  exists payload, audit, job.
  split; [exact Hcall|]. split; [exact Htx|]. split; [exact Hbet|].
  split; [exact Hjtx|exact Hid].
Defined.

Lemma auditCount_audit_job :
  forall rt (w : Trace (Runtime.number rt)) id a job,
    auditCount rt (w ++ [EAudit id a; ERetry job]) = S (auditCount rt w).
Proof.
  intros. rewrite auditCount_app. unfold auditCount at 2. simpl. lia.
Qed.

(** X28.  A settlement or a refund (of at least one transaction) that
    the agent rejects is queued for resubmission twice: the rejection
    branch audits it and queues a job, and the catch block, which the
    rejection's own exception enters, audits it and queues a second job.
    With an audit log that stores and a queue that accepts, the call
    leaves the request, a record of kind AGENT_REJECTED with its job,
    and a record of kind HTTP_ERROR with its job, each job naming its
    record. *)
Theorem rejected_settlement_is_queued_twice :
  forall rt env clock requestId call w agent resp mapped,
    retried call = true ->
    Env.agentsService env (agentOf call) = Some agent ->
    (forall url payload, Env.httpPost env url payload = Ok resp) ->
    mapAgentResponse rt (HttpResponse.data resp) = Ok mapped ->
    WalletResponse.status mapped <> "0000" ->
    (forall a, Env.walletAuditService env a = AuditStored) ->
    (forall job, Env.retryJobService env job = true) ->
    exists message payload rejected job1 caught job2,
      invoke rt env clock requestId call w
      = (Err (Nest.InternalServerErrorException (Runtime.number rt) message),
         w ++ [EPost (Agent.callbackURL agent) payload;
               EAudit (auditCount rt w) rejected; ERetry job1;
               EAudit (S (auditCount rt w)) caught; ERetry job2]) /\
      AuditParams.failureType rejected = Some AGENT_REJECTED /\
      AuditParams.failureType caught = Some HTTP_ERROR /\
      RetryParams.walletAuditId job1 = Some (auditCount rt w) /\
      RetryParams.walletAuditId job2 = Some (S (auditCount rt w)) /\
      RetryParams.apiAction job1 = actionOf call /\
      RetryParams.apiAction job2 = actionOf call.
Proof.
  intros rt env clock requestId call w agent resp mapped
    Hretried Hagent Hpost Hmap Hstatus Hstore Hqueue.
  destruct (invoke_shape rt env agent w clock requestId call Hagent)
    as [payload [Hshape _]].
  inversion Hshape as
    [ err aC kC Hp _ _ Hout
    | resp' aC kC Hp Hmal _ _ Hout
    | resp' mapped' message aR kR aC kC Hp Hm Hst [_ [HaR _]] HkR
        [_ [HaC _]] HkC Hout
    | resp' mapped' aS Hp Hm Hst _ _ Hout ];
    rewrite Hpost in Hp; try discriminate; injection Hp as <-.
  - apply (mapAgentResponse_malformed rt) in Hmal. congruence.
  - unfold continuation in HkR, HkC. rewrite Hretried in HkR, HkC.
    destruct (logAuditThen_tail rt env aR kR
                (w ++ [EPost (Agent.callbackURL agent) payload]))
      as (t1 & -> & _ & _ & Ht1).
    rewrite (Ht1 (Hstore aR) Hqueue), auditCount_post.
    destruct (HkR (Some (auditCount rt w))) as (job1 & -> & Hid1 & Hact1 & _).
    destruct (logAuditThen_tail rt env aC kC
                ((w ++ [EPost (Agent.callbackURL agent) payload]) ++
                 [EAudit (auditCount rt w) aR; ERetry job1]))
      as (t2 & -> & _ & _ & Ht2).
    rewrite (Ht2 (Hstore aC) Hqueue), auditCount_audit_job, auditCount_post.
    destruct (HkC (Some (S (auditCount rt w))))
      as (job2 & -> & Hid2 & Hact2 & _).
    exists message, payload, aR, job1, aC, job2.
    split; [now rewrite <- !app_assoc|]. repeat split; assumption.
  - rewrite Hm in Hmap. injection Hmap as ->.
    apply String.eqb_eq in Hst. contradiction.
Qed.

(** settleBet against an agent that answers [{ status: "1001" }]. *)
Lemma rejected_settlement_is_queued_twice_witness :
  exists message payload rejected job1 caught job2,
    settleBet Sample.runtime (Sample.env (Sample.replied "1001")) Sample.clock
      "req-1" Sample.settleBetParams []
    = (Err (Nest.InternalServerErrorException Z message),
       [EPost "https://agent1/cb" payload;
        EAudit 0 rejected; ERetry job1; EAudit 1 caught; ERetry job2]) /\
    RetryParams.walletAuditId job1 = Some 0 /\
    RetryParams.walletAuditId job2 = Some 1.
Proof.
  destruct (rejected_settlement_is_queued_twice Sample.runtime
              (Sample.env (Sample.replied "1001")) Sample.clock "req-1"
              (SettleBet Sample.settleBetParams) [] Sample.agent
              (HttpResponse.mk 200 (VObject [("status", VString "1001")]))
              (WalletResponse.mk 0%Z VNull "1001" VNull
                 (VObject [("status", VString "1001")]))
              eq_refl eq_refl (fun _ _ => eq_refl) eq_refl
              ltac:(discriminate) (fun _ => eq_refl) (fun _ => eq_refl))
    as (message & payload & rejected & job1 & caught & job2 & Hcall & _ & _
        & Hid1 & Hid2 & _).
  exists message, payload, rejected, job1, caught, job2.
  split; [exact Hcall|]. split; [exact Hid1|exact Hid2].
Defined.

(** ** Tokens *)

(** X27.  signGenericToken signs the caller's payload with [iat] set to
    the current time in seconds, replacing an [iat] the caller supplied
    and keeping every other claim; an explicit [ttlSeconds], zero
    included, takes precedence over the configured expiry; and the
    token is signed with HS256 under the secret that verifyToken
    checks it against, which is the fixed default secret when neither a
    configuration nor a non-empty [JWT_SECRET] is given.  signUserToken
    signs [{ sub, agentId, iat }] the same way, its expiry defaulting to
    the configured [expiresIn]. *)
Theorem signGenericToken_stamps_the_issue_time :
  forall rt config JWT_SECRET nowSeconds claims ttlSeconds token,
    let service := JwtTokenService.create config JWT_SECRET in
    let request :=
      JwtTokenService.signGenericToken rt service nowSeconds claims
        ttlSeconds in
    getProp rt "iat" (JwtTokenService.payload request) = VNumber nowSeconds /\
    (forall k, k <> "iat" ->
       getProp rt k (JwtTokenService.payload request)
       = getProp rt k (objectLiteral rt claims)) /\
    JwtTokenService.signExpiresIn request
    = match ttlSeconds with
      | Some ttl => VNumber ttl
      | None => JwtTokenService.genericExpiresIn service
      end /\
    JwtTokenService.algorithm request = "HS256" /\
    JwtTokenService.algorithms (JwtTokenService.verifyToken service token)
    = ["HS256"] /\
    JwtTokenService.verifySecret (JwtTokenService.verifyToken service token)
    = JwtTokenService.signSecret request /\
    (config = None -> JWT_SECRET = None \/ JWT_SECRET = Some "" ->
     JwtTokenService.signSecret request
     = "default-secret-change-in-production") /\
    (forall userId agentId,
       let userRequest :=
         JwtTokenService.signUserToken rt service nowSeconds userId agentId
           ttlSeconds in
       getProp rt "sub" (JwtTokenService.payload userRequest)
       = VString userId /\
       getProp rt "agentId" (JwtTokenService.payload userRequest)
       = VString agentId /\
       getProp rt "iat" (JwtTokenService.payload userRequest)
       = VNumber nowSeconds /\
       JwtTokenService.signExpiresIn userRequest
       = match ttlSeconds with
         | Some ttl => VNumber ttl
         | None => JwtTokenService.expiresIn service
         end /\
       JwtTokenService.signSecret userRequest
       = JwtTokenService.signSecret request /\
       JwtTokenService.algorithm userRequest = "HS256").
Proof.
  intros rt config JWT_SECRET nowSeconds claims ttlSeconds token
    service request.
  subst request. unfold JwtTokenService.signGenericToken. simpl.
  split; [|split].
  - rewrite getProp_objectLiteral_app. reflexivity.
  - intros k Hk. rewrite getProp_objectLiteral_app.
    cbn [rev app find fst snd].
    destruct (String.eqb_spec "iat" k); [congruence|reflexivity].
  - repeat split. intros -> [-> | ->]; reflexivity.
Qed.
